(** * webserv: the request parser, the router and the three gateways

    A shallow embedding of the HTTP server's pure core
    (HttpRequest.cpp, HttpResponse.cpp, Config.cpp, StaticFileHandler.cpp,
    UploadHandler.cpp and the request-handling half of Server.cpp), followed
    by the properties checked against it.

    Conventions.
    - [std::string] is [string] (a sequence of 8-bit characters); positions
      and sizes ([size_t] values bounded by the size of a string held in
      memory) are [nat], and [std::string::npos] is [None].
    - [size_t] values read from the wire ([content_length], the upload
      limit) are [N] with the 64-bit wrap-around written out; [int] values
      (status and error codes) are [Z].
    - [std::map<std::string, std::string>] is a key-sorted association list,
      so iteration follows the key order as in the C++ container.
    - the file system and the CGI subprocess are inputs of the model,
      gathered in the record [World]. *)

From Stdlib Require Import String Ascii List Bool Arith NArith ZArith Lia.
Import ListNotations.
Open Scope string_scope.
Open Scope nat_scope.

(* ===================================================================== *)
(** ** std::string operations *)
(* ===================================================================== *)

Module Str.

Definition CR : ascii := "013"%char.
Definition LF : ascii := "010"%char.
Definition TAB : ascii := "009"%char.
Definition VT : ascii := "011"%char.
Definition FF : ascii := "012"%char.
Definition DQUOTE : ascii := "034"%char.
Definition BACKSLASH : ascii := "092"%char.

Definition CRLF : string := String CR (String LF "").
Definition LFLF : string := String LF (String LF "").
Definition CRLFCRLF : string := CRLF ++ CRLF.
Definition DQ : string := String DQUOTE "".

Definition is_empty (s : string) : bool :=
  match s with "" => true | _ => false end.

(** [pat] occurs in [s] at offset 0. *)
Fixpoint starts_with (pat s : string) : bool :=
  match pat, s with
  | "", _ => true
  | String _ _, "" => false
  | String a pat', String b s' => Ascii.eqb a b && starts_with pat' s'
  end.

Fixpoint drop (n : nat) (s : string) : string :=
  match n, s with
  | 0, _ => s
  | S _, "" => ""
  | S n', String _ s' => drop n' s'
  end.

Fixpoint take (n : nat) (s : string) : string :=
  match n, s with
  | 0, _ => ""
  | S _, "" => ""
  | S n', String a s' => String a (take n' s')
  end.

(** Offset of the first occurrence of [pat] in [s]. *)
Fixpoint find0 (pat s : string) : option nat :=
  if starts_with pat s then Some 0
  else match s with
       | "" => None
       | String _ s' => option_map S (find0 pat s')
       end.

(** [s.find(pat, pos)] *)
Definition find (s pat : string) (pos : nat) : option nat :=
  if pos <=? String.length s
  then option_map (Nat.add pos) (find0 pat (drop pos s))
  else None.

(** [s.find(c)] *)
Definition find_char (s : string) (c : ascii) : option nat :=
  find s (String c "") 0.

(** [s.substr(pos, len)]; every caller has [pos <= s.size()]. *)
Definition substr (s : string) (pos len : nat) : string :=
  take len (drop pos s).

(** [s.substr(pos)] *)
Definition substr_from (s : string) (pos : nat) : string := drop pos s.

Fixpoint mem (c : ascii) (set : string) : bool :=
  match set with
  | "" => false
  | String a set' => Ascii.eqb c a || mem c set'
  end.

(** [s.find_first_not_of(set)] *)
Fixpoint find_first_not_of (s set : string) : option nat :=
  match s with
  | "" => None
  | String c s' =>
      if mem c set then option_map S (find_first_not_of s' set) else Some 0
  end.

(** [s.find_last_not_of(set)] *)
Fixpoint find_last_not_of (s set : string) : option nat :=
  match s with
  | "" => None
  | String c s' =>
      match find_last_not_of s' set with
      | Some i => Some (S i)
      | None => if mem c set then None else Some 0
      end
  end.

(** [s.find_last_of(set)] *)
Fixpoint find_last_of (s set : string) : option nat :=
  match s with
  | "" => None
  | String c s' =>
      match find_last_of s' set with
      | Some i => Some (S i)
      | None => if mem c set then Some 0 else None
      end
  end.

Fixpoint map (f : ascii -> ascii) (s : string) : string :=
  match s with
  | "" => ""
  | String c s' => String (f c) (map f s')
  end.

Fixpoint last_char (s : string) : option ascii :=
  match s with
  | "" => None
  | String c "" => Some c
  | String _ s' => last_char s'
  end.

Fixpoint replicate (n : nat) (c : ascii) : string :=
  match n with
  | 0 => ""
  | S n' => String c (replicate n' c)
  end.

(** Character classes of the "C" locale. *)
Definition in_range (lo hi c : ascii) : bool :=
  (nat_of_ascii lo <=? nat_of_ascii c) && (nat_of_ascii c <=? nat_of_ascii hi).

Definition isupper (c : ascii) : bool := in_range "A" "Z" c.
Definition islower (c : ascii) : bool := in_range "a" "z" c.
Definition isdigit (c : ascii) : bool := in_range "0" "9" c.
Definition isalnum (c : ascii) : bool := isupper c || islower c || isdigit c.

Definition isspace (c : ascii) : bool :=
  Ascii.eqb c " " || Ascii.eqb c TAB || Ascii.eqb c LF
  || Ascii.eqb c VT || Ascii.eqb c FF || Ascii.eqb c CR.

Definition tolower (c : ascii) : ascii :=
  if isupper c then ascii_of_nat (nat_of_ascii c + 32) else c.

Definition digit_val (c : ascii) : N := N.of_nat (nat_of_ascii c - 48).

(** Decimal rendering, as [ostream << n] prints a non-negative number. *)
Fixpoint digits_fuel (fuel : nat) (n : N) (acc : string) : string :=
  match fuel with
  | 0 => acc
  | S f =>
      let d := ascii_of_N (48 + n mod 10) in
      if (n <? 10)%N then String d acc else digits_fuel f (n / 10)%N (String d acc)
  end.

Definition of_N (n : N) : string := digits_fuel (S (N.to_nat (N.log2 n))) n "".

Definition of_Z (z : Z) : string :=
  if (z <? 0)%Z then "-" ++ of_N (Z.to_N (- z)) else of_N (Z.to_N z).


(** [s] ends with the character [c]. *)
Definition ends_with_char (c : ascii) (s : string) : Prop :=
  exists r, s = r ++ String c "".

End Str.

(* ===================================================================== *)
(** ** std::map<std::string, std::string> *)
(* ===================================================================== *)

Module StdMap.

(** Entries are kept sorted by key (byte-wise order), without duplicates. *)
Definition t : Type := list (string * string).

Definition empty : t := [].

Fixpoint find (k : string) (m : t) : option string :=
  match m with
  | [] => None
  | (k', v) :: m' => if String.eqb k k' then Some v else find k m'
  end.

(** [m[k] = v] *)
Fixpoint insert (k v : string) (m : t) : t :=
  match m with
  | [] => [(k, v)]
  | (k', v') :: m' =>
      match String.compare k k' with
      | Lt => (k, v) :: m
      | Eq => (k, v) :: m'
      | Gt => (k', v') :: insert k v m'
      end
  end.

Definition is_empty (m : t) : bool :=
  match m with [] => true | _ => false end.

End StdMap.

(* ===================================================================== *)
(** ** HttpRequest.hpp / HttpRequest.cpp *)
(* ===================================================================== *)

Inductive HttpMethod : Type := GET | POST | DELETE | PUT | HEAD | UNKNOWN.

Inductive ParseState : Type := REQUEST_LINE | HEADERS | BODY | COMPLETE | ERROR.

Definition HttpMethod_eqb (a b : HttpMethod) : bool :=
  match a, b with
  | GET, GET | POST, POST | DELETE, DELETE | PUT, PUT | HEAD, HEAD
  | UNKNOWN, UNKNOWN => true
  | _, _ => false
  end.

Definition ParseState_eqb (a b : ParseState) : bool :=
  match a, b with
  | REQUEST_LINE, REQUEST_LINE | HEADERS, HEADERS | BODY, BODY
  | COMPLETE, COMPLETE | ERROR, ERROR => true
  | _, _ => false
  end.

Record HttpRequest : Type := mkRequest {
  method : HttpMethod;
  uri : string;
  query_string : string;
  http_version : string;
  headers : StdMap.t;
  body : string;
  state : ParseState;
  raw_data : string;
  bytes_parsed : nat;
  content_length : N;
  boundary : string;
  error_code : Z
}.

Module Request.

(** [HttpRequest::HttpRequest()] *)
Definition new : HttpRequest :=
  {| method := UNKNOWN; uri := ""; query_string := ""; http_version := "";
     headers := StdMap.empty; body := ""; state := REQUEST_LINE;
     raw_data := ""; bytes_parsed := 0; content_length := 0%N;
     boundary := ""; error_code := 0%Z |}.

(** [HttpRequest::reset] *)
Definition reset (r : HttpRequest) : HttpRequest :=
  {| method := UNKNOWN; uri := ""; query_string := ""; http_version := "";
     headers := StdMap.empty; body := ""; state := REQUEST_LINE;
     raw_data := ""; bytes_parsed := 0; content_length := 0%N;
     boundary := ""; error_code := 0%Z |}.

(** Field updates. *)
Definition set_state (st : ParseState) (r : HttpRequest) : HttpRequest :=
  mkRequest (method r) (uri r) (query_string r) (http_version r) (headers r)
    (body r) st (raw_data r) (bytes_parsed r) (content_length r)
    (boundary r) (error_code r).

Definition set_error_code (e : Z) (r : HttpRequest) : HttpRequest :=
  mkRequest (method r) (uri r) (query_string r) (http_version r) (headers r)
    (body r) (state r) (raw_data r) (bytes_parsed r) (content_length r)
    (boundary r) e.

Definition set_method (m : HttpMethod) (r : HttpRequest) : HttpRequest :=
  mkRequest m (uri r) (query_string r) (http_version r) (headers r)
    (body r) (state r) (raw_data r) (bytes_parsed r) (content_length r)
    (boundary r) (error_code r).

Definition set_uri (u : string) (r : HttpRequest) : HttpRequest :=
  mkRequest (method r) u (query_string r) (http_version r) (headers r)
    (body r) (state r) (raw_data r) (bytes_parsed r) (content_length r)
    (boundary r) (error_code r).

Definition set_query_string (q : string) (r : HttpRequest) : HttpRequest :=
  mkRequest (method r) (uri r) q (http_version r) (headers r)
    (body r) (state r) (raw_data r) (bytes_parsed r) (content_length r)
    (boundary r) (error_code r).

Definition set_http_version (v : string) (r : HttpRequest) : HttpRequest :=
  mkRequest (method r) (uri r) (query_string r) v (headers r)
    (body r) (state r) (raw_data r) (bytes_parsed r) (content_length r)
    (boundary r) (error_code r).

Definition set_headers (h : StdMap.t) (r : HttpRequest) : HttpRequest :=
  mkRequest (method r) (uri r) (query_string r) (http_version r) h
    (body r) (state r) (raw_data r) (bytes_parsed r) (content_length r)
    (boundary r) (error_code r).

Definition set_body (b : string) (r : HttpRequest) : HttpRequest :=
  mkRequest (method r) (uri r) (query_string r) (http_version r) (headers r)
    b (state r) (raw_data r) (bytes_parsed r) (content_length r)
    (boundary r) (error_code r).

Definition set_raw_data (d : string) (r : HttpRequest) : HttpRequest :=
  mkRequest (method r) (uri r) (query_string r) (http_version r) (headers r)
    (body r) (state r) d (bytes_parsed r) (content_length r)
    (boundary r) (error_code r).

Definition set_bytes_parsed (n : nat) (r : HttpRequest) : HttpRequest :=
  mkRequest (method r) (uri r) (query_string r) (http_version r) (headers r)
    (body r) (state r) (raw_data r) n (content_length r)
    (boundary r) (error_code r).

Definition set_content_length (n : N) (r : HttpRequest) : HttpRequest :=
  mkRequest (method r) (uri r) (query_string r) (http_version r) (headers r)
    (body r) (state r) (raw_data r) (bytes_parsed r) n
    (boundary r) (error_code r).

Definition set_boundary (b : string) (r : HttpRequest) : HttpRequest :=
  mkRequest (method r) (uri r) (query_string r) (http_version r) (headers r)
    (body r) (state r) (raw_data r) (bytes_parsed r) (content_length r)
    b (error_code r).

(** [error_code = e; state = ERROR;] *)
Definition fail (e : Z) (r : HttpRequest) : HttpRequest :=
  set_state ERROR (set_error_code e r).

(** [static trim] *)
Definition ws : string := String " " (String Str.TAB (String Str.CR (String Str.LF ""))).

Definition trim (str : string) : string :=
  match Str.find_first_not_of str ws with
  | None => ""
  | Some first =>
      match Str.find_last_not_of str ws with
      | Some last => Str.substr str first (last - first + 1)
      | None => ""
      end
  end.

(** [static toLower] *)
Definition toLower (str : string) : string := Str.map Str.tolower str.

(** [HttpRequest::stringToMethod] *)
Definition stringToMethod (method_str : string) : HttpMethod :=
  if String.eqb method_str "GET" then GET
  else if String.eqb method_str "POST" then POST
  else if String.eqb method_str "DELETE" then DELETE
  else if String.eqb method_str "PUT" then PUT
  else if String.eqb method_str "HEAD" then HEAD
  else UNKNOWN.

(** [HttpRequest::getMethodString] *)
Definition getMethodString (r : HttpRequest) : string :=
  match method r with
  | GET => "GET"
  | POST => "POST"
  | DELETE => "DELETE"
  | PUT => "PUT"
  | HEAD => "HEAD"
  | UNKNOWN => "UNKNOWN"
  end.

(** *** Formatted extraction from a [std::istringstream]

    The stream is the text not yet read together with its good bit.
    [iss >> str] first builds a sentry: on a stream that is not good it
    fails at once; otherwise it skips white space and fails if that hits
    the end.  When the sentry fails the target string is left untouched.
    Otherwise the string is replaced by the next run of non-space
    characters; reaching the end of the text while reading sets eofbit. *)
Record istringstream : Type := mkStream { rest : string; good : bool }.

Definition open_stream (s : string) : istringstream :=
  {| rest := s; good := true |}.

Fixpoint skip_ws (s : string) : string :=
  match s with
  | "" => ""
  | String c s' => if Str.isspace c then skip_ws s' else s
  end.

(** The longest run of non-space characters at the head, and what follows. *)
Fixpoint read_word (s : string) : string * string :=
  match s with
  | "" => ("", "")
  | String c s' =>
      if Str.isspace c then ("", s)
      else let (w, tl) := read_word s' in (String c w, tl)
  end.

(** [iss >> target] for a [std::string] target holding [old]. *)
Definition extract (iss : istringstream) (old : string) : istringstream * string :=
  if negb (good iss) then (iss, old)
  else
    match skip_ws (rest iss) with
    | "" => ({| rest := ""; good := false |}, old)
    | String c s' =>
        let (w, tl) := read_word (String c s') in
        ({| rest := tl; good := negb (Str.is_empty tl) |}, w)
    end.

(** The white-space separated tokens of a line, in order. *)
Fixpoint split_ws (s cur : string) : list string :=
  match s with
  | "" => if Str.is_empty cur then [] else [cur]
  | String c s' =>
      if Str.isspace c
      then (if Str.is_empty cur then split_ws s' "" else cur :: split_ws s' "")
      else split_ws s' (cur ++ String c "")
  end.

Definition words (line : string) : list string := split_ws line "".

Definition known_method (token : string) : bool :=
  existsb (String.eqb token) ["GET"; "POST"; "DELETE"; "PUT"; "HEAD"].

Fixpoint occurs (c : ascii) (s : string) : bool :=
  match s with
  | "" => false
  | String a s' => Ascii.eqb a c || occurs c s'
  end.

(** The tokens a stream still has to give. *)
Definition stream_tokens (iss : istringstream) : list string :=
  if good iss then words (rest iss) else [].

(** [HttpRequest::parseQueryString] *)
Definition parseQueryString (r : HttpRequest) : HttpRequest :=
  match Str.find_char (uri r) "?" with
  | Some pos =>
      let r1 := set_query_string (Str.substr_from (uri r) (pos + 1)) r in
      set_uri (Str.substr (uri r1) 0 pos) r1
  | None => r
  end.

(** [HttpRequest::parseRequestLine] *)
Definition parseRequestLine (line : string) (r : HttpRequest) : HttpRequest :=
  let iss := open_stream line in
  let '(iss, method_str) := extract iss "" in
  let '(iss, uri') := extract iss (uri r) in
  let '(iss, http_version') := extract iss (http_version r) in
  let r := set_http_version http_version' (set_uri uri' r) in
  let r := set_method (stringToMethod method_str) r in
  if HttpMethod_eqb (method r) UNKNOWN then fail 405 r
  else if Str.is_empty (uri r) || Str.is_empty (http_version r) then fail 400 r
  else if negb (String.eqb (http_version r) "HTTP/1.1")
          && negb (String.eqb (http_version r) "HTTP/1.0") then fail 505 r
  else set_state HEADERS (parseQueryString r).

(** [HttpRequest::parseHeader] *)
Definition parseHeader (line : string) (r : HttpRequest) : HttpRequest :=
  match Str.find_char line ":" with
  | None => fail 400 r
  | Some pos =>
      let key := trim (Str.substr line 0 pos) in
      let value := trim (Str.substr_from line (pos + 1)) in
      set_headers (StdMap.insert (toLower key) value (headers r)) r
  end.

(** [HttpRequest::getHeader] *)
Definition getHeader (r : HttpRequest) (key : string) : string :=
  match StdMap.find (toLower key) (headers r) with
  | Some v => v
  | None => ""
  end.

(** [HttpRequest::isChunked] *)
Definition isChunked (r : HttpRequest) : bool :=
  let transfer_encoding := getHeader r "Transfer-Encoding" in
  match Str.find (toLower transfer_encoding) "chunked" 0 with
  | Some _ => true
  | None => false
  end.

(** *** [iss >> content_length] for a [size_t] target

    A failed sentry (only white space left) leaves the target as it was.
    Otherwise an optional sign and a run of decimal digits are read: no
    digit stores 0, a value above 2^64 - 1 stores 2^64 - 1, and a minus
    sign negates the value modulo 2^64. *)
Definition SIZE_MAX : N := 18446744073709551615%N.

Fixpoint read_digits (s : string) (acc : N) (seen : bool) : N * bool :=
  match s with
  | "" => (acc, seen)
  | String c s' =>
      if Str.isdigit c then read_digits s' (acc * 10 + Str.digit_val c)%N true
      else (acc, seen)
  end.

Definition extract_size_t (text : string) (old : N) : N :=
  match skip_ws text with
  | "" => old
  | String c s' =>
      let negative := Ascii.eqb c "-" in
      let digits := if negative || Ascii.eqb c "+" then s' else String c s' in
      let (v, seen) := read_digits digits 0%N false in
      if negb seen then 0%N
      else if (SIZE_MAX <? v)%N then SIZE_MAX
      else if negative then ((SIZE_MAX + 1 - v) mod (SIZE_MAX + 1))%N
      else v
  end.

(** The end of the header block: the body of [if (line.empty())] in
    [HttpRequest::parse], in its three parts. *)
Definition readContentLength (r : HttpRequest) : HttpRequest :=
  let content_len_str := getHeader r "Content-Length" in
  if negb (Str.is_empty content_len_str)
  then set_content_length (extract_size_t content_len_str (content_length r)) r
  else r.

Definition unquote (b : string) : string :=
  match b, Str.last_char b with
  | String c0 _, Some cl =>
      if Ascii.eqb c0 Str.DQUOTE && Ascii.eqb cl Str.DQUOTE
      then Str.substr b 1 (String.length b - 2)
      else b
  | _, _ => b
  end.

Definition readBoundary (r : HttpRequest) : HttpRequest :=
  let content_type := getHeader r "Content-Type" in
  match Str.find content_type "multipart/form-data" 0 with
  | Some _ =>
      match Str.find content_type "boundary=" 0 with
      | Some boundary_pos =>
          set_boundary
            (unquote (Str.substr_from content_type (boundary_pos + 9))) r
      | None => r
      end
  | None => r
  end.

Definition endOfHeaders (r : HttpRequest) : HttpRequest :=
  let r := readBoundary (readContentLength r) in
  if (0 <? content_length r)%N || isChunked r
  then set_state BODY r
  else set_state COMPLETE r.

Definition terminal (r : HttpRequest) : bool :=
  ParseState_eqb (state r) COMPLETE || ParseState_eqb (state r) ERROR.

(** One pass through the body of the [while] loop of [HttpRequest::parse]:
    either the function returns from inside the loop, or control reaches
    the end of the body and the loop condition is tested again. *)
Inductive Outcome : Type :=
| Return (result : bool) (r : HttpRequest)
| Continue (r : HttpRequest).

Definition step (r : HttpRequest) : Outcome :=
  match state r with
  | REQUEST_LINE | HEADERS =>
      match Str.find (raw_data r) Str.CRLF (bytes_parsed r) with
      | None =>
          if (8192 <? N.of_nat (String.length (raw_data r)))%N
          then Return false (fail 431 r)
          else Return false r
      | Some line_end =>
          let line := Str.substr (raw_data r) (bytes_parsed r)
                                 (line_end - bytes_parsed r) in
          let r := set_bytes_parsed (line_end + 2) r in
          match state r with
          | REQUEST_LINE => Continue (parseRequestLine line r)
          | HEADERS =>
              if Str.is_empty line then Continue (endOfHeaders r)
              else Continue (parseHeader line r)
          | _ => Continue r
          end
      end
  | BODY =>
      if isChunked r then Return false (fail 501 r)
      else
        let available := String.length (raw_data r) - bytes_parsed r in
        if (content_length r <=? N.of_nat available)%N
        then
          let n := N.to_nat (content_length r) in
          let r := set_body (Str.substr (raw_data r) (bytes_parsed r) n) r in
          let r := set_bytes_parsed (bytes_parsed r + n) r in
          Continue (set_state COMPLETE r)
        else Return false r
  | COMPLETE | ERROR => Continue r
  end.

(** The [while (state != COMPLETE && state != ERROR)] loop and the final
    [return state == COMPLETE].  [None] means the fuel ran out. *)
Fixpoint parse_loop (fuel : nat) (r : HttpRequest) : option (bool * HttpRequest) :=
  if terminal r then Some (ParseState_eqb (state r) COMPLETE, r)
  else
    match fuel with
    | 0 => None
    | S fuel' =>
        match step r with
        | Return result r' => Some (result, r')
        | Continue r' => parse_loop fuel' r'
        end
    end.

(** Every pass but the last consumes a line, so the size of the buffer
    bounds the number of passes ([parse_loop_enough_fuel] below). *)
Definition run (r : HttpRequest) : bool * HttpRequest :=
  match parse_loop (S (String.length (raw_data r))) r with
  | Some res => res
  | None => (false, r)
  end.

(** [HttpRequest::parse]: the result and the object afterwards. *)
Definition parse (data : string) (r : HttpRequest) : bool * HttpRequest :=
  if terminal r then (ParseState_eqb (state r) COMPLETE, r)
  else run (set_raw_data (raw_data r ++ data) r).

(** Feeding a sequence of chunks, one [parse] call per chunk. *)
Definition feed (chunks : list string) (r : HttpRequest) : HttpRequest :=
  fold_left (fun r chunk => snd (parse chunk r)) chunks r.


(** *** Notions used to state the properties *)

(** More received bytes: [raw_data.append(data, len)]. *)
Definition extend (e : string) (r : HttpRequest) : HttpRequest :=
  set_raw_data (raw_data r ++ e) r.

Definition inv (r : HttpRequest) : Prop :=
  bytes_parsed r <= String.length (raw_data r).

(** The fields a caller can observe (everything but the buffer and the
    cursor into it). *)
Definition observable (r : HttpRequest) :=
  (method r, uri r, query_string r, http_version r, headers r, body r,
   state r, content_length r, boundary r, error_code r).

Definition concat_chunks (chunks : list string) : string :=
  fold_right String.append "" chunks.

Definition frame (r r' : HttpRequest) : Prop :=
  raw_data r' = raw_data r /\ bytes_parsed r' = bytes_parsed r /\
  (error_code r' = error_code r \/
   (state r' = ERROR /\
    (error_code r' = 400%Z \/ error_code r' = 405%Z \/ error_code r' = 505%Z))).

Definition line_of (r : HttpRequest) (line_end : nat) : string :=
  Str.substr (raw_data r) (bytes_parsed r) (line_end - bytes_parsed r).

Definition in_head (r : HttpRequest) : Prop :=
  state r = REQUEST_LINE \/ state r = HEADERS.

Inductive StepView (r : HttpRequest) : Outcome -> Prop :=
| sv_wait_line :
    in_head r ->
    Str.find (raw_data r) Str.CRLF (bytes_parsed r) = None ->
    (8192 <? N.of_nat (String.length (raw_data r)))%N = false ->
    StepView r (Return false r)
| sv_too_large :
    in_head r ->
    Str.find (raw_data r) Str.CRLF (bytes_parsed r) = None ->
    (8192 <? N.of_nat (String.length (raw_data r)))%N = true ->
    StepView r (Return false (fail 431 r))
| sv_request_line line_end :
    state r = REQUEST_LINE ->
    Str.find (raw_data r) Str.CRLF (bytes_parsed r) = Some line_end ->
    StepView r (Continue (parseRequestLine (line_of r line_end)
                            (set_bytes_parsed (line_end + 2) r)))
| sv_header line_end :
    state r = HEADERS ->
    Str.find (raw_data r) Str.CRLF (bytes_parsed r) = Some line_end ->
    Str.is_empty (line_of r line_end) = false ->
    StepView r (Continue (parseHeader (line_of r line_end)
                            (set_bytes_parsed (line_end + 2) r)))
| sv_headers_end line_end :
    state r = HEADERS ->
    Str.find (raw_data r) Str.CRLF (bytes_parsed r) = Some line_end ->
    Str.is_empty (line_of r line_end) = true ->
    StepView r (Continue (endOfHeaders (set_bytes_parsed (line_end + 2) r)))
| sv_chunked :
    state r = BODY -> isChunked r = true ->
    StepView r (Return false (fail 501 r))
| sv_body :
    state r = BODY -> isChunked r = false ->
    (content_length r
       <=? N.of_nat (String.length (raw_data r) - bytes_parsed r))%N = true ->
    StepView r
      (Continue
         (set_state COMPLETE
            (set_bytes_parsed (bytes_parsed r + N.to_nat (content_length r))
               (set_body (Str.substr (raw_data r) (bytes_parsed r)
                            (N.to_nat (content_length r))) r))))
| sv_wait_body :
    state r = BODY -> isChunked r = false ->
    (content_length r
       <=? N.of_nat (String.length (raw_data r) - bytes_parsed r))%N = false ->
    StepView r (Return false r).

(** [reaches r p]: starting the loop on [r], control arrives at the top of
    the loop body with the object equal to [p]. *)
Inductive reaches : HttpRequest -> HttpRequest -> Prop :=
| reaches_here r : terminal r = false -> reaches r r
| reaches_next r r1 p :
    terminal r = false -> step r = Continue r1 -> reaches r1 p ->
    reaches r p.

(** The request line and the header block are behind. *)
Definition headers_done (r : HttpRequest) : bool :=
  match state r with
  | REQUEST_LINE | HEADERS => false
  | _ => true
  end.

(** [d] is no longer than the cap, or the part of it that fits in the
    cap already holds the complete request line and header block. *)
Definition within_cap (d : string) : Prop :=
  exists h b, d = h ++ b /\
    (N.of_nat (String.length h) <= 8192)%N /\
    (b = "" \/ headers_done (snd (parse h new)) = true).

(** The object after the chunks and the object after the single call
    differ at most in the bytes buffered after the request was decided. *)
Definition agree (rf rs : HttpRequest) : Prop :=
  exists e, rs = extend e rf /\ (terminal rf = false -> e = "").

(** When the parser reads a request line, no earlier line has left a
    URI or a version behind. *)
Definition fresh (r : HttpRequest) : Prop :=
  state r = REQUEST_LINE -> uri r = "" /\ http_version r = "".


(** What holds of a request object between calls of [parse]: the cursor
    is inside the buffer, the state is ERROR exactly when an error code
    is set, only the parser's six codes occur, the body is empty until
    the request is complete and then has the declared length, and header
    names are stored in lower case. *)
Definition consistent (r : HttpRequest) : Prop :=
  bytes_parsed r <= String.length (raw_data r) /\
  (state r = ERROR <-> error_code r <> 0%Z) /\
  In (error_code r) [0; 400; 405; 431; 501; 505]%Z /\
  (state r <> COMPLETE -> body r = "") /\
  (state r = COMPLETE -> N.of_nat (String.length (body r)) = content_length r) /\
  Forall (fun kv => toLower (fst kv) = fst kv) (headers r).


(** White space at the ends of a text, for the properties of [trim]. *)
Fixpoint all_blank (s : string) : bool :=
  match s with
  | "" => true
  | String c s' => Str.mem c ws && all_blank s'
  end.

Definition begins_blank (s : string) : bool :=
  match s with
  | "" => false
  | String c _ => Str.mem c ws
  end.

Definition ends_blank (s : string) : bool :=
  match Str.last_char s with
  | Some c => Str.mem c ws
  | None => false
  end.

(** What is left after the leading blanks, and after the trailing ones. *)
Fixpoint strip_left (s : string) : string :=
  match s with
  | "" => ""
  | String c s' => if Str.mem c ws then strip_left s' else s
  end.

Fixpoint strip_right (s : string) : string :=
  match s with
  | "" => ""
  | String c s' =>
      match strip_right s' with
      | "" => if Str.mem c ws then "" else String c ""
      | t => String c t
      end
  end.


(** What the request line has left in a request that is past it. *)
Definition request_line_kept (r : HttpRequest) : Prop :=
  state r = HEADERS \/ state r = BODY \/ state r = COMPLETE ->
  method r <> UNKNOWN /\ occurs "?" (uri r) = false /\
  (http_version r = "HTTP/1.1" \/ http_version r = "HTTP/1.0").


(** Where a boundary comes from: there is none before the end of the
    headers, and one that is there was read from a Content-Type header
    that names multipart/form-data and a boundary. *)
Definition boundary_from_header (r : HttpRequest) : Prop :=
  (in_head r -> boundary r = "") /\
  (boundary r <> "" ->
   Str.find (getHeader r "Content-Type") "multipart/form-data" 0 <> None /\
   Str.find (getHeader r "Content-Type") "boundary=" 0 <> None).


(** A request that is COMPLETE is not chunked. *)
Definition complete_not_chunked (r : HttpRequest) : Prop :=
  state r = COMPLETE -> isChunked r = false.


(** Where the body of a COMPLETE request lies: at the end of the part of
    the buffer that has been read. *)
Definition body_in_buffer (r : HttpRequest) : Prop :=
  consistent r /\
  (state r = COMPLETE ->
   exists head, Str.take (bytes_parsed r) (raw_data r) = head ++ body r).

End Request.


(* ===================================================================== *)
(** ** The outside world *)
(* ===================================================================== *)

Inductive FileKind : Type := RegularFile | Directory | OtherFile.

(** What the system calls and the subprocess answer.  Each field stands
    for the result of the call named in its comment; the handlers below
    consult them where the C++ code makes the call. *)
Record World : Type := mkWorld {
  (** [stat(path, &st)]: [None] when the call fails, else the file type *)
  stat : string -> option FileKind;
  (** [std::ifstream file(path)] then reading it whole: [None] when the
      file cannot be opened *)
  read_file : string -> option string;
  (** [opendir]/[readdir]: the entry names, [None] when [opendir] fails *)
  read_dir : string -> option (list string);
  (** [remove(path) == 0] *)
  remove_ok : string -> bool;
  (** [std::ofstream file(path)] is open *)
  write_ok : string -> bool;
  (** both [pipe] calls succeed *)
  pipe_ok : bool;
  (** [fork] succeeds *)
  fork_ok : bool;
  (** the bytes the read loop collects from the child's standard output,
      given the interpreter, the script path, the environment and the
      bytes written to its standard input *)
  cgi_output : string -> string -> list string -> string -> string
}.

(** A world whose only file is the regular file [script], and in which
    every subprocess prints [out]. *)
Definition world_with_script (script out : string) : World :=
  {| stat := fun path => if String.eqb path script then Some RegularFile else None;
     read_file := fun _ => None;
     read_dir := fun _ => None;
     remove_ok := fun _ => false;
     write_ok := fun _ => false;
     pipe_ok := true;
     fork_ok := true;
     cgi_output := fun _ _ _ _ => out |}.


(** A world without files in which every file can be created. *)
Definition world_open_to_writes : World :=
  {| stat := fun _ => None;
     read_file := fun _ => None;
     read_dir := fun _ => None;
     remove_ok := fun _ => false;
     write_ok := fun _ => true;
     pipe_ok := true;
     fork_ok := true;
     cgi_output := fun _ _ _ _ => "" |}.

(* ===================================================================== *)
(** ** HttpResponse.hpp / HttpResponse.cpp *)
(* ===================================================================== *)

Record HttpResponse : Type := mkResponse {
  status_code : Z;
  status_message : string;
  resp_headers : StdMap.t;
  resp_body : string;
  headers_sent : bool
}.

Module Response.

(** [HttpResponse::getStatusMessage] *)
Definition getStatusMessage (code : Z) : string :=
  match code with
  | 200 => "OK"
  | 201 => "Created"
  | 204 => "No Content"
  | 301 => "Moved Permanently"
  | 302 => "Found"
  | 304 => "Not Modified"
  | 400 => "Bad Request"
  | 403 => "Forbidden"
  | 404 => "Not Found"
  | 405 => "Method Not Allowed"
  | 413 => "Payload Too Large"
  | 431 => "Request Header Fields Too Large"
  | 500 => "Internal Server Error"
  | 501 => "Not Implemented"
  | 505 => "HTTP Version Not Supported"
  | _ => "Unknown"
  end%Z.

(** [HttpResponse::setHeader] *)
Definition setHeader (key value : string) (resp : HttpResponse) : HttpResponse :=
  mkResponse (status_code resp) (status_message resp)
    (StdMap.insert key value (resp_headers resp)) (resp_body resp)
    (headers_sent resp).

(** [HttpResponse::HttpResponse()] *)
Definition default : HttpResponse :=
  setHeader "Server" "WebServ/1.0" (mkResponse 200 "OK" StdMap.empty "" false).

(** [HttpResponse::HttpResponse(int code)] *)
Definition new (code : Z) : HttpResponse :=
  setHeader "Server" "WebServ/1.0"
    (mkResponse code (getStatusMessage code) StdMap.empty "" false).

(** [HttpResponse::setStatusCode] *)
Definition setStatusCode (code : Z) (resp : HttpResponse) : HttpResponse :=
  mkResponse code (getStatusMessage code) (resp_headers resp)
    (resp_body resp) (headers_sent resp).

(** [HttpResponse::setBody] *)
Definition setBody (content : string) (resp : HttpResponse) : HttpResponse :=
  setHeader "Content-Length" (Str.of_N (N.of_nat (String.length content)))
    (mkResponse (status_code resp) (status_message resp) (resp_headers resp)
       content (headers_sent resp)).

(** [HttpResponse::setContentType] *)
Definition setContentType (mime_type : string) (resp : HttpResponse) : HttpResponse :=
  setHeader "Content-Type" mime_type resp.

(** [HttpResponse::build] *)
Definition build (resp : HttpResponse) : string :=
  "HTTP/1.1 " ++ Str.of_Z (status_code resp) ++ " " ++ status_message resp
  ++ Str.CRLF
  ++ fold_right (fun kv acc => fst kv ++ ": " ++ snd kv ++ Str.CRLF ++ acc)
       "" (resp_headers resp)
  ++ Str.CRLF
  ++ resp_body resp.

(** [HttpResponse::loadErrorPage] *)
Definition loadErrorPage (w : World) (error_code : string) : string :=
  let file_path := "www/errors/" ++ error_code ++ ".html" in
  match read_file w file_path with
  | Some contents => contents
  | None => "<html><body><h1>" ++ error_code ++ " Error</h1></body></html>"
  end.

(** [HttpResponse::ok] *)
Definition ok (content content_type : string) : HttpResponse :=
  setBody content (setContentType content_type (new 200)).

(** [HttpResponse::created] *)
Definition created (location : string) : HttpResponse :=
  let response := new 201 in
  let response :=
    if negb (Str.is_empty location) then setHeader "Location" location response
    else response in
  setContentType "text/html"
    (setBody "<html><body><h1>201 Created</h1></body></html>" response).

(** [HttpResponse::noContent] *)
Definition noContent : HttpResponse := new 204.

(** [HttpResponse::redirect] *)
Definition redirect (location : string) (code : Z) : HttpResponse :=
  let response := setHeader "Location" location (new code) in
  let body := "<html><body><h1>Redirect</h1><p>Redirecting to <a href="
              ++ Str.DQ ++ location ++ Str.DQ ++ ">" ++ location
              ++ "</a></p></body></html>" in
  setContentType "text/html" (setBody body response).

(** [HttpResponse::badRequest] *)
Definition badRequest (message : string) : HttpResponse :=
  let body := "<html><body><h1>400 Bad Request</h1><p>" ++ message
              ++ "</p></body></html>" in
  setContentType "text/html" (setBody body (new 400)).

(** [HttpResponse::notFound] *)
Definition notFound (w : World) (message : string) : HttpResponse :=
  let body := loadErrorPage w "404" in
  let body :=
    if String.eqb body "<html><body><h1>404 Error</h1></body></html>"
    then "<html><body><h1>404 Not Found</h1><p>" ++ message
         ++ "</p></body></html>"
    else body in
  setContentType "text/html" (setBody body (new 404)).

(** [HttpResponse::methodNotAllowed] *)
Definition methodNotAllowed (message : string) : HttpResponse :=
  let body := "<html><body><h1>405 Method Not Allowed</h1><p>" ++ message
              ++ "</p></body></html>" in
  setContentType "text/html" (setBody body (new 405)).

(** [HttpResponse::internalServerError] *)
Definition internalServerError (w : World) (message : string) : HttpResponse :=
  let body := loadErrorPage w "500" in
  let body :=
    if String.eqb body "<html><body><h1>500 Error</h1></body></html>"
    then "<html><body><h1>500 Internal Server Error</h1><p>" ++ message
         ++ "</p></body></html>"
    else body in
  setContentType "text/html" (setBody body (new 500)).

(** [HttpResponse::notImplemented] *)
Definition notImplemented (message : string) : HttpResponse :=
  let body := "<html><body><h1>501 Not Implemented</h1><p>" ++ message
              ++ "</p></body></html>" in
  setContentType "text/html" (setBody body (new 501)).

(** [HttpResponse::payloadTooLarge] *)
Definition payloadTooLarge (message : string) : HttpResponse :=
  let body := "<html><body><h1>413 Payload Too Large</h1><p>" ++ message
              ++ "</p></body></html>" in
  setContentType "text/html" (setBody body (new 413)).

(** The status line [build] writes for a status code. *)
Definition status_line (code : Z) : string :=
  "HTTP/1.1 " ++ Str.of_Z code ++ " " ++ getStatusMessage code ++ Str.CRLF.


(** A response as the factories make them: the status message is the one
    of the code, and the headers name the server, the type of the body and
    its length in bytes. *)
Definition well_formed (resp : HttpResponse) : Prop :=
  status_message resp = getStatusMessage (status_code resp) /\
  StdMap.find "Server" (resp_headers resp) = Some "WebServ/1.0" /\
  StdMap.find "Content-Length" (resp_headers resp)
  = Some (Str.of_N (N.of_nat (String.length (resp_body resp)))) /\
  StdMap.find "Content-Type" (resp_headers resp) <> None.


(** The shape of a message on the wire: [text] is the status line of
    [resp], header lines that each end with CRLF, among them the
    Content-Length line that gives the length of the body, an empty line,
    and the body. *)
Definition framed (text : string) (resp : HttpResponse) : Prop :=
  (exists before after,
      text
      = "HTTP/1.1 " ++ Str.of_Z (status_code resp) ++ " "
        ++ getStatusMessage (status_code resp) ++ Str.CRLF
        ++ before
        ++ ("Content-Length: "
            ++ Str.of_N (N.of_nat (String.length (resp_body resp))) ++ Str.CRLF)
        ++ after ++ Str.CRLF ++ resp_body resp /\
      (before = "" \/ exists t, before = t ++ Str.CRLF) /\
      (after = "" \/ exists t, after = t ++ Str.CRLF)) /\
  (exists head, text = head ++ Str.CRLFCRLF ++ resp_body resp).

End Response.

(* ===================================================================== *)
(** ** Config.hpp / Config.cpp *)
(* ===================================================================== *)

(** Modelled from the spec: Config.hpp, which declares [LocationConfig] and
    [ServerConfig], is not among the sources.  The fields are the ones
    Config.cpp and Server.cpp read and write, with the shape section 6 of
    the specification gives a location (path prefix, root, allowed
    methods, upload path, CGI extension map, autoindex, index file). *)
Record LocationConfig : Type := mkLocation {
  loc_path : string;
  loc_root : string;
  loc_index : string;
  loc_autoindex : bool;
  loc_methods : list string;
  loc_cgi_extensions : StdMap.t;
  loc_upload_path : string
}.

(** Modelled from the spec: see [LocationConfig]. *)
Record ServerConfig : Type := mkServer {
  port : Z;
  host : string;
  server_name : string;
  max_body_size : N;
  locations : list LocationConfig;
  error_pages : list (Z * string)
}.

Module Config.

(** The location and the server [Config::parse] builds. *)
Definition root_location : LocationConfig :=
  {| loc_path := "/"; loc_root := "./www"; loc_index := "index.html";
     loc_autoindex := false; loc_methods := ["GET"; "POST"; "DELETE"];
     loc_cgi_extensions := StdMap.empty; loc_upload_path := "" |}.

Definition default_config : ServerConfig :=
  {| port := 8080; host := "0.0.0.0"; server_name := "webserv";
     max_body_size := 1048576;
     locations := [root_location];
     error_pages := [(404%Z, "./www/404.html"); (500%Z, "./www/500.html")] |}.

(** [Config::parse]: the servers it leaves in [_servers]. *)
Definition parse : list ServerConfig := [default_config].

(** The loop of [Config::findLocation], with [best_match] and
    [best_match_len] as they stand before the locations in [locs]. *)
Fixpoint findLocation_from (uri : string) (locs : list LocationConfig)
    (best_match : option LocationConfig) (best_match_len : nat)
    : option LocationConfig :=
  match locs with
  | [] => best_match
  | loc :: locs' =>
      match Str.find uri (loc_path loc) 0 with
      | Some 0 =>
          if best_match_len <? String.length (loc_path loc)
          then findLocation_from uri locs' (Some loc)
                 (String.length (loc_path loc))
          else findLocation_from uri locs' best_match best_match_len
      | _ => findLocation_from uri locs' best_match best_match_len
      end
  end.

(** [Config::findLocation] *)
Definition findLocation (uri : string) (server : ServerConfig)
    : option LocationConfig :=
  findLocation_from uri (locations server) None 0.

(** [p] is a prefix of [s]. *)
Definition is_prefix (p s : string) : Prop := exists t, s = p ++ t.


(** [Config::_trim]: the two [while] loops move [start] up and [end] down
    over blanks; [trim_start] counts from the head of the text, [trim_end]
    steps [end] down from its argument. *)
Definition is_blank (c : ascii) : bool :=
  Ascii.eqb c " " || Ascii.eqb c Str.TAB || Ascii.eqb c Str.LF
  || Ascii.eqb c Str.CR.

Fixpoint trim_start (str : string) : nat :=
  match str with
  | "" => 0
  | String c str' => if is_blank c then S (trim_start str') else 0
  end.

Fixpoint trim_end (str : string) (start end_ : nat) : nat :=
  match end_ with
  | 0 => 0
  | S e =>
      if (start <? S e)
         && match String.get e str with
            | Some c => is_blank c
            | None => false
            end
      then trim_end str start e
      else S e
  end.

Definition _trim (str : string) : string :=
  let start := trim_start str in
  let end_ := trim_end str start (String.length str) in
  Str.substr str start (end_ - start).

(** [std::getline(stream, token, delimiter)] until it fails: the text cut
    at each delimiter. *)
Fixpoint getlines (delimiter : ascii) (s cur : string) : list string :=
  match s with
  | "" => if Str.is_empty cur then [] else [cur]
  | String c s' =>
      if Ascii.eqb c delimiter then cur :: getlines delimiter s' ""
      else getlines delimiter s' (cur ++ String c "")
  end.

(** [Config::_split] *)
Definition _split (str : string) (delimiter : ascii) : list string :=
  List.map _trim (getlines delimiter str "").

End Config.

(* ===================================================================== *)
(** ** StaticFileHandler.hpp / StaticFileHandler.cpp *)
(* ===================================================================== *)

Record StaticFileHandler : Type := mkStatic {
  root_directory : string;
  directory_listing_enabled : bool;
  default_file : string
}.

Module Static.

Definition is_separator (c : ascii) : bool :=
  Ascii.eqb c "/" || Ascii.eqb c Str.BACKSLASH.

(** [StaticFileHandler::getMimeType] *)
Definition getMimeType (path : string) : string :=
  match Str.find_last_of path "." with
  | None => "application/octet-stream"
  | Some dot_pos =>
      let ext := Str.map Str.tolower (Str.substr_from path dot_pos) in
      if String.eqb ext ".html" || String.eqb ext ".htm" then "text/html"
      else if String.eqb ext ".css" then "text/css"
      else if String.eqb ext ".js" then "application/javascript"
      else if String.eqb ext ".json" then "application/json"
      else if String.eqb ext ".xml" then "application/xml"
      else if String.eqb ext ".jpg" || String.eqb ext ".jpeg" then "image/jpeg"
      else if String.eqb ext ".png" then "image/png"
      else if String.eqb ext ".gif" then "image/gif"
      else if String.eqb ext ".svg" then "image/svg+xml"
      else if String.eqb ext ".ico" then "image/x-icon"
      else if String.eqb ext ".txt" then "text/plain"
      else if String.eqb ext ".pdf" then "application/pdf"
      else if String.eqb ext ".zip" then "application/zip"
      else if String.eqb ext ".mp3" then "audio/mpeg"
      else if String.eqb ext ".mp4" then "video/mp4"
      else if String.eqb ext ".woff" then "font/woff"
      else if String.eqb ext ".woff2" then "font/woff2"
      else if String.eqb ext ".ttf" then "font/ttf"
      else "application/octet-stream"
  end.

(** [StaticFileHandler::fileExists] *)
Definition fileExists (w : World) (path : string) : bool :=
  match stat w path with Some _ => true | None => false end.

(** [StaticFileHandler::isDirectory] *)
Definition isDirectory (w : World) (path : string) : bool :=
  match stat w path with Some Directory => true | _ => false end.

(** [StaticFileHandler::combinePaths] *)
Definition combinePaths (base relative : string) : string :=
  let result :=
    match Str.last_char base with
    | Some c => if is_separator c then base else base ++ "/"
    | None => base
    end in
  let rel :=
    match relative with
    | String c rel' => if is_separator c then rel' else relative
    | "" => relative
    end in
  let rel := Str.map (fun c => if is_separator c then "/"%char else c) rel in
  result ++ rel.

(** [StaticFileHandler::isPathSafe] *)
Definition isPathSafe (path : string) : bool :=
  match Str.find path ".." 0 with
  | Some _ => false
  | None => true
  end.

(** [StaticFileHandler::generateDirectoryListing] *)
Definition generateDirectoryListing (w : World) (dir_path uri : string) : string :=
  let head :=
    "<html><head><title>Index of " ++ uri ++ "</title>"
    ++ "<style>"
    ++ "body { font-family: Arial, sans-serif; margin: 20px; }"
    ++ "h1 { color: #333; }"
    ++ "table { border-collapse: collapse; width: 100%; max-width: 800px; }"
    ++ "th, td { text-align: left; padding: 8px; border-bottom: 1px solid #ddd; }"
    ++ "th { background-color: #4CAF50; color: white; }"
    ++ "a { color: #0066cc; text-decoration: none; }"
    ++ "a:hover { text-decoration: underline; }"
    ++ "</style></head><body>"
    ++ "<h1>Index of " ++ uri ++ "</h1>"
    ++ "<table><tr><th>Name</th><th>Type</th></tr>" in
  let parent :=
    if negb (String.eqb uri "/")
    then "<tr><td><a href=" ++ Str.DQ ++ ".." ++ Str.DQ
         ++ ">..</a></td><td>Directory</td></tr>"
    else "" in
  let row (name : string) : string :=
    if negb (String.eqb name ".") && negb (String.eqb name "..")
    then
      let full_path := combinePaths dir_path name in
      let is_dir := isDirectory w full_path in
      let link := if is_dir then name ++ "/" else name in
      "<tr><td><a href=" ++ Str.DQ ++ link ++ Str.DQ ++ ">" ++ name
      ++ (if is_dir then "/" else "") ++ "</a></td><td>"
      ++ (if is_dir then "Directory" else "File") ++ "</td></tr>"
    else "" in
  let rows :=
    match read_dir w dir_path with
    | Some entries => fold_right (fun name acc => row name ++ acc) "" entries
    | None => ""
    end in
  head ++ parent ++ rows ++ "</table></body></html>".

(** [StaticFileHandler::handleRequest] *)
Definition handleRequest (w : World) (h : StaticFileHandler)
    (request : HttpRequest) : HttpResponse :=
  let method := method request in
  let uri := uri request in
  if negb (isPathSafe uri) then Response.badRequest "Invalid path"
  else
    let file_path := combinePaths (root_directory h) uri in
    if HttpMethod_eqb method DELETE then
      if negb (fileExists w file_path)
      then Response.notFound w "The requested resource was not found"
      else if String.eqb uri "/" || Str.is_empty uri
      then Response.methodNotAllowed "Cannot delete index file"
      else
        let filename :=
          match Str.find_last_of file_path "/" with
          | Some last_slash => Str.substr_from file_path (last_slash + 1)
          | None => file_path
          end in
        if String.eqb filename (default_file h)
           || String.eqb filename "index.html"
           || String.eqb filename "index.htm"
        then Response.methodNotAllowed "Cannot delete index files"
        else if remove_ok w file_path
        then Response.ok
               "<html><body><h1>200 OK</h1><p>File deleted successfully</p></body></html>"
               "text/html"
        else Response.methodNotAllowed "Permission denied: Cannot delete file"
    else if negb (HttpMethod_eqb method GET) && negb (HttpMethod_eqb method HEAD)
    then Response.methodNotAllowed
           "Only GET and HEAD are allowed for static files"
    else if negb (fileExists w file_path)
    then Response.notFound w "The requested resource was not found"
    else if isDirectory w file_path then
      let index_path := combinePaths file_path (default_file h) in
      let listing_or_404 :=
        if directory_listing_enabled h
        then Response.ok (generateDirectoryListing w file_path uri) "text/html"
        else Response.notFound w "Directory listing is disabled" in
      if fileExists w index_path && negb (isDirectory w index_path)
      then match read_file w index_path with
           | Some content => Response.ok content (getMimeType index_path)
           | None => listing_or_404
           end
      else listing_or_404
    else
      match read_file w file_path with
      | None => Response.internalServerError w "Failed to read file"
      | Some content => Response.ok content (getMimeType file_path)
      end.

(** [s] contains the text [pat]. *)
Definition contains (pat s : string) : Prop := exists a b, s = a ++ pat ++ b.


(** What the loop of [combinePaths] writes for the character [c]. *)
Definition to_slash (c : ascii) : ascii :=
  if is_separator c then "/"%char else c.


(** [s] ends with '/' or with a backslash. *)
Definition ends_in_separator (s : string) : Prop :=
  Str.ends_with_char "/" s \/ Str.ends_with_char Str.BACKSLASH s.

End Static.

(* ===================================================================== *)
(** ** UploadHandler.hpp / UploadHandler.cpp *)
(* ===================================================================== *)

Record UploadedFile : Type := mkFile {
  filename : string;
  file_content_type : string;
  content : string;
  size : nat
}.

Record UploadHandler : Type := mkUpload {
  upload_directory : string;
  max_upload_size : N
}.

Module Upload.

Definition separators : string := String "/" (String Str.BACKSLASH "").

Definition placeholder : string := "uploaded_file".

(** The character kept by the loop of [sanitizeFilename]. *)
Definition safe_char (c : ascii) : bool :=
  Str.isalnum c || Ascii.eqb c "." || Ascii.eqb c "_" || Ascii.eqb c "-".

(** [UploadHandler::sanitizeFilename] *)
Definition sanitizeFilename (filename : string) : string :=
  let safe_name :=
    match Str.find_last_of filename separators with
    | Some last_slash => Str.substr_from filename (last_slash + 1)
    | None => filename
    end in
  let result :=
    Str.map (fun c => if safe_char c then c else "_"%char) safe_name in
  if Str.is_empty result || String.eqb result "." || String.eqb result ".."
  then placeholder
  else result.

(** The specification's wording of the same, step by step: what follows
    the last path separator ... *)
Fixpoint after_last_separator (s acc : string) : string :=
  match s with
  | "" => acc
  | String c s' =>
      if Str.mem c separators
      then after_last_separator s' ""
      else after_last_separator s' (acc ++ String c "")
  end.

(** ... with every character outside [A-Za-z0-9._-] replaced by '_' ... *)
Definition in_charset (c : ascii) : bool :=
  Str.in_range "A" "Z" c || Str.in_range "a" "z" c || Str.in_range "0" "9" c
  || Str.mem c "._-".

Fixpoint replace_unsafe (s : string) : string :=
  match s with
  | "" => ""
  | String c s' =>
      String (if in_charset c then c else "_"%char) (replace_unsafe s')
  end.

(** ... and the placeholder in place of an empty name, "." and "..". *)
Definition sanitize_spec (filename : string) : string :=
  let name := replace_unsafe (after_last_separator filename "") in
  if string_dec name "" then placeholder
  else if string_dec name "." then placeholder
  else if string_dec name ".." then placeholder
  else name.

(** [UploadHandler::saveFile] *)
Definition saveFile (w : World) (h : UploadHandler) (filename content : string)
    : bool :=
  let full_path :=
    match Str.last_char (upload_directory h) with
    | Some c =>
        if Ascii.eqb c "/" then upload_directory h
        else upload_directory h ++ "/"
    | None => upload_directory h
    end ++ filename in
  write_ok w full_path.

(** The headers of one part, as the two blocks "Parse Content-Disposition
    header" and "Parse Content-Type header" read them. *)
Definition readPartHeaders (headers_section : string) (file : UploadedFile)
    : UploadedFile :=
  let file :=
    match Str.find headers_section "Content-Disposition:" 0 with
    | Some cd_pos =>
        let cd_line :=
          match Str.find headers_section Str.CRLF cd_pos with
          | Some line_end => Str.substr headers_section cd_pos (line_end - cd_pos)
          | None => Str.substr_from headers_section cd_pos
          end in
        match Str.find cd_line ("filename=" ++ Str.DQ) 0 with
        | Some filename_pos =>
            let filename_pos := filename_pos + 10 in
            match Str.find cd_line Str.DQ filename_pos with
            | Some filename_end =>
                mkFile (Str.substr cd_line filename_pos
                          (filename_end - filename_pos))
                  (file_content_type file) (content file) (size file)
            | None => file
            end
        | None => file
        end
    | None => file
    end in
  match Str.find headers_section "Content-Type:" 0 with
  | Some ct_pos =>
      let ct_line :=
        match Str.find headers_section Str.CRLF ct_pos with
        | Some line_end =>
            Str.substr headers_section (ct_pos + 13) (line_end - ct_pos - 13)
        | None => Str.substr_from headers_section (ct_pos + 13)
        end in
      match Str.find_first_not_of ct_line (String " " (String Str.TAB "")),
            Str.find_last_not_of ct_line Request.ws with
      | Some first, Some last =>
          mkFile (filename file) (Str.substr ct_line first (last - first + 1))
            (content file) (size file)
      | _, _ => file
      end
  | None => file
  end.

(** The [while] loop of [UploadHandler::parseMultipartFormData]; every
    pass that does not leave the loop moves [pos] forward, so the length
    of the body bounds the number of passes. *)
Fixpoint parseParts (fuel : nat) (body delimiter : string) (pos : nat)
    (files : list UploadedFile) : list UploadedFile :=
  match fuel with
  | 0 => files
  | S fuel' =>
      if negb (pos <? String.length body) then files
      else
        match Str.find body delimiter pos with
        | None => files
        | Some boundary_pos =>
            let pos := boundary_pos + String.length delimiter in
            if (pos + 2 <=? String.length body)
               && String.eqb (Str.substr body pos 2) "--"
            then files
            else
              let pos :=
                if (pos + 2 <=? String.length body)
                   && String.eqb (Str.substr body pos 2) Str.CRLF
                then pos + 2 else pos in
              match Str.find body Str.CRLFCRLF pos with
              | None => files
              | Some headers_end =>
                  let headers_section :=
                    Str.substr body pos (headers_end - pos) in
                  let pos := headers_end + 4 in
                  match Str.find body delimiter pos with
                  | None => files
                  | Some next_boundary =>
                      let content_end := next_boundary - 2 in
                      if content_end <=? pos then files
                      else
                        let content :=
                          Str.substr body pos (content_end - pos) in
                        let file :=
                          readPartHeaders headers_section
                            (mkFile "" "application/octet-stream" content
                               (String.length content)) in
                        let files :=
                          if negb (Str.is_empty (filename file))
                          then List.app files [file] else files in
                        parseParts fuel' body delimiter next_boundary files
                  end
              end
        end
  end.

(** [UploadHandler::parseMultipartFormData]: the files collected (the
    function returns whether there is any). *)
Definition parseMultipartFormData (body boundary : string) : list UploadedFile :=
  parseParts (S (String.length body)) body ("--" ++ boundary) 0 [].

(** [UploadHandler::handleUpload] *)
Definition handleUpload (w : World) (h : UploadHandler) (request : HttpRequest)
    : HttpResponse :=
  if negb (HttpMethod_eqb (method request) POST)
  then Response.methodNotAllowed "Only POST is allowed for uploads"
  else if (max_upload_size h <? content_length request)%N
  then Response.payloadTooLarge
         ("Upload size exceeds maximum allowed size of "
          ++ Str.of_N (max_upload_size h) ++ " bytes")
  else
    let boundary := boundary request in
    if Str.is_empty boundary
    then Response.badRequest "Missing boundary in multipart/form-data"
    else
      let files := parseMultipartFormData (body request) boundary in
      match files with
      | [] => Response.badRequest "Failed to parse multipart/form-data"
      | _ =>
          let saved_files :=
            fold_left
              (fun saved file =>
                 let safe_filename := sanitizeFilename (filename file) in
                 if saveFile w h safe_filename (content file)
                 then List.app saved [safe_filename] else saved)
              files [] in
          match saved_files with
          | [] => Response.internalServerError w "Failed to save uploaded files"
          | _ =>
              Response.ok
                ("<html><body><h1>Upload Successful</h1>"
                 ++ "<p>Uploaded "
                 ++ Str.of_N (N.of_nat (List.length saved_files))
                 ++ " file(s):</p><ul>"
                 ++ fold_right (fun name acc => "<li>" ++ name ++ "</li>" ++ acc)
                      "" saved_files
                 ++ "</ul></body></html>")
                "text/html"
          end
      end.


(** Every character of [s] is one the loop of [sanitizeFilename] keeps. *)
Fixpoint all_safe (s : string) : bool :=
  match s with
  | "" => true
  | String c s' => safe_char c && all_safe s'
  end.


(** What the loop of [sanitizeFilename] writes for the character [c]. *)
Definition keep (c : ascii) : ascii := if safe_char c then c else "_"%char.

End Upload.

(* ===================================================================== *)
(** ** Server.hpp / Server.cpp: request handling *)
(* ===================================================================== *)

(** One client connection as the server tracks it: the [Client]'s request
    in progress, its entry in [_output_buffers], and whether POLLOUT is
    among the events polled for its descriptor. *)
Record Connection : Type := mkConnection {
  conn_request : HttpRequest;
  output_buffer : string;
  pollout : bool
}.

Module Server.

(** [atoi], as [(int) strtol(s, NULL, 10)]: leading white space, an
    optional sign, decimal digits; [strtol] saturates at the bounds of
    [long] and the conversion to [int] keeps the low 32 bits. *)
Definition LONG_MAX : Z := 9223372036854775807%Z.

Definition to_int (z : Z) : Z :=
  ((z + 2147483648) mod 4294967296 - 2147483648)%Z.

Definition atoi (s : string) : Z :=
  match Request.skip_ws s with
  | "" => 0%Z
  | String c s' =>
      let negative := Ascii.eqb c "-" in
      let digits := if negative || Ascii.eqb c "+" then s' else String c s' in
      let v := Z.of_N (fst (Request.read_digits digits 0%N false)) in
      let long :=
        if negative
        then (if (LONG_MAX + 1 <? v)%Z then - (LONG_MAX + 1) else - v)%Z
        else (if (LONG_MAX <? v)%Z then LONG_MAX else v) in
      to_int long
  end.

(** [std::getline(hss, hline)] until it fails: the text cut at each LF. *)
Fixpoint getlines (s cur : string) : list string :=
  match s with
  | "" => if Str.is_empty cur then [] else [cur]
  | String c s' =>
      if Ascii.eqb c Str.LF then cur :: getlines s' ""
      else getlines s' (cur ++ String c "")
  end.

(** One pass of the loop "Parse CGI headers" over [content_type] and
    [response_code]. *)
Definition cgiHeaderLine (hline : string) (acc : string * Z) : string * Z :=
  let '(content_type, response_code) := acc in
  let hline :=
    match Str.last_char hline with
    | Some c =>
        if Ascii.eqb c Str.CR
        then Str.substr hline 0 (String.length hline - 1) else hline
    | None => hline
    end in
  if Str.is_empty hline then acc
  else
    match Str.find_char hline ":" with
    | None => acc
    | Some colon =>
        let hname := Str.substr hline 0 colon in
        let hval := Str.substr_from hline (colon + 1) in
        let hval :=
          match Str.find_first_not_of hval (String " " (String Str.TAB "")) with
          | Some vs => Str.substr_from hval vs
          | None => hval
          end in
        let hn_lower := Str.map Str.tolower hname in
        if String.eqb hn_lower "content-type" then (hval, response_code)
        else if String.eqb hn_lower "status" then (content_type, atoi hval)
        else acc
    end.

(** The part of [Server::_executeCgi] from "Parse CGI output" down to the
    construction of the response: the values of [response_body],
    [content_type] and [response_code] at that point. *)
Definition parseCgiOutput (cgi_output : string) : string * string * Z :=
  let sep :=
    match Str.find cgi_output Str.CRLFCRLF 0 with
    | Some sep => Some (sep, 4)
    | None =>
        match Str.find cgi_output Str.LFLF 0 with
        | Some sep => Some (sep, 2)
        | None => None
        end
    end in
  match sep with
  | Some (sep, sep_len) =>
      let headers_raw := Str.substr cgi_output 0 sep in
      let response_body := Str.substr_from cgi_output (sep + sep_len) in
      let '(content_type, response_code) :=
        fold_left (fun acc hline => cgiHeaderLine hline acc)
          (getlines headers_raw "") ("text/html", 200%Z) in
      (response_body, content_type, response_code)
  | None => (cgi_output, "text/html", 200%Z)
  end.

(** [Server::_executeCgi] *)
Definition executeCgi (w : World) (script_path interpreter : string)
    (request : HttpRequest) (location : LocationConfig) : HttpResponse :=
  match stat w script_path with
  | Some RegularFile =>
      let body := body request in
      let uri := uri request in
      let query_string :=
        match Str.find_char uri "?" with
        | Some qpos => Str.substr_from uri (qpos + 1)
        | None => ""
        end in
      let env_request :=
        ["REQUEST_METHOD=" ++ Request.getMethodString request;
         "SCRIPT_FILENAME=" ++ script_path;
         "SCRIPT_NAME=" ++ uri;
         "PATH_INFO=" ++ uri;
         "QUERY_STRING=" ++ query_string] in
      let env_content :=
        if HttpMethod_eqb (method request) POST
        then
          let ct := Request.getHeader request "Content-Type" in
          let ct := if Str.is_empty ct
                    then "application/x-www-form-urlencoded" else ct in
          ["CONTENT_LENGTH=" ++ Str.of_N (N.of_nat (String.length body));
           "CONTENT_TYPE=" ++ ct]
        else [] in
      let env_server :=
        ["SERVER_PROTOCOL=HTTP/1.1"; "SERVER_NAME=localhost";
         "SERVER_PORT=8080"; "GATEWAY_INTERFACE=CGI/1.1";
         "REDIRECT_STATUS=200"] in
      let env_strings := List.app env_request (List.app env_content env_server) in
      if negb (pipe_ok w) then Response.internalServerError w "CGI pipe failed"
      else if negb (fork_ok w) then Response.internalServerError w "CGI fork failed"
      else
        let cgi_output := cgi_output w interpreter script_path env_strings body in
        if Str.is_empty cgi_output
        then Response.internalServerError w "CGI produced no output"
        else
          let '(response_body, content_type, response_code) :=
            parseCgiOutput cgi_output in
          let resp := Response.ok response_body content_type in
          (* [if (response_code != 200) { ... (void)code_ss; }] changes
             nothing *)
          resp
  | _ => Response.notFound w ("CGI script not found: " ++ script_path)
  end.

(** [Server::_buildResponse]; [server_config] is
    [_config->getServerConfig(0)]. *)
Definition buildResponse (w : World) (server_config : ServerConfig)
    (request : HttpRequest) : HttpResponse :=
  match Config.findLocation (uri request) server_config with
  | None => Response.notFound w "Location not configured"
  | Some location =>
      let method_str := Request.getMethodString request in
      let method_allowed :=
        existsb (fun m => String.eqb m method_str) (loc_methods location) in
      if negb method_allowed
      then Response.methodNotAllowed "Method not allowed for this location"
      else
        let method := method request in
        let dispatch :=
          if HttpMethod_eqb method GET || HttpMethod_eqb method DELETE
          then Static.handleRequest w
                 (mkStatic (loc_root location) (loc_autoindex location)
                    (loc_index location)) request
          else if HttpMethod_eqb method HEAD
          then Static.handleRequest w
                 (mkStatic (loc_root location) (loc_autoindex location)
                    (loc_index location)) request
          else if HttpMethod_eqb method POST
          then
            let upload_path :=
              if Str.is_empty (loc_upload_path location) then "./uploads"
              else loc_upload_path location in
            Upload.handleUpload w
              (mkUpload upload_path (max_body_size server_config)) request
          else if HttpMethod_eqb method PUT
          then Response.ok
                 "<html><body><h1>201 Created</h1><p>Resource created/updated via PUT</p></body></html>"
                 "text/html"
          else Response.badRequest "Method not implemented" in
        if negb (StdMap.is_empty (loc_cgi_extensions location)) then
          let uri := uri request in
          let path_part :=
            match Str.find_char uri "?" with
            | Some qpos => Str.substr uri 0 qpos
            | None => uri
            end in
          match Str.find_last_of path_part "." with
          | Some dot_pos =>
              let ext := Str.substr_from path_part dot_pos in
              match StdMap.find ext (loc_cgi_extensions location) with
              | Some interpreter =>
                  let script_path := loc_root location ++ "/" ++ path_part in
                  executeCgi w script_path interpreter request location
              | None => dispatch
              end
          | None => dispatch
          end
        else dispatch
  end.

(** [Server::_sendToClient] *)
Definition sendToClient (data : string) (c : Connection) : Connection :=
  mkConnection (conn_request c) (output_buffer c ++ data) true.

(** [Client::resetRequest] *)
Definition resetRequest (c : Connection) : Connection :=
  mkConnection Request.new (output_buffer c) (pollout c).

(** The response [Server::_handleClientData] synthesizes for a parse
    error. *)
Definition parseErrorResponse (err : Z) : HttpResponse :=
  if (err =? 405)%Z then Response.methodNotAllowed "Method not allowed"
  else if (err =? 505)%Z then Response.notImplemented "HTTP Version Not Supported"
  else Response.badRequest "Bad Request".

(** [Server::_handleClientData] once [recv] has delivered [buffer]
    (at least one byte; with none the client is removed). *)
Definition handleClientData (w : World) (server_config : ServerConfig)
    (buffer : string) (c : Connection) : Connection :=
  let (complete, request) := Request.parse buffer (conn_request c) in
  let c := mkConnection request (output_buffer c) (pollout c) in
  if complete then
    let response := buildResponse w server_config request in
    resetRequest (sendToClient (Response.build response) c)
  else if ParseState_eqb (state request) ERROR then
    let err := error_code request in
    let resp := parseErrorResponse err in
    resetRequest (sendToClient (Response.build resp) c)
  else c.


(** [Server::_flushClientBuffer] once [send] has returned [sent]; [None]
    when the client is removed. *)
Definition flushClientBuffer (sent : Z) (c : Connection) : option Connection :=
  let buffer := output_buffer c in
  if Str.is_empty buffer then Some c
  else if (0 <? sent)%Z then
    let buffer := Str.drop (Z.to_nat sent) buffer in
    Some (mkConnection (conn_request c) buffer
            (if Str.is_empty buffer then false else pollout c))
  else None.

(** What [poll] reports for the descriptor of a client, with what the
    system call made in answer returns: [recv] delivers [received] (no
    byte when it fails or the peer has closed), [send] returns [sent]. *)
Inductive Event : Type :=
| Readable (received : string)
| Writable (sent : Z).

(** The client as [Server::_acceptNewClient] registers it. *)
Definition accepted : Connection := mkConnection Request.new "" false.

(** The branch the loop of [Server::run] takes for one event of a client;
    [None] when the client is removed.  [poll] reports POLLOUT only for a
    descriptor whose events ask for it. *)
Definition on_event (w : World) (server_config : ServerConfig) (e : Event)
    (c : Connection) : option Connection :=
  match e with
  | Readable received =>
      if Str.is_empty received then None
      else Some (handleClientData w server_config received c)
  | Writable sent =>
      if pollout c && negb (Str.is_empty (output_buffer c))
      then flushClientBuffer sent c
      else Some c
  end.

(** The events of one client, in the order the loop handles them. *)
Fixpoint serve (w : World) (server_config : ServerConfig)
    (events : list Event) (c : Connection) : option Connection :=
  match events with
  | [] => Some c
  | e :: events' =>
      match on_event w server_config e c with
      | Some c' => serve w server_config events' c'
      | None => None
      end
  end.

End Server.

(* ===================================================================== *)
(** * Properties *)
(* ===================================================================== *)

(** ** Facts about the string operations *)

Module StrFacts.
Import Str.

Lemma append_nil_r (s : string) : s ++ "" = s.
Proof. induction s as [|c s IH]; simpl; [reflexivity | now rewrite IH]. Qed.

Lemma append_assoc (a b c : string) : (a ++ b) ++ c = a ++ b ++ c.
Proof. induction a as [|x a IH]; simpl; [reflexivity | now rewrite IH]. Qed.

Lemma length_append (a b : string) :
  String.length (a ++ b) = String.length a + String.length b.
Proof. induction a as [|x a IH]; simpl; [reflexivity | now rewrite IH]. Qed.

Lemma is_empty_true (s : string) : is_empty s = true <-> s = "".
Proof. destruct s; simpl; split; congruence. Qed.

Lemma is_empty_false (s : string) : is_empty s = false <-> s <> "".
Proof. destruct s; simpl; split; congruence. Qed.

Lemma drop_nil (n : nat) : drop n "" = "".
Proof. destruct n; reflexivity. Qed.

Lemma length_drop (n : nat) (s : string) :
  String.length (drop n s) = String.length s - n.
Proof.
  revert s; induction n as [|n IH]; intros s; simpl.
  - lia.
  - destruct s as [|c s]; simpl; [reflexivity | apply IH].
Qed.

Lemma length_take (n : nat) (s : string) :
  String.length (take n s) = Nat.min n (String.length s).
Proof.
  revert s; induction n as [|n IH]; intros s; simpl; [reflexivity|].
  destruct s as [|c s]; simpl; [reflexivity | now rewrite IH].
Qed.

Lemma drop_append (n : nat) (s e : string) :
  n <= String.length s -> drop n (s ++ e) = drop n s ++ e.
Proof.
  revert s; induction n as [|n IH]; intros s Hn; simpl; [reflexivity|].
  destruct s as [|c s]; simpl in *; [lia | apply IH; lia].
Qed.

Lemma drop_length_append (s e : string) : drop (String.length s) (s ++ e) = e.
Proof. induction s as [|c s IH]; simpl; [now destruct e | exact IH]. Qed.

Lemma take_length_append (s e : string) : take (String.length s) (s ++ e) = s.
Proof. induction s as [|c s IH]; simpl; [reflexivity | now rewrite IH]. Qed.

Lemma take_append (n : nat) (s e : string) :
  n <= String.length s -> take n (s ++ e) = take n s.
Proof.
  revert s; induction n as [|n IH]; intros s Hn; simpl; [reflexivity|].
  destruct s as [|c s]; simpl in *; [lia | now rewrite IH by lia].
Qed.

Lemma take_drop (n : nat) (s : string) : take n s ++ drop n s = s.
Proof.
  revert s; induction n as [|n IH]; intros s; simpl; [reflexivity|].
  destruct s as [|c s]; simpl; [reflexivity | now rewrite IH].
Qed.

Lemma drop_drop (n m : nat) (s : string) : drop n (drop m s) = drop (m + n) s.
Proof.
  revert s; induction m as [|m IH]; intros s; simpl; [reflexivity|].
  destruct s as [|c s]; [now rewrite drop_nil | apply IH].
Qed.

Lemma starts_with_append (pat s e : string) :
  starts_with pat s = true -> starts_with pat (s ++ e) = true.
Proof.
  revert s; induction pat as [|a pat IH]; intros s H; [reflexivity|].
  destruct s as [|b s]; simpl in *; [discriminate|].
  apply andb_true_iff in H as [Hab H].
  now rewrite Hab, (IH _ H).
Qed.

Lemma starts_with_length (pat s : string) :
  starts_with pat s = true -> String.length pat <= String.length s.
Proof.
  revert s; induction pat as [|a pat IH]; intros s H; simpl; [lia|].
  destruct s as [|b s]; simpl in *; [discriminate|].
  apply andb_true_iff in H as [_ H]. apply IH in H. lia.
Qed.

Lemma starts_with_iff (pat s : string) :
  starts_with pat s = true <-> exists t, s = pat ++ t.
Proof.
  revert s; induction pat as [|a pat IH]; intros s; simpl.
  - split; [intros _; now exists s | reflexivity].
  - destruct s as [|b s].
    + split; [discriminate | intros [t Ht]; discriminate].
    + rewrite andb_true_iff, Ascii.eqb_eq, IH. split.
      * intros [-> [t ->]]. now exists t.
      * intros [t Ht]. injection Ht as -> ->. split; [reflexivity | now exists t].
Qed.

Lemma find0_bound (pat s : string) (k : nat) :
  find0 pat s = Some k -> k + String.length pat <= String.length s.
Proof.
  revert k; induction s as [|c s IH]; intros k; simpl.
  - destruct (starts_with pat "") eqn:E; [|discriminate].
    intros [= <-]. apply starts_with_length in E. simpl in *. lia.
  - destruct (starts_with pat (String c s)) eqn:E.
    + intros [= <-]. apply starts_with_length in E. simpl in *. lia.
    + destruct (find0 pat s) as [j|]; simpl; [|discriminate].
      intros [= <-]. specialize (IH j eq_refl). simpl. lia.
Qed.

Lemma starts_with_append_short (pat u e : string) :
  String.length pat <= String.length u ->
  starts_with pat (u ++ e) = starts_with pat u.
Proof.
  revert u; induction pat as [|a pat IH]; intros u Hlen; [reflexivity|].
  destruct u as [|b u]; simpl in *; [lia|].
  now rewrite IH by lia.
Qed.

(** An occurrence found in [s] is still the first one after more text
    has been appended. *)
Lemma find0_append (pat s e : string) (k : nat) :
  find0 pat s = Some k -> find0 pat (s ++ e) = Some k.
Proof.
  revert k; induction s as [|c s IH]; intros k.
  - simpl. destruct (starts_with pat "") eqn:E; [|discriminate].
    intros [= <-]. destruct pat; [|discriminate].
    now destruct e.
  - intros H. pose proof (find0_bound _ _ _ H) as Hb.
    cbn [find0 append] in *.
    change (String c (s ++ e)) with (String c s ++ e).
    rewrite starts_with_append_short by (simpl in *; lia).
    destruct (starts_with pat (String c s)); [exact H|].
    destruct (find0 pat s) as [j|]; simpl in *; [|discriminate].
    now rewrite (IH _ eq_refl).
Qed.

Lemma find_bound (s pat : string) (pos k : nat) :
  find s pat pos = Some k ->
  pos <= k /\ k + String.length pat <= String.length s.
Proof.
  unfold find. destruct (Nat.leb_spec pos (String.length s)); [|discriminate].
  destruct (find0 pat (drop pos s)) as [j|] eqn:E; simpl; [|discriminate].
  intros [= <-]. apply find0_bound in E. rewrite length_drop in E. lia.
Qed.

Lemma find_append (s pat e : string) (pos k : nat) :
  find s pat pos = Some k -> find (s ++ e) pat pos = Some k.
Proof.
  unfold find. destruct (Nat.leb_spec pos (String.length s)); [|discriminate].
  destruct (find0 pat (drop pos s)) as [j|] eqn:E; simpl; [|discriminate].
  intros [= <-]. rewrite length_append.
  destruct (Nat.leb_spec pos (String.length s + String.length e)); [|lia].
  rewrite drop_append by assumption.
  now rewrite (find0_append _ _ e _ E).
Qed.

Lemma substr_append (s e : string) (pos len : nat) :
  pos + len <= String.length s ->
  substr (s ++ e) pos len = substr s pos len.
Proof.
  intros H. unfold substr. rewrite drop_append by lia.
  apply take_append. rewrite length_drop. lia.
Qed.

End StrFacts.

(** ** Facts about the request parser *)

Module ParserFacts.
Import Str StrFacts Request.

Ltac rsimpl :=
  cbn [method uri query_string http_version headers body state raw_data
       bytes_parsed content_length boundary error_code
       set_state set_error_code set_method set_uri set_query_string
       set_http_version set_headers set_body set_raw_data set_bytes_parsed
       set_content_length set_boundary fail extend fst snd] in *.

Lemma extend_nil (r : HttpRequest) : extend "" r = r.
Proof.
  destruct r; unfold extend, set_raw_data; simpl. now rewrite append_nil_r.
Qed.

Lemma extend_extend (a b : string) (r : HttpRequest) :
  extend b (extend a r) = extend (a ++ b) r.
Proof.
  unfold extend, set_raw_data; simpl. now rewrite append_assoc.
Qed.

Lemma terminal_extend e r : terminal (extend e r) = terminal r.
Proof. reflexivity. Qed.

Lemma parseQueryString_extend e r :
  parseQueryString (extend e r) = extend e (parseQueryString r).
Proof.
  unfold parseQueryString; rsimpl.
  destruct (find_char (uri r) "?"); reflexivity.
Qed.

Lemma parseRequestLine_extend line e r :
  parseRequestLine line (extend e r) = extend e (parseRequestLine line r).
Proof.
  unfold parseRequestLine; rsimpl.
  destruct (extract (open_stream line) "") as [iss1 m].
  destruct (extract iss1 (uri r)) as [iss2 u].
  destruct (extract iss2 (http_version r)) as [iss3 v]; rsimpl.
  destruct (HttpMethod_eqb (stringToMethod m) UNKNOWN); [reflexivity|].
  destruct (is_empty u || is_empty v); [reflexivity|].
  destruct (negb (v =? "HTTP/1.1")%string && negb (v =? "HTTP/1.0")%string);
    [reflexivity|].
  unfold parseQueryString; rsimpl.
  destruct (find_char u "?"); reflexivity.
Qed.

Lemma parseHeader_extend line e r :
  parseHeader line (extend e r) = extend e (parseHeader line r).
Proof.
  unfold parseHeader; rsimpl.
  destruct (find_char line ":"); reflexivity.
Qed.

Lemma getHeader_extend e r k : getHeader (extend e r) k = getHeader r k.
Proof. reflexivity. Qed.

Lemma isChunked_extend e r : isChunked (extend e r) = isChunked r.
Proof. reflexivity. Qed.

Lemma readContentLength_extend e r :
  readContentLength (extend e r) = extend e (readContentLength r).
Proof.
  unfold readContentLength. rewrite getHeader_extend.
  destruct (negb (is_empty (getHeader r "Content-Length"))); reflexivity.
Qed.

Lemma readBoundary_extend e r :
  readBoundary (extend e r) = extend e (readBoundary r).
Proof.
  unfold readBoundary. rewrite getHeader_extend.
  destruct (find (getHeader r "Content-Type") "multipart/form-data" 0);
    [|reflexivity].
  destruct (find (getHeader r "Content-Type") "boundary=" 0); reflexivity.
Qed.

Lemma endOfHeaders_extend e r :
  endOfHeaders (extend e r) = extend e (endOfHeaders r).
Proof.
  unfold endOfHeaders.
  rewrite readContentLength_extend, readBoundary_extend.
  generalize (readBoundary (readContentLength r)) as r1. intros r1.
  rewrite isChunked_extend.
  replace (content_length (extend e r1)) with (content_length r1)
    by reflexivity.
  destruct ((0 <? content_length r1)%N || isChunked r1); reflexivity.
Qed.

(** *** What the line handlers leave alone *)

Ltac frame_tac := rsimpl; repeat split; auto 6.

Lemma parseRequestLine_frame line r : frame r (parseRequestLine line r).
Proof.
  unfold frame, parseRequestLine; rsimpl.
  destruct (extract (open_stream line) "") as [iss1 m].
  destruct (extract iss1 (uri r)) as [iss2 u].
  destruct (extract iss2 (http_version r)) as [iss3 v]; rsimpl.
  destruct (HttpMethod_eqb (stringToMethod m) UNKNOWN); [frame_tac|].
  destruct (is_empty u || is_empty v); [frame_tac|].
  destruct (negb (v =? "HTTP/1.1")%string && negb (v =? "HTTP/1.0")%string);
    [frame_tac|].
  unfold parseQueryString; rsimpl.
  destruct (find_char u "?"); frame_tac.
Qed.

Lemma parseHeader_frame line r : frame r (parseHeader line r).
Proof.
  unfold frame, parseHeader.
  destruct (find_char line ":"); frame_tac.
Qed.

Lemma endOfHeaders_frame r : frame r (endOfHeaders r).
Proof.
  unfold frame, endOfHeaders.
  assert (H1 : raw_data (readContentLength r) = raw_data r /\
               bytes_parsed (readContentLength r) = bytes_parsed r /\
               error_code (readContentLength r) = error_code r).
  { unfold readContentLength.
    destruct (negb (is_empty (getHeader r "Content-Length"))); frame_tac. }
  generalize dependent (readContentLength r). intros r1 (Ha & Hb & Hc).
  assert (H2 : raw_data (readBoundary r1) = raw_data r /\
               bytes_parsed (readBoundary r1) = bytes_parsed r /\
               error_code (readBoundary r1) = error_code r).
  { unfold readBoundary.
    destruct (find (getHeader r1 "Content-Type") "multipart/form-data" 0);
      [destruct (find (getHeader r1 "Content-Type") "boundary=" 0)|];
      frame_tac. }
  generalize dependent (readBoundary r1). intros r2 (Ha2 & Hb2 & Hc2).
  destruct ((0 <? content_length r2)%N || isChunked r2); frame_tac.
Qed.

Lemma step_view (r : HttpRequest) : terminal r = false -> StepView r (step r).
Proof.
  unfold terminal, step. intros Ht.
  destruct (state r) eqn:Hs; try discriminate.
  - destruct (find (raw_data r) CRLF (bytes_parsed r)) as [k|] eqn:Hf.
    + rsimpl. rewrite Hs. now apply sv_request_line.
    + destruct (8192 <? N.of_nat (String.length (raw_data r)))%N eqn:Hl;
        [apply sv_too_large | apply sv_wait_line]; unfold in_head; auto.
  - destruct (find (raw_data r) CRLF (bytes_parsed r)) as [k|] eqn:Hf.
    + rsimpl. rewrite Hs. fold (line_of r k).
      destruct (is_empty (line_of r k)) eqn:He;
        [now apply sv_headers_end | now apply sv_header].
    + destruct (8192 <? N.of_nat (String.length (raw_data r)))%N eqn:Hl;
        [apply sv_too_large | apply sv_wait_line]; unfold in_head; auto.
  - destruct (isChunked r) eqn:Hc; [now apply sv_chunked|].
    destruct (content_length r
                <=? N.of_nat (String.length (raw_data r) - bytes_parsed r))%N
      eqn:Hl; [exact (sv_body r Hs Hc Hl) | now apply sv_wait_body].
Qed.

(** A pass that falls through keeps the buffer, moves the cursor forward
    within it, and either finishes the request or consumed a line. *)
Lemma frame_not_431 (r r' : HttpRequest) :
  frame r r' -> error_code r <> 431%Z -> error_code r' <> 431%Z.
Proof. intros (_ & _ & [-> | [_ [-> | [-> | ->]]]]) H; [assumption|..]; lia. Qed.

Lemma parseRequestLine_state line r :
  state (parseRequestLine line r) <> REQUEST_LINE.
Proof.
  unfold parseRequestLine.
  destruct (extract (open_stream line) "") as [iss1 m].
  destruct (extract iss1 _) as [iss2 u].
  destruct (extract iss2 _) as [iss3 v].
  repeat match goal with
         | |- context [if ?c then _ else _] => destruct c
         end; rsimpl; discriminate.
Qed.

Lemma parseHeader_state line r :
  state r = HEADERS -> state (parseHeader line r) <> REQUEST_LINE.
Proof.
  unfold parseHeader. destruct (find_char _ _); rsimpl; congruence.
Qed.

Lemma endOfHeaders_state r : state (endOfHeaders r) <> REQUEST_LINE.
Proof. unfold endOfHeaders. destruct (_ || _); rsimpl; discriminate. Qed.

Lemma step_continue (r r' : HttpRequest) :
  terminal r = false -> inv r -> step r = Continue r' ->
  raw_data r' = raw_data r /\ inv r' /\
  (terminal r' = true \/
   String.length (raw_data r') - bytes_parsed r'
     < String.length (raw_data r) - bytes_parsed r) /\
  (error_code r <> 431%Z -> error_code r' <> 431%Z) /\
  state r' <> REQUEST_LINE /\
  (state r = BODY -> state r' = COMPLETE).
Proof.
  intros Ht Hinv Hstep. pose proof (step_view r Ht) as V.
  rewrite Hstep in V. unfold inv in *.
  inversion V as [ | | k Hs Hf | k Hs Hf He | k Hs Hf He | | Hs Hc Hl | ];
    subst; clear V.
  - pose proof (parseRequestLine_frame (line_of r k)
                  (set_bytes_parsed (k + 2) r)) as F.
    pose proof (frame_not_431 _ _ F) as Hne.
    destruct F as (Ha & Hb & _). rsimpl.
    rewrite Ha, Hb. apply find_bound in Hf. simpl in Hf.
    refine (conj eq_refl (conj _ (conj _ (conj Hne (conj _ _))))); try lia.
    + apply parseRequestLine_state.
    + congruence.
  - pose proof (parseHeader_frame (line_of r k)
                  (set_bytes_parsed (k + 2) r)) as F.
    pose proof (frame_not_431 _ _ F) as Hne.
    destruct F as (Ha & Hb & _). rsimpl.
    rewrite Ha, Hb. apply find_bound in Hf. simpl in Hf.
    refine (conj eq_refl (conj _ (conj _ (conj Hne (conj _ _))))); try lia.
    + now apply parseHeader_state.
    + congruence.
  - pose proof (endOfHeaders_frame (set_bytes_parsed (k + 2) r)) as F.
    pose proof (frame_not_431 _ _ F) as Hne.
    destruct F as (Ha & Hb & _). rsimpl.
    rewrite Ha, Hb. apply find_bound in Hf. simpl in Hf.
    refine (conj eq_refl (conj _ (conj _ (conj Hne (conj _ _))))); try lia.
    + apply endOfHeaders_state.
    + congruence.
  - rsimpl. apply N.leb_le in Hl.
    refine (conj eq_refl (conj _ (conj _ (conj _ (conj _ _)))));
      try lia; auto; discriminate.
Qed.

(** *** Fuel *)

Lemma parse_loop_terminal fuel r :
  terminal r = true ->
  parse_loop fuel r = Some (ParseState_eqb (state r) COMPLETE, r).
Proof. intros H. destruct fuel; simpl; now rewrite H. Qed.

Lemma parse_loop_fuel (f1 f2 : nat) (r : HttpRequest) :
  inv r ->
  String.length (raw_data r) - bytes_parsed r < f1 ->
  String.length (raw_data r) - bytes_parsed r < f2 ->
  parse_loop f1 r = parse_loop f2 r /\ parse_loop f1 r <> None.
Proof.
  revert f2 r. induction f1 as [|f1 IH]; intros f2 r Hinv H1 H2; [lia|].
  destruct f2 as [|f2]; [lia|].
  cbn [parse_loop]. destruct (terminal r) eqn:Ht; [split; congruence|].
  destruct (step r) as [b r'|r'] eqn:Hstep; [split; congruence|].
  destruct (step_continue r r' Ht Hinv Hstep) as (Hraw & Hinv' & [Hd|Hd] & _).
  - rewrite !parse_loop_terminal by assumption. split; congruence.
  - apply IH; [assumption | lia | lia].
Qed.

(** [parse] never runs out of fuel: the loop always returns. *)
Lemma parse_loop_enough_fuel (r : HttpRequest) :
  inv r -> parse_loop (S (String.length (raw_data r))) r <> None.
Proof.
  intros Hinv.
  apply (parse_loop_fuel _ (S (String.length (raw_data r))) r Hinv); lia.
Qed.

(** The loop, one pass at a time. *)
Lemma run_unfold (r : HttpRequest) :
  inv r ->
  run r =
  if terminal r then (ParseState_eqb (state r) COMPLETE, r)
  else match step r with
       | Return result r' => (result, r')
       | Continue r' => run r'
       end.
Proof.
  intros Hinv. unfold run at 1. cbn [parse_loop].
  destruct (terminal r) eqn:Ht; [reflexivity|].
  destruct (step r) as [b r'|r'] eqn:Hstep; [reflexivity|].
  destruct (step_continue r r' Ht Hinv Hstep) as (Hraw & Hinv' & [Hd|Hd] & _).
  - unfold run. now rewrite !parse_loop_terminal by assumption.
  - unfold run.
    destruct (parse_loop_fuel (String.length (raw_data r))
                (S (String.length (raw_data r'))) r' Hinv') as [-> Hne];
      [lia | lia |].
    destruct (parse_loop (S (String.length (raw_data r'))) r') as [res|] eqn:E;
      [reflexivity|].
    exfalso. apply (parse_loop_enough_fuel r' Hinv'). exact E.
Qed.

(** Induction along the passes of the loop. *)
Lemma loop_ind (P : HttpRequest -> Prop) :
  (forall r, inv r ->
     (forall r', terminal r = false -> step r = Continue r' ->
                 terminal r' = false -> P r') -> P r) ->
  forall r, inv r -> P r.
Proof.
  intros Hstep r.
  remember (String.length (raw_data r) - bytes_parsed r) as m eqn:Hm.
  revert r Hm. induction m as [m IH] using lt_wf_ind. intros r Hm Hinv.
  apply Hstep; [assumption|]. intros r' Ht Hs Ht'.
  destruct (step_continue r r' Ht Hinv Hs) as (Hraw & Hinv' & [Hd|Hd] & _);
    [congruence|].
  apply (IH (String.length (raw_data r') - bytes_parsed r')); [lia | reflexivity | assumption].
Qed.

(** *** Receiving more bytes *)

Lemma inv_extend e r : inv r -> inv (extend e r).
Proof. unfold inv; rsimpl. rewrite length_append. lia. Qed.

Lemma line_of_extend e r k :
  find (raw_data r) CRLF (bytes_parsed r) = Some k ->
  line_of (extend e r) k = line_of r k.
Proof.
  intros Hf. apply find_bound in Hf. simpl in Hf.
  unfold line_of; rsimpl. apply substr_append. lia.
Qed.

(** A pass that consumed something consumes the same thing when the
    buffer holds more bytes behind it. *)
Lemma step_extend_continue (e : string) (r r' : HttpRequest) :
  terminal r = false -> inv r -> step r = Continue r' ->
  step (extend e r) = Continue (extend e r').
Proof.
  intros Ht Hinv Hstep. pose proof (step_view r Ht) as V.
  rewrite Hstep in V. unfold inv in *.
  inversion V as [ | | k Hs Hf | k Hs Hf He | k Hs Hf He | | Hs Hc Hl | ];
    subst; clear V; unfold step;
    change (state (extend e r)) with (state r); rewrite Hs.
  - change (raw_data (extend e r)) with (raw_data r ++ e).
    change (bytes_parsed (extend e r)) with (bytes_parsed r).
    rewrite (find_append _ _ e _ _ Hf).
    change (substr (raw_data r ++ e) (bytes_parsed r) (k - bytes_parsed r))
      with (line_of (extend e r) k).
    rewrite (line_of_extend e r k Hf).
    change (state (set_bytes_parsed (k + 2) (extend e r))) with (state r).
    rewrite Hs.
    change (set_bytes_parsed (k + 2) (extend e r))
      with (extend e (set_bytes_parsed (k + 2) r)).
    now rewrite parseRequestLine_extend.
  - change (raw_data (extend e r)) with (raw_data r ++ e).
    change (bytes_parsed (extend e r)) with (bytes_parsed r).
    rewrite (find_append _ _ e _ _ Hf).
    change (substr (raw_data r ++ e) (bytes_parsed r) (k - bytes_parsed r))
      with (line_of (extend e r) k).
    rewrite (line_of_extend e r k Hf).
    change (state (set_bytes_parsed (k + 2) (extend e r))) with (state r).
    rewrite Hs, He.
    change (set_bytes_parsed (k + 2) (extend e r))
      with (extend e (set_bytes_parsed (k + 2) r)).
    now rewrite parseHeader_extend.
  - change (raw_data (extend e r)) with (raw_data r ++ e).
    change (bytes_parsed (extend e r)) with (bytes_parsed r).
    rewrite (find_append _ _ e _ _ Hf).
    change (substr (raw_data r ++ e) (bytes_parsed r) (k - bytes_parsed r))
      with (line_of (extend e r) k).
    rewrite (line_of_extend e r k Hf).
    change (state (set_bytes_parsed (k + 2) (extend e r))) with (state r).
    rewrite Hs, He.
    change (set_bytes_parsed (k + 2) (extend e r))
      with (extend e (set_bytes_parsed (k + 2) r)).
    now rewrite endOfHeaders_extend.
  - rewrite isChunked_extend, Hc.
    change (raw_data (extend e r)) with (raw_data r ++ e).
    change (bytes_parsed (extend e r)) with (bytes_parsed r).
    change (content_length (extend e r)) with (content_length r).
    apply N.leb_le in Hl.
    assert (Hl' : (content_length r
               <=? N.of_nat (String.length (raw_data r ++ e) - bytes_parsed r))%N
              = true).
    { apply N.leb_le. rewrite length_append. lia. }
    rewrite Hl'. cbv zeta.
    change (raw_data (set_body _ (extend e r))) with (raw_data r ++ e).
    rewrite substr_append by lia.
    reflexivity.
Qed.

(** What a pass that returns from inside the loop can have done. *)
Lemma step_return (r r' : HttpRequest) (b : bool) :
  terminal r = false -> step r = Return b r' ->
  b = false /\
  ((r' = r) \/
   (r' = fail 431 r /\ in_head r /\
    (8192 < N.of_nat (String.length (raw_data r)))%N) \/
   (r' = fail 501 r /\ state r = BODY /\ isChunked r = true)).
Proof.
  intros Ht Hstep. pose proof (step_view r Ht) as V. rewrite Hstep in V.
  inversion V as [ | Hh Hf Hl | | | | | | ]; subst; clear V; split; auto.
  right; left. apply N.ltb_lt in Hl. auto.
Qed.

Lemma step_extend_501 (e : string) (r : HttpRequest) :
  state r = BODY -> isChunked r = true ->
  step (extend e r) = Return false (extend e (fail 501 r)).
Proof.
  intros Hs Hc. unfold step.
  change (state (extend e r)) with (state r). rewrite Hs.
  now rewrite isChunked_extend, Hc.
Qed.

(** The heart of chunk independence.  Let a call stop on buffer [r].  If
    it stopped to wait for more data, resuming from where it stopped
    with [e] appended gives what a single call on the longer buffer
    gives; if it finished, with anything but the size-cap error, the
    single call on the longer buffer finishes the same way. *)
Lemma run_resume (e : string) (r : HttpRequest) :
  inv r -> terminal r = false ->
  inv (snd (run r)) /\
  (terminal (snd (run r)) = false ->
     snd (run r) = extend "" (snd (run r)) /\
     run (extend e r) = run (extend e (snd (run r)))) /\
  (terminal (snd (run r)) = true -> error_code (snd (run r)) <> 431%Z ->
     run (extend e r) = (fst (run r), extend e (snd (run r)))).
Proof.
  intros Hinv. revert r Hinv. apply (loop_ind (fun r => terminal r = false -> _)).
  intros r Hinv IH Ht.
  pose proof (run_unfold (extend e r) (inv_extend e r Hinv)) as Hext.
  rewrite terminal_extend, Ht in Hext.
  rewrite (run_unfold r Hinv), Ht.
  destruct (step r) as [b r'|r'] eqn:Hstep.
  - destruct (step_return r r' b Ht Hstep)
      as [-> [-> | [(-> & Hh & Hl) | (-> & Hs & Hc)]]]; cbn [fst snd].
    + split; [assumption|]. split.
      * intros _. split; [now rewrite extend_nil | reflexivity].
      * congruence.
    + split; [assumption|]. split; [discriminate|]. intros _ Hne. now elim Hne.
    + split; [assumption|]. split; [discriminate|]. intros _ _.
      now rewrite Hext, (step_extend_501 e r Hs Hc).
  - rewrite (step_extend_continue e r r' Ht Hinv Hstep) in Hext.
    destruct (step_continue r r' Ht Hinv Hstep) as (Hraw & Hinv' & _).
    rewrite Hext.
    destruct (terminal r') eqn:Ht'.
    + rewrite (run_unfold r' Hinv'), Ht'.
      rewrite (run_unfold (extend e r') (inv_extend e r' Hinv')),
        terminal_extend, Ht'. cbn [fst snd].
      split; [assumption|]. split; [congruence|]. reflexivity.
    + apply (IH r' Ht eq_refl Ht' Ht').
Qed.

(** *** Where the size cap can strike *)

Lemma run_inv (r : HttpRequest) : inv r -> inv (snd (run r)).
Proof.
  revert r. apply loop_ind. intros r Hinv IH.
  rewrite (run_unfold r Hinv).
  destruct (terminal r) eqn:Ht; [assumption|].
  destruct (step r) as [b r'|r'] eqn:Hstep.
  - destruct (step_return r r' b Ht Hstep) as [-> [-> | [(-> & _) | (-> & _)]]];
      assumption.
  - destruct (step_continue r r' Ht Hinv Hstep) as (Hraw & Hinv' & _).
    destruct (terminal r') eqn:Ht'; [|now apply IH].
    now rewrite (run_unfold r' Hinv'), Ht'.
Qed.

(** Within the cap no call ends with error 431. *)
Lemma run_no_431 (r : HttpRequest) :
  inv r -> error_code r <> 431%Z ->
  (N.of_nat (String.length (raw_data r)) <= 8192)%N ->
  error_code (snd (run r)) <> 431%Z.
Proof.
  revert r. apply (loop_ind (fun r => _ -> _ -> _)). intros r Hinv IH Hne Hlen.
  rewrite (run_unfold r Hinv).
  destruct (terminal r) eqn:Ht; [assumption|].
  destruct (step r) as [b r'|r'] eqn:Hstep.
  - destruct (step_return r r' b Ht Hstep)
      as [-> [-> | [(-> & _ & Hl) | (-> & _)]]]; cbn [snd].
    + assumption.
    + lia.
    + rsimpl. discriminate.
  - destruct (step_continue r r' Ht Hinv Hstep) as (Hraw & Hinv' & _ & Hne' & _).
    destruct (terminal r') eqn:Ht'.
    + rewrite (run_unfold r' Hinv'), Ht'. auto.
    + apply IH; auto. now rewrite Hraw.
Qed.

(** Once the header block is behind, the cap no longer applies. *)
Lemma run_past_head (r : HttpRequest) :
  inv r -> ~ in_head r -> error_code r <> 431%Z ->
  ~ in_head (snd (run r)) /\ error_code (snd (run r)) <> 431%Z.
Proof.
  intros Hinv Hh Hne. rewrite (run_unfold r Hinv).
  destruct (terminal r) eqn:Ht; [auto|].
  assert (Hs : state r = BODY).
  { unfold in_head, terminal in *. destruct (state r); try discriminate; tauto. }
  destruct (step r) as [b r'|r'] eqn:Hstep.
  - destruct (step_return r r' b Ht Hstep)
      as [-> [-> | [(-> & Hh' & _) | (-> & _)]]]; cbn [snd].
    + auto.
    + contradiction.
    + unfold in_head; rsimpl. split; [intros [?|?]|]; discriminate.
  - destruct (step_continue r r' Ht Hinv Hstep)
      as (Hraw & Hinv' & _ & Hne' & _ & Hc).
    specialize (Hc Hs).
    assert (Ht' : terminal r' = true) by (unfold terminal; now rewrite Hc).
    rewrite (run_unfold r' Hinv'), Ht'. cbn [snd].
    split; [unfold in_head; rewrite Hc; intros [?|?]; discriminate | auto].
Qed.

(** *** Feeding chunks *)

Lemma parse_new (d : string) : parse d new = run (extend d new).
Proof. reflexivity. Qed.

Lemma inv_extend_new (d : string) : inv (extend d new).
Proof. unfold inv; simpl. lia. Qed.

Lemma concat_chunks_snoc (cs : list string) (c : string) :
  concat_chunks (cs ++ [c]) = concat_chunks cs ++ c.
Proof.
  induction cs as [|x cs IH]; simpl.
  - apply append_nil_r.
  - now rewrite IH, append_assoc.
Qed.

Lemma feed_snoc (cs : list string) (c : string) (r : HttpRequest) :
  feed (cs ++ [c]) r = snd (parse c (feed cs r)).
Proof. unfold feed. now rewrite fold_left_app. Qed.

Lemma observable_extend e r : observable (extend e r) = observable r.
Proof. reflexivity. Qed.

Lemma feed_agree (chunks : list string) :
  (forall p q, concat_chunks chunks = p ++ q ->
               error_code (snd (parse p new)) <> 431%Z) ->
  agree (feed chunks new) (snd (parse (concat_chunks chunks) new)).
Proof.
  induction chunks as [|c cs IH] using rev_ind; intros Hcap.
  - exists "". split; [|reflexivity]. simpl. now rewrite extend_nil.
  - rewrite feed_snoc, concat_chunks_snoc, parse_new, <- extend_extend.
    assert (Hpre : forall p q, concat_chunks cs = p ++ q ->
                   error_code (snd (parse p new)) <> 431%Z).
    { intros p q E. apply (Hcap p (q ++ c)).
      now rewrite concat_chunks_snoc, E, append_assoc. }
    specialize (IH Hpre). rewrite parse_new in IH.
    pose proof (Hcap (concat_chunks cs) c (concat_chunks_snoc cs c)) as Hne.
    rewrite parse_new in Hne.
    set (r := extend (concat_chunks cs) new) in *.
    destruct (run_resume c r (inv_extend_new _) eq_refl) as (_ & Hwait & Hdone).
    destruct IH as (e & He & Hnil).
    unfold parse at 1.
    destruct (terminal (feed cs new)) eqn:Ht; cbn [snd].
    + assert (Ht' : terminal (snd (run r)) = true)
        by now rewrite He, terminal_extend.
      rewrite (Hdone Ht' Hne). cbn [snd].
      exists (e ++ c). split; [|congruence].
      now rewrite He, extend_extend.
    + specialize (Hnil eq_refl). subst e. rewrite extend_nil in He.
      assert (Ht' : terminal (snd (run r)) = false) by now rewrite He.
      destruct (Hwait Ht') as [_ ->]. rewrite He.
      exists "". split; [now rewrite extend_nil | reflexivity].
Qed.

Lemma append_split (p q h b : string) :
  p ++ q = h ++ b -> (exists t, h = p ++ t) \/ (exists t, p = h ++ t).
Proof.
  revert h; induction p as [|x p IH]; intros h E.
  - left. now exists h.
  - destruct h as [|y h].
    + right. now exists (String x p).
    + simpl in E. injection E as -> E.
      destruct (IH h E) as [[t ->] | [t ->]]; [left | right]; now exists t.
Qed.

Lemma within_cap_no_431 (d : string) :
  within_cap d ->
  forall p q, d = p ++ q -> error_code (snd (parse p new)) <> 431%Z.
Proof.
  intros (h & b & -> & Hlen & Hdone) p q E. rewrite parse_new.
  assert (Hsmall : forall s, (N.of_nat (String.length s) <= 8192)%N ->
                   error_code (snd (run (extend s new))) <> 431%Z).
  { intros s Hs. apply run_no_431; [apply inv_extend_new | discriminate | exact Hs]. }
  destruct (append_split p q h b (eq_sym E)) as [[t ->] | [t ->]].
  - apply Hsmall. rewrite length_append in Hlen. lia.
  - destruct Hdone as [-> | Hdone].
    + apply Hsmall. rewrite append_nil_r in E.
      apply (f_equal String.length) in E. rewrite !length_append in *. lia.
    + rewrite parse_new in Hdone. rewrite <- extend_extend.
      set (r := extend h new) in *.
      destruct (run_resume t r (inv_extend_new _) eq_refl)
        as (Hinv' & Hwait & Hfin).
      specialize (Hsmall h Hlen). fold r in Hsmall.
      destruct (terminal (snd (run r))) eqn:Ht.
      * rewrite (Hfin eq_refl Hsmall). exact Hsmall.
      * destruct (Hwait eq_refl) as [_ ->].
        apply run_past_head; [now apply inv_extend | | exact Hsmall].
        unfold in_head, headers_done in *.
        change (state (extend t (snd (run r)))) with (state (snd (run r))).
        destruct (state (snd (run r))); try discriminate; intros [?|?];
          discriminate.
Qed.

(** *** Passes of one call *)



Lemma feed_inv (chunks : list string) : inv (feed chunks new).
Proof.
  induction chunks as [|c cs IH] using rev_ind.
  - unfold inv; simpl; lia.
  - rewrite feed_snoc. unfold parse.
    destruct (terminal (feed cs new)); cbn [snd]; [assumption|].
    apply run_inv. now apply inv_extend.
Qed.


End ParserFacts.

Import Request.

(** C3 (as amended).  For every byte sequence that is within the 8192-byte
    cap, or whose part within the cap already holds the complete request
    line and header block, and for every way of cutting it into chunks
    (empty chunks included), feeding the chunks one [parse] call at a time
    to a fresh request ends with the same state and the same field values
    as feeding the whole sequence in a single call. *)
Theorem C3_chunk_independence_within_cap (chunks : list string) :
  within_cap (concat_chunks chunks) ->
  observable (feed chunks new)
  = observable (snd (parse (concat_chunks chunks) new)).
Proof.
  intros Hcap.
  destruct (ParserFacts.feed_agree chunks
              (ParserFacts.within_cap_no_431 _ Hcap)) as (e & -> & _).
  reflexivity.
Qed.

Lemma C3_witness :
  let chunks := ["POST /up?x=1 HT"; "TP/1.1" ++ Str.CRLF ++ "Content-Le";
                 "ngth: 5" ++ Str.CRLF ++ String Str.CR "";
                 String Str.LF "he"; ""; "llo"] in
  observable (feed chunks new)
  = observable (snd (parse (concat_chunks chunks) new)).
Proof.
  apply C3_chunk_independence_within_cap.
  exists ("POST /up?x=1 HTTP/1.1" ++ Str.CRLF ++ "Content-Length: 5" ++ Str.CRLFCRLF),
         "hello".
  split; [reflexivity|]. split; [vm_compute; discriminate|].
  right. reflexivity.
Defined.

(** C3 as the specification states it fails: a request with one long header
    line is complete when it arrives in a single call, and is refused with
    431 when its first chunk ends inside that line beyond the cap. *)
Lemma C3_counterexample :
  let c1 := "GET / HTTP/1.1" ++ Str.CRLF ++ "X-Pad: " ++ Str.replicate (82 * 100) "a" in
  let c2 := Str.CRLFCRLF in
  c1 <> "" /\ c2 <> "" /\
  fst (parse (concat_chunks [c1; c2]) new) = true /\
  state (snd (parse (concat_chunks [c1; c2]) new)) = COMPLETE /\
  error_code (snd (parse (concat_chunks [c1; c2]) new)) = 0%Z /\
  state (feed [c1; c2] new) = ERROR /\
  error_code (feed [c1; c2] new) = 431%Z.
Proof.
  cbv zeta. split; [discriminate|]. split; [discriminate|].
  repeat split; vm_compute; reflexivity.
Qed.




(** C9.  Once the state is COMPLETE or ERROR, [parse] changes nothing,
    whatever the data and however many calls follow, and it returns true
    exactly when the state is COMPLETE; [reset] is what brings the object
    back to REQUEST_LINE. *)
Theorem C9_terminal_request_is_frozen (r : HttpRequest) (data : string)
    (chunks : list string) :
  state r = COMPLETE \/ state r = ERROR ->
  snd (parse data r) = r /\
  (fst (parse data r) = true <-> state r = COMPLETE) /\
  feed chunks r = r /\
  state (reset r) = REQUEST_LINE.
Proof.
  intros H.
  assert (Ht : terminal r = true)
    by (unfold terminal; destruct H as [-> | ->]; reflexivity).
  assert (Hp : forall d, parse d r = (ParseState_eqb (state r) COMPLETE, r))
    by (intros d; unfold parse; now rewrite Ht).
  rewrite Hp. cbn [fst snd]. repeat split.
  - destruct (state r); simpl; congruence.
  - intros ->. reflexivity.
  - induction chunks as [|c cs IH]; [reflexivity|].
    unfold feed in *. simpl. rewrite Hp. exact IH.
Qed.

Lemma C9_witness :
  let r := snd (parse ("BREW / HTTP/1.1" ++ Str.CRLF) new) in
  state r = ERROR /\ snd (parse "GET / HTTP/1.1" r) = r.
Proof.
  split; [reflexivity|].
  apply (C9_terminal_request_is_frozen _ "GET / HTTP/1.1" []).
  right. reflexivity.
Defined.

(** ** Facts about the request line *)

Module RequestLineFacts.
Import Str StrFacts ParserFacts.

Lemma split_ws_cur (s cur : string) :
  cur <> "" ->
  split_ws s cur
  = (cur ++ fst (read_word s)) :: split_ws (snd (read_word s)) "".
Proof.
  revert cur; induction s as [|c s IH]; intros cur Hne.
  - simpl. apply is_empty_false in Hne. rewrite Hne. now rewrite append_nil_r.
  - cbn [split_ws read_word]. destruct (isspace c) eqn:Hc.
    + apply is_empty_false in Hne. rewrite Hne. cbn [fst snd split_ws].
      now rewrite append_nil_r, Hc.
    + rewrite IH by (destruct cur; discriminate).
      destruct (read_word s) as [w tl]. cbn [fst snd].
      now rewrite append_assoc.
Qed.

Lemma words_skip_ws (s : string) : words s = words (skip_ws s).
Proof.
  unfold words. induction s as [|c s IH]; [reflexivity|].
  cbn [skip_ws]. destruct (isspace c) eqn:Hc; [|reflexivity].
  cbn [split_ws]. now rewrite Hc.
Qed.

Lemma skip_ws_head (s : string) (c : ascii) (s' : string) :
  skip_ws s = String c s' -> isspace c = false.
Proof.
  induction s as [|a s IH]; [discriminate|].
  cbn [skip_ws]. destruct (isspace a) eqn:Ha; [exact IH|].
  now intros [= <- <-].
Qed.

Lemma words_cons (c : ascii) (s : string) :
  isspace c = false ->
  words (String c s)
  = fst (read_word (String c s)) :: words (snd (read_word (String c s))).
Proof.
  intros Hc. unfold words. cbn [split_ws read_word]. rewrite Hc.
  rewrite split_ws_cur by discriminate.
  now destruct (read_word s).
Qed.

(** [iss >> target] hands out the next token and moves past it; with no
    token left the target keeps its value. *)
Lemma extract_tokens (iss : istringstream) (old : string) :
  snd (extract iss old) = hd old (stream_tokens iss) /\
  stream_tokens (fst (extract iss old)) = tl (stream_tokens iss).
Proof.
  unfold extract, stream_tokens. destruct iss as [rst [|]];
    cbn [good rest negb]; [|split; reflexivity].
  rewrite (words_skip_ws rst).
  destruct (skip_ws rst) as [|c s'] eqn:Hs; [split; reflexivity|].
  rewrite (words_cons c s' (skip_ws_head _ _ _ Hs)).
  destruct (read_word (String c s')) as [w t]. cbn [fst snd hd tl good rest].
  split; [reflexivity|]. now destruct t.
Qed.

(** The request line, token by token. *)
Lemma parseRequestLine_tokens (line : string) (r : HttpRequest) :
  parseRequestLine line r
  = let ts := words line in
    let r1 := set_method (stringToMethod (hd "" ts))
                (set_http_version (hd (http_version r) (tl (tl ts)))
                   (set_uri (hd (uri r) (tl ts)) r)) in
    if HttpMethod_eqb (method r1) UNKNOWN then fail 405 r1
    else if is_empty (uri r1) || is_empty (http_version r1) then fail 400 r1
    else if negb (String.eqb (http_version r1) "HTTP/1.1")
            && negb (String.eqb (http_version r1) "HTTP/1.0") then fail 505 r1
    else set_state HEADERS (parseQueryString r1).
Proof.
  unfold parseRequestLine.
  pose proof (extract_tokens (open_stream line) "") as [E1 T1].
  destruct (extract (open_stream line) "") as [iss1 m]. cbn [fst snd] in *.
  pose proof (extract_tokens iss1 (uri r)) as [E2 T2].
  destruct (extract iss1 (uri r)) as [iss2 u]. cbn [fst snd] in *.
  pose proof (extract_tokens iss2 (http_version r)) as [E3 T3].
  destruct (extract iss2 (http_version r)) as [iss3 v]. cbn [fst snd] in *.
  rewrite T2, T1 in E3. rewrite T1 in E2.
  change (stream_tokens (open_stream line)) with (words line) in *.
  subst m u v. reflexivity.
Qed.

Lemma stringToMethod_known (m : string) :
  HttpMethod_eqb (stringToMethod m) UNKNOWN = negb (known_method m).
Proof.
  unfold stringToMethod, known_method. cbn [existsb].
  destruct (m =? "GET")%string; [reflexivity|].
  destruct (m =? "POST")%string; [reflexivity|].
  destruct (m =? "DELETE")%string; [reflexivity|].
  destruct (m =? "PUT")%string; [reflexivity|].
  destruct (m =? "HEAD")%string; reflexivity.
Qed.

Lemma find0_char_split (c : ascii) (a b : string) :
  occurs c a = false ->
  find0 (String c "") (a ++ String c b) = Some (String.length a).
Proof.
  induction a as [|x a IH]; intros H.
  - cbn. now rewrite Ascii.eqb_refl.
  - cbn [occurs] in H. apply orb_false_iff in H as [Hx Ha].
    cbn [append find0 starts_with String.length].
    rewrite Ascii.eqb_sym, Hx. cbn [andb]. now rewrite (IH Ha).
Qed.

Lemma find0_char_none (c : ascii) (u : string) :
  occurs c u = false -> find0 (String c "") u = None.
Proof.
  induction u as [|x u IH]; intros H; [reflexivity|].
  cbn [occurs] in H. apply orb_false_iff in H as [Hx Hu].
  cbn [find0 starts_with]. rewrite Ascii.eqb_sym, Hx. cbn [andb].
  now rewrite (IH Hu).
Qed.

Lemma find_char_0 (u : string) (c : ascii) :
  find_char u c = find0 (String c "") u.
Proof.
  unfold find_char, find. cbn [Nat.leb drop].
  now destruct (find0 (String c "") u).
Qed.

Lemma split_ws_nonempty (s cur t : string) :
  In t (split_ws s cur) -> t <> "".
Proof.
  revert cur; induction s as [|c s IH]; intros cur; cbn [split_ws].
  - destruct (is_empty cur) eqn:E; [intros []|].
    intros [<- | []]. now apply is_empty_false.
  - destruct (isspace c); [|apply IH].
    destruct (is_empty cur) eqn:E; [apply IH|].
    intros [<- | H]; [now apply is_empty_false | exact (IH _ H)].
Qed.

Lemma parseQueryString_split (r : HttpRequest) (a b : string) :
  uri r = a ++ String "?" b -> occurs "?" a = false ->
  uri (parseQueryString r) = a /\ query_string (parseQueryString r) = b.
Proof.
  intros Hu Ha. unfold parseQueryString.
  rewrite find_char_0, Hu, (find0_char_split _ a b Ha). rsimpl.
  unfold substr, substr_from. cbn [drop]. rewrite Hu. split.
  - apply take_length_append.
  - rewrite <- drop_drop, drop_length_append. reflexivity.
Qed.

Lemma parseQueryString_none (r : HttpRequest) :
  occurs "?" (uri r) = false -> parseQueryString r = r.
Proof.
  intros H. unfold parseQueryString.
  now rewrite find_char_0, (find0_char_none _ _ H).
Qed.

(** The state in which [parse] reads a request line. *)
Lemma run_fresh (r : HttpRequest) : inv r -> fresh r -> fresh (snd (run r)).
Proof.
  revert r. apply (loop_ind (fun r => fresh r -> fresh (snd (run r)))).
  intros r Hinv IH Hfresh. rewrite (run_unfold r Hinv).
  destruct (terminal r) eqn:Ht; [assumption|].
  destruct (step r) as [b r'|r'] eqn:Hstep.
  - destruct (step_return r r' b Ht Hstep) as [-> [-> | [(-> & _) | (-> & _)]]];
      cbn [snd]; [assumption | |]; intros H; discriminate H.
  - destruct (step_continue r r' Ht Hinv Hstep) as (_ & Hinv' & _ & _ & Hs & _).
    destruct (terminal r') eqn:Ht'.
    + rewrite (run_unfold r' Hinv'), Ht'. intros H. contradiction.
    + apply IH; auto. intros H. contradiction.
Qed.

Lemma feed_fresh (chunks : list string) : fresh (feed chunks new).
Proof.
  induction chunks as [|c cs IH] using rev_ind.
  - intros _. split; reflexivity.
  - rewrite feed_snoc. unfold parse.
    destruct (terminal (feed cs new)); cbn [snd]; [assumption|].
    apply run_fresh; [apply inv_extend, feed_inv | exact IH].
Qed.

Lemma reaches_fresh (r p : HttpRequest) :
  inv r -> fresh r -> reaches r p -> fresh p.
Proof.
  intros Hinv Hfresh H. induction H as [r Ht | r r1 p Ht Hstep Hreach IH].
  - assumption.
  - destruct (step_continue r r1 Ht Hinv Hstep) as (_ & Hinv' & _ & _ & Hs & _).
    apply IH; [assumption|]. intros H. contradiction.
Qed.

(** Whenever a call of [parse] on a request fed by earlier calls hands a
    line to [parseRequestLine], the URI and the version are empty. *)
Lemma request_line_read_fresh (chunks : list string) (data : string)
    (p : HttpRequest) (line_end : nat) :
  reaches (extend data (feed chunks new)) p ->
  state p = REQUEST_LINE ->
  uri (set_bytes_parsed (line_end + 2) p) = "" /\
  http_version (set_bytes_parsed (line_end + 2) p) = "".
Proof.
  intros Hreach Hs.
  apply (reaches_fresh _ p (inv_extend data _ (feed_inv chunks))
           (feed_fresh chunks) Hreach Hs).
Qed.

End RequestLineFacts.

(** C4.  For every request line read by the parser (the URI and the
    version are empty when it reads one, see
    [RequestLineFacts.request_line_read_fresh]): with no first token, or a
    first token other than GET, POST, DELETE, PUT and HEAD, the error code
    becomes 405 and the state ERROR; otherwise, with the URI or the version
    token missing, the error code becomes 400 and the state ERROR;
    otherwise, with a version other than HTTP/1.0 and HTTP/1.1, the error
    code becomes 505 and the state ERROR; otherwise the state becomes
    HEADERS, the method, the version are those of the tokens, and the URI
    token is split at its first '?': [uri] is what precedes it and
    [query_string] what follows it (with no '?', [uri] is the whole token
    and [query_string] is untouched). *)
Theorem C4_request_line (line : string) (r : HttpRequest) :
  uri r = "" -> http_version r = "" ->
  let r' := parseRequestLine line r in
  match words line with
  | [] => error_code r' = 405%Z /\ state r' = ERROR
  | m :: rest =>
      if negb (known_method m)
      then error_code r' = 405%Z /\ state r' = ERROR
      else
        match rest with
        | [] | [_] => error_code r' = 400%Z /\ state r' = ERROR
        | u :: v :: _ =>
            if negb (v =? "HTTP/1.0")%string && negb (v =? "HTTP/1.1")%string
            then error_code r' = 505%Z /\ state r' = ERROR
            else
              state r' = HEADERS /\ error_code r' = error_code r /\
              method r' = stringToMethod m /\ http_version r' = v /\
              (forall a b, u = a ++ String "?" b -> occurs "?" a = false ->
                           uri r' = a /\ query_string r' = b) /\
              (occurs "?" u = false ->
                 uri r' = u /\ query_string r' = query_string r)
        end
  end.
Proof.
  intros Hu Hv r'. subst r'.
  rewrite RequestLineFacts.parseRequestLine_tokens. cbv zeta.
  destruct (words line) as [|m rest] eqn:Hw; cbn [hd tl].
  - rewrite Hu, Hv. split; reflexivity.
  - ParserFacts.rsimpl.
    rewrite RequestLineFacts.stringToMethod_known.
    destruct (negb (known_method m)); [split; reflexivity|].
    destruct rest as [|u [|v rest]]; cbn [hd tl].
    + rewrite Hu. split; reflexivity.
    + rewrite Hv. replace (Str.is_empty u || Str.is_empty "") with true
        by (now rewrite orb_true_r).
      split; reflexivity.
    + assert (Hne : forall t, In t (words line) -> Str.is_empty t = false).
      { intros t Ht. apply StrFacts.is_empty_false.
        exact (RequestLineFacts.split_ws_nonempty _ _ _ Ht). }
      rewrite Hw in Hne.
      rewrite (Hne u), (Hne v) by (simpl; auto). cbn [orb].
      rewrite (andb_comm (negb (v =? "HTTP/1.1")%string)).
      destruct (negb (v =? "HTTP/1.0")%string && negb (v =? "HTTP/1.1")%string);
        [split; reflexivity|].
      set (r1 := set_method (stringToMethod m)
                   (set_http_version v (set_uri u r))).
      refine (conj eq_refl (conj _ (conj _ (conj _ (conj _ _))))).
      * unfold parseQueryString. now destruct (Str.find_char (uri r1) "?").
      * unfold parseQueryString. now destruct (Str.find_char (uri r1) "?").
      * unfold parseQueryString. now destruct (Str.find_char (uri r1) "?").
      * intros a b Hab Ha.
        apply (RequestLineFacts.parseQueryString_split r1 a b Hab Ha).
      * intros Hq.
        rewrite (RequestLineFacts.parseQueryString_none r1 Hq).
        split; reflexivity.
Qed.

Lemma C4_witness :
  let r' := parseRequestLine "GET /index.html?x=1 HTTP/1.1" new in
  state r' = HEADERS /\ uri r' = "/index.html" /\ query_string r' = "x=1".
Proof.
  pose proof (C4_request_line "GET /index.html?x=1 HTTP/1.1" new
                eq_refl eq_refl) as H.
  cbv zeta in H. simpl words in H. cbv iota beta in H.
  change (negb (known_method "GET")) with false in H.
  change (negb ("HTTP/1.1" =? "HTTP/1.0")%string
          && negb ("HTTP/1.1" =? "HTTP/1.1")%string) with false in H.
  cbv iota in H.
  destruct H as (Hs & _ & _ & _ & Hsplit & _).
  destruct (Hsplit "/index.html" "x=1" eq_refl eq_refl) as [Hu Hq].
  exact (conj Hs (conj Hu Hq)).
Defined.



(** ** Facts about searching *)

Module FindFacts.
Import Str StrFacts.

Lemma find0_zero (pat s : string) :
  find0 pat s = Some 0 <-> starts_with pat s = true.
Proof.
  destruct s as [|c s]; cbn [find0].
  - destruct (starts_with pat ""); split; congruence.
  - destruct (starts_with pat (String c s)); [split; congruence|].
    destruct (find0 pat s); cbn; split; congruence.
Qed.

Lemma find_zero (s pat : string) :
  find s pat 0 = Some 0 <-> exists t, s = pat ++ t.
Proof.
  unfold find. cbn [Nat.leb drop]. rewrite <- starts_with_iff, <- find0_zero.
  destruct (find0 pat s) as [k|]; cbn; split; congruence.
Qed.

Lemma find0_occurrence (pat s : string) (k : nat) :
  find0 pat s = Some k -> exists a b, s = a ++ pat ++ b.
Proof.
  revert k; induction s as [|c s IH]; intros k; cbn [find0].
  - destruct (starts_with pat "") eqn:E; [|discriminate]. intros _.
    apply starts_with_iff in E as [t Ht]. now exists "", t.
  - destruct (starts_with pat (String c s)) eqn:E.
    + intros _. apply starts_with_iff in E as [t Ht]. now exists "", t.
    + destruct (find0 pat s) as [j|]; [|discriminate]. intros _.
      destruct (IH j eq_refl) as (a & b & ->). now exists (String c a), b.
Qed.

Lemma find0_complete (pat a b : string) : find0 pat (a ++ pat ++ b) <> None.
Proof.
  induction a as [|c a IH].
  - cbn [append]. assert (E : starts_with pat (pat ++ b) = true)
      by (apply starts_with_iff; now exists b).
    destruct (pat ++ b); cbn [find0]; rewrite E; discriminate.
  - cbn [append find0].
    destruct (starts_with pat (String c (a ++ pat ++ b))); [discriminate|].
    destruct (find0 pat (a ++ pat ++ b)); [discriminate | contradiction].
Qed.

(** [s.find(pat) != npos] says that [pat] occurs in [s]. *)
Lemma find_contains (s pat : string) :
  find s pat 0 <> None <-> exists a b, s = a ++ pat ++ b.
Proof.
  unfold find. cbn [Nat.leb drop]. split.
  - destruct (find0 pat s) as [k|] eqn:E; [|contradiction]. intros _.
    exact (find0_occurrence _ _ _ E).
  - intros (a & b & ->).
    pose proof (find0_complete pat a b) as H.
    destruct (find0 pat (a ++ pat ++ b)); [discriminate | contradiction].
Qed.

End FindFacts.

(** ** Facts about the responses *)

Module ResponseFacts.

Lemma status_badRequest m : status_code (Response.badRequest m) = 400%Z.
Proof. reflexivity. Qed.

Lemma status_methodNotAllowed m :
  status_code (Response.methodNotAllowed m) = 405%Z.
Proof. reflexivity. Qed.

Lemma status_notImplemented m : status_code (Response.notImplemented m) = 501%Z.
Proof. reflexivity. Qed.

Lemma status_ok b t : status_code (Response.ok b t) = 200%Z.
Proof. reflexivity. Qed.

Lemma status_notFound w m : status_code (Response.notFound w m) = 404%Z.
Proof. reflexivity. Qed.

Lemma status_internalServerError w m :
  status_code (Response.internalServerError w m) = 500%Z.
Proof. reflexivity. Qed.

(** The bytes [build] writes begin with the status line of the code. *)
Lemma build_status_line (resp : HttpResponse) :
  status_message resp = Response.getStatusMessage (status_code resp) ->
  exists rest,
    Response.build resp = Response.status_line (status_code resp) ++ rest.
Proof.
  intros Hm. unfold Response.build, Response.status_line. rewrite Hm.
  eexists. rewrite !StrFacts.append_assoc. reflexivity.
Qed.

End ResponseFacts.

(** C1 (the code departs from it).  A CGI script prints
    "Status: 404", a blank line and "body".  The gateway reads the status
    code 404 from the header block, and then answers with status 200: the
    code it parsed never reaches the response. *)
Theorem C1_cgi_status_is_parsed_then_dropped (request : HttpRequest)
    (location : LocationConfig) :
  let out := "Status: 404" ++ Str.CRLFCRLF ++ "body" in
  let w := world_with_script "./www/cgi/missing.py" out in
  let resp := Server.executeCgi w "./www/cgi/missing.py" "/usr/bin/python3"
                request location in
  Server.parseCgiOutput out = ("body", "text/html", 404%Z) /\
  status_code resp = 200%Z /\
  exists rest, Response.build resp = Response.status_line 200 ++ rest.
Proof.
  cbv zeta. split; [reflexivity|]. split; [reflexivity|].
  match goal with
  | |- exists rest, Response.build ?resp = _ =>
      destruct (ResponseFacts.build_status_line resp eq_refl) as [rest E];
      exists rest; exact E
  end.
Qed.

(** Whatever the subprocess prints, the status of a CGI answer is one of
    200, 404 and 500. *)
Lemma executeCgi_status (w : World) (script_path interpreter : string)
    (request : HttpRequest) (location : LocationConfig) :
  let code := status_code (Server.executeCgi w script_path interpreter
                             request location) in
  code = 200%Z \/ code = 404%Z \/ code = 500%Z.
Proof.
  cbv zeta. unfold Server.executeCgi.
  destruct (stat w script_path) as [[| |]|]; auto.
  destruct (negb (pipe_ok w)); auto.
  destruct (negb (fork_ok w)); auto.
  destruct (Str.is_empty _); auto.
  destruct (Server.parseCgiOutput _) as [[b t] c]. auto.
Qed.

(** C2 (as amended).  When a [parse] call on a connection's request
    returns false with the state ERROR and error code [e], the server
    appends one response to the connection's output buffer, asks for
    POLLOUT and starts a fresh request.  For [e] = 405 the response opens
    with the status line of 405; for [e] = 400, and for 431, 501 and every
    other code but 405 and 505, it opens with the status line of 400. *)
Theorem C2_parse_error_response (w : World) (server_config : ServerConfig)
    (buffer : string) (c : Connection) :
  let res := parse buffer (conn_request c) in
  let e := error_code (snd res) in
  let c' := Server.handleClientData w server_config buffer c in
  fst res = false -> state (snd res) = ERROR ->
  conn_request c' = new /\ pollout c' = true /\
  (e = 405%Z ->
     exists rest,
       output_buffer c' = output_buffer c ++ Response.status_line 405 ++ rest) /\
  (e <> 405%Z -> e <> 505%Z ->
     exists rest,
       output_buffer c' = output_buffer c ++ Response.status_line 400 ++ rest).
Proof.
  cbv zeta. unfold Server.handleClientData.
  destruct (parse buffer (conn_request c)) as [complete request]. cbn [fst snd].
  intros -> Hs. rewrite Hs. cbn [ParseState_eqb].
  unfold Server.resetRequest, Server.sendToClient, Server.parseErrorResponse.
  cbn [conn_request output_buffer pollout].
  split; [reflexivity|]. split; [reflexivity|]. split.
  - intros ->. cbn [Z.eqb Pos.eqb].
    destruct (ResponseFacts.build_status_line
                (Response.methodNotAllowed "Method not allowed") eq_refl)
      as [rest E].
    exists rest. now rewrite E.
  - intros H405 H505.
    destruct (Z.eqb_spec (error_code request) 405); [contradiction|].
    destruct (Z.eqb_spec (error_code request) 505); [contradiction|].
    destruct (ResponseFacts.build_status_line
                (Response.badRequest "Bad Request") eq_refl) as [rest E].
    exists rest. now rewrite E.
Qed.

Lemma C2_witness :
  let c := mkConnection new "" false in
  let c' := Server.handleClientData (world_with_script "" "")
              Config.default_config ("BREW / HTTP/1.1" ++ Str.CRLF) c in
  exists rest, output_buffer c' = "" ++ Response.status_line 405 ++ rest.
Proof.
  cbv zeta.
  apply (C2_parse_error_response (world_with_script "" "") Config.default_config
           ("BREW / HTTP/1.1" ++ Str.CRLF) (mkConnection new "" false));
    reflexivity.
Defined.

(** C2 as the specification states it fails: 8192 bytes without a line
    terminator, then one more, end the parse with error 431, and the
    response queued carries 400. *)
Lemma C2_counterexample :
  let w := world_with_script "" "" in
  let c1 := Server.handleClientData w Config.default_config
              (Str.replicate (64 * 128) "a") (mkConnection new "" false) in
  let res := parse "a" (conn_request c1) in
  let c2 := Server.handleClientData w Config.default_config "a" c1 in
  output_buffer c1 = "" /\
  fst res = false /\ state (snd res) = ERROR /\ error_code (snd res) = 431%Z /\
  Str.starts_with (Response.status_line 400) (output_buffer c2) = true /\
  Str.starts_with (Response.status_line 431) (output_buffer c2) = false.
Proof.
  cbv zeta. repeat split; vm_compute; reflexivity.
Qed.

(** The version check of the parser and the response the server picks
    for it: error 505 is answered with the status line of 501. *)
Lemma parse_error_505_answer :
  status_code (Server.parseErrorResponse 505) = 501%Z.
Proof. reflexivity. Qed.

(** C6.  A static request whose URI contains ".." is answered 400,
    whatever the file system holds; a GET or HEAD request whose URI does
    not contain "..", and whose path under the root does not exist, is
    answered 404. *)
Theorem C6_traversal_400_missing_404 (w : World) (h : StaticFileHandler)
    (request : HttpRequest) :
  (Static.contains ".." (uri request) ->
     status_code (Static.handleRequest w h request) = 400%Z) /\
  (~ Static.contains ".." (uri request) ->
   method request = GET \/ method request = HEAD ->
   stat w (Static.combinePaths (root_directory h) (uri request)) = None ->
     status_code (Static.handleRequest w h request) = 404%Z).
Proof.
  unfold Static.handleRequest, Static.isPathSafe, Static.contains.
  pose proof (FindFacts.find_contains (uri request) "..") as Hc.
  split.
  - intros H. apply Hc in H.
    destruct (Str.find (uri request) ".." 0); [reflexivity | contradiction].
  - intros H Hm Hstat.
    destruct (Str.find (uri request) ".." 0) as [k|].
    + exfalso. apply H, Hc. discriminate.
    + cbn [negb]. unfold Static.fileExists. rewrite Hstat.
      destruct Hm as [-> | ->]; reflexivity.
Qed.

Lemma C6_witness :
  let w := world_with_script "./www/index.html" "" in
  let h := mkStatic "./www" false "index.html" in
  status_code (Static.handleRequest w h
                 (set_uri "/../index.html" (set_method GET new))) = 400%Z /\
  status_code (Static.handleRequest w h
                 (set_uri "/nothing.html" (set_method HEAD new))) = 404%Z.
Proof.
  cbv zeta. split.
  - apply C6_traversal_400_missing_404. now exists "/", "/index.html".
  - apply C6_traversal_400_missing_404.
    + intros H. apply FindFacts.find_contains in H. now apply H.
    + right. reflexivity.
    + reflexivity.
Defined.

(** ** Facts about the upload file names *)

Module UploadFacts.
Import Str StrFacts Upload.

Lemma after_last_separator_find (s acc : string) :
  after_last_separator s acc
  = match find_last_of s separators with
    | Some last_slash => substr_from s (last_slash + 1)
    | None => acc ++ s
    end.
Proof.
  revert acc; induction s as [|c s IH]; intros acc; cbn [after_last_separator find_last_of].
  - now rewrite append_nil_r.
  - destruct (mem c separators); rewrite IH;
      destruct (find_last_of s separators) as [i|]; try reflexivity.
    now rewrite append_assoc.
Qed.

Lemma safe_char_in_charset (c : ascii) : safe_char c = in_charset c.
Proof.
  unfold safe_char, in_charset, isalnum, isupper, islower, isdigit.
  cbn [mem]. now rewrite orb_false_r, !orb_assoc.
Qed.

Lemma map_replace_unsafe (s : string) :
  map (fun c => if safe_char c then c else "_"%char) s = replace_unsafe s.
Proof.
  induction s as [|c s IH]; cbn [map replace_unsafe]; [reflexivity|].
  now rewrite safe_char_in_charset, IH.
Qed.

(** No character the loop writes is a path separator. *)
Lemma written_char_not_separator (c : ascii) :
  mem (if in_charset c then c else "_"%char) separators = false.
Proof.
  destruct c as [[|] [|] [|] [|] [|] [|] [|] [|]]; reflexivity.
Qed.

Lemma replace_unsafe_no_separator (s : string) (c : ascii) :
  mem c separators = true -> Request.occurs c (replace_unsafe s) = false.
Proof.
  intros Hc. induction s as [|x s IH]; cbn [replace_unsafe Request.occurs];
    [reflexivity|].
  rewrite IH, orb_false_r. apply Ascii.eqb_neq. intros E.
  pose proof (written_char_not_separator x) as H. rewrite E in H. congruence.
Qed.

End UploadFacts.

(** C7.  The file name the upload gateway computes is the name obtained
    by dropping everything up to and including the last '/' or '\',
    replacing every character outside [A-Za-z0-9._-] by '_', and taking
    the placeholder "uploaded_file" for an empty result, "." and "..";
    hence it is never empty, never "." or "..", and holds no '/' or '\'. *)
Theorem C7_sanitized_filename (filename : string) :
  Upload.sanitizeFilename filename = Upload.sanitize_spec filename /\
  Upload.sanitizeFilename filename <> "" /\
  Upload.sanitizeFilename filename <> "." /\
  Upload.sanitizeFilename filename <> ".." /\
  occurs "/" (Upload.sanitizeFilename filename) = false /\
  occurs Str.BACKSLASH (Upload.sanitizeFilename filename) = false.
Proof.
  assert (E : Upload.sanitizeFilename filename = Upload.sanitize_spec filename).
  { unfold Upload.sanitizeFilename, Upload.sanitize_spec.
    rewrite UploadFacts.after_last_separator_find, UploadFacts.map_replace_unsafe.
    cbn [append].
    set (name := Upload.replace_unsafe _).
    destruct (string_dec name "") as [-> | H0]; [reflexivity|].
    apply StrFacts.is_empty_false in H0. rewrite H0. cbn [orb].
    destruct (string_dec name ".") as [-> | H1]; [reflexivity|].
    apply String.eqb_neq in H1. rewrite H1. cbn [orb].
    destruct (string_dec name "..") as [-> | H2]; [reflexivity|].
    apply String.eqb_neq in H2. now rewrite H2. }
  split; [exact E|]. rewrite E. unfold Upload.sanitize_spec.
  set (name := Upload.replace_unsafe _).
  assert (Hsep : forall c, Str.mem c Upload.separators = true ->
                 occurs c name = false)
    by (intros c; apply UploadFacts.replace_unsafe_no_separator).
  destruct (string_dec name "") as [H0 | H0];
    [repeat split; discriminate || reflexivity|].
  destruct (string_dec name ".") as [H1 | H1];
    [repeat split; discriminate || reflexivity|].
  destruct (string_dec name "..") as [H2 | H2];
    [repeat split; discriminate || reflexivity|].
  repeat split; try assumption; apply Hsep; reflexivity.
Qed.

(** ** Facts about the routing table *)

Module ConfigFacts.
Import Config.

Lemma find_prefix (uri path : string) :
  Str.find uri path 0 = Some 0 <-> is_prefix path uri.
Proof. apply FindFacts.find_zero. Qed.

(** The loop keeps a longest matching location among those seen. *)
Lemma findLocation_from_spec (uri : string) (locs : list LocationConfig) :
  forall (best : option LocationConfig) (len : nat),
    match best with
    | Some b => len = String.length (loc_path b) /\ is_prefix (loc_path b) uri
    | None => len = 0
    end ->
    match findLocation_from uri locs best len with
    | Some r =>
        (In r locs \/ best = Some r) /\
        is_prefix (loc_path r) uri /\
        len <= String.length (loc_path r) /\
        (forall l, In l locs -> is_prefix (loc_path l) uri ->
                   String.length (loc_path l) <= String.length (loc_path r))
    | None =>
        best = None /\
        (forall l, In l locs -> is_prefix (loc_path l) uri ->
                   String.length (loc_path l) = 0)
    end.
Proof.
  induction locs as [|loc locs IH]; intros best len Hbest; cbn [findLocation_from].
  - destruct best as [b|].
    + destruct Hbest as [-> Hp]. repeat split; auto. intros l [].
    + split; [reflexivity|]. intros l [].
  - assert (Hskip : ~ is_prefix (loc_path loc) uri \/
                    String.length (loc_path loc) <= len ->
            match findLocation_from uri locs best len with
            | Some r =>
                (In r (loc :: locs) \/ best = Some r) /\
                is_prefix (loc_path r) uri /\
                len <= String.length (loc_path r) /\
                (forall l, In l (loc :: locs) -> is_prefix (loc_path l) uri ->
                   String.length (loc_path l) <= String.length (loc_path r))
            | None =>
                best = None /\
                (forall l, In l (loc :: locs) -> is_prefix (loc_path l) uri ->
                   String.length (loc_path l) = 0)
            end).
    { intros Hno. specialize (IH best len Hbest).
      destruct (findLocation_from uri locs best len) as [r|].
      - destruct IH as (Hin & Hp & Hlen & Hmax).
        repeat split; auto.
        + destruct Hin; [left; now right | now right].
        + intros l [<- | Hl] Hpl; [|now apply Hmax].
          destruct Hno; [contradiction | lia].
      - destruct IH as (-> & Hmax). split; [reflexivity|].
        intros l [<- | Hl] Hpl; [|now apply Hmax].
        destruct Hno; [contradiction | lia]. }
    pose proof (find_prefix uri (loc_path loc)) as Hfp.
    destruct (Str.find uri (loc_path loc) 0) as [[|k]|].
    + destruct (Nat.ltb_spec len (String.length (loc_path loc))) as [Hlt|Hge].
      * assert (Hp : is_prefix (loc_path loc) uri) by now apply Hfp.
        specialize (IH (Some loc) (String.length (loc_path loc))
                       (conj eq_refl Hp)).
        destruct (findLocation_from uri locs (Some loc) _) as [r|].
        -- destruct IH as (Hin & Hpr & Hlen & Hmax).
           repeat split; auto; try lia.
           ++ destruct Hin as [Hin | [= <-]]; left; [now right | now left].
           ++ intros l [<- | Hl] Hpl; [lia | now apply Hmax].
        -- destruct IH as [[=] _].
      * apply Hskip. now right.
    + apply Hskip. left. intros Hp. apply Hfp in Hp. discriminate.
    + apply Hskip. left. intros Hp. apply Hfp in Hp. discriminate.
Qed.

(** A matching location with a non-empty path is enough for a location to
    be selected (one with an empty path never is: its length is not above
    the initial [best_match_len]). *)
Lemma findLocation_selects (uri : string) (server : ServerConfig)
    (l : LocationConfig) :
  In l (locations server) -> is_prefix (loc_path l) uri -> loc_path l <> "" ->
  findLocation uri server <> None.
Proof.
  intros Hin Hp Hne Hnone.
  pose proof (findLocation_from_spec uri (locations server) None 0 eq_refl) as H.
  fold (findLocation uri server) in H. rewrite Hnone in H.
  destruct H as [_ H]. specialize (H l Hin Hp).
  destruct (loc_path l); [congruence | discriminate].
Qed.

(** What the loop selects is the match it started with or a location
    whose path is longer than [best_match_len]; started with none and 0,
    it never selects a location with an empty path. *)
Lemma findLocation_from_longer (uri : string) (locs : list LocationConfig) :
  forall (best : option LocationConfig) (len : nat) (r : LocationConfig),
    findLocation_from uri locs best len = Some r ->
    best = Some r \/ len < String.length (loc_path r).
Proof.
  induction locs as [|loc locs IH]; intros best len r; cbn [findLocation_from].
  - intros ->. now left.
  - destruct (Str.find uri (loc_path loc) 0) as [[|k]|];
      try (now apply IH).
    destruct (Nat.ltb_spec len (String.length (loc_path loc))) as [Hlt|Hge];
      [|now apply IH].
    intros Hfind. right.
    destruct (IH _ _ r Hfind) as [[= <-] | H]; [exact Hlt | lia].
Qed.

Lemma findLocation_nonempty (uri : string) (server : ServerConfig)
    (r : LocationConfig) :
  findLocation uri server = Some r -> loc_path r <> "".
Proof.
  intros Hfind.
  destruct (findLocation_from_longer uri _ None 0 r Hfind) as [[=] | H].
  intros E. rewrite E in H. inversion H.
Qed.

Lemma method_allowed_In (methods : list string) (method_str : string) :
  existsb (fun m => String.eqb m method_str) methods = false
  <-> ~ In method_str methods.
Proof.
  induction methods as [|m ms IH]; cbn [existsb In]; [tauto|].
  rewrite orb_false_iff, IH, String.eqb_neq. tauto.
Qed.

End ConfigFacts.

(** C8.  A location is selected exactly when the path of some location
    of the table is not empty and is a prefix of the URI (a location with
    an empty path is never selected); the location [findLocation] selects
    is in the table, its path is not empty and is a prefix of the URI, and
    no location whose path is a prefix of the URI has a longer path; when
    no location with a path that is not empty has a path that is a prefix
    of the URI, and so when no location's path is a prefix of the URI, the
    response is 404; when a location is selected and its methods do not
    include the request's method the response is 405. *)
Theorem C8_longest_prefix_routing (w : World) (server_config : ServerConfig)
    (request : HttpRequest) :
  ((exists l, In l (locations server_config) /\
              Config.is_prefix (loc_path l) (uri request) /\ loc_path l <> "")
   <-> (exists location,
          Config.findLocation (uri request) server_config = Some location)) /\
  (forall location,
     Config.findLocation (uri request) server_config = Some location ->
     In location (locations server_config) /\
     Config.is_prefix (loc_path location) (uri request) /\
     loc_path location <> "" /\
     (forall l, In l (locations server_config) ->
                Config.is_prefix (loc_path l) (uri request) ->
                String.length (loc_path l) <= String.length (loc_path location))) /\
  ((forall l, In l (locations server_config) -> loc_path l <> "" ->
              ~ Config.is_prefix (loc_path l) (uri request)) ->
     Config.findLocation (uri request) server_config = None /\
     status_code (Server.buildResponse w server_config request) = 404%Z) /\
  (forall location,
     Config.findLocation (uri request) server_config = Some location ->
     ~ In (getMethodString request) (loc_methods location) ->
     status_code (Server.buildResponse w server_config request) = 405%Z).
Proof.
  pose proof (ConfigFacts.findLocation_from_spec (uri request)
                (locations server_config) None 0 eq_refl) as Hspec.
  fold (Config.findLocation (uri request) server_config) in Hspec.
  assert (Hsel : forall location,
            Config.findLocation (uri request) server_config = Some location ->
            In location (locations server_config) /\
            Config.is_prefix (loc_path location) (uri request) /\
            loc_path location <> "" /\
            (forall l, In l (locations server_config) ->
                       Config.is_prefix (loc_path l) (uri request) ->
                       String.length (loc_path l)
                       <= String.length (loc_path location))).
  { intros location Hfind.
    pose proof (ConfigFacts.findLocation_nonempty _ _ _ Hfind) as Hne.
    rewrite Hfind in Hspec.
    destruct Hspec as ([Hin | [=]] & Hp & _ & Hmax). auto. }
  split; [|split; [exact Hsel|split]].
  - split.
    + intros (l & Hin & Hp & Hne).
      destruct (Config.findLocation (uri request) server_config) as [r|] eqn:E;
        [now exists r|].
      elim (ConfigFacts.findLocation_selects _ _ l Hin Hp Hne E).
    + intros (location & Hfind).
      destruct (Hsel location Hfind) as (Hin & Hp & Hne & _).
      now exists location.
  - intros Hnone.
    assert (E : Config.findLocation (uri request) server_config = None).
    { destruct (Config.findLocation (uri request) server_config) as [r|] eqn:E;
        [|reflexivity].
      destruct (Hsel r eq_refl) as (Hin & Hp & Hne & _).
      elim (Hnone r Hin Hne Hp). }
    split; [exact E|]. unfold Server.buildResponse. now rewrite E.
  - intros location Hfind Hnot. unfold Server.buildResponse. rewrite Hfind.
    apply ConfigFacts.method_allowed_In in Hnot. now rewrite Hnot.
Qed.

Lemma C8_witness :
  let images := mkLocation "/images" "./img" "index.html" false ["GET"]
                  StdMap.empty "" in
  let cfg := mkServer 8080 "0.0.0.0" "webserv" 1048576
               [Config.root_location; images] [] in
  let request := set_uri "/images/cat.png" (set_method POST new) in
  Config.findLocation (uri request) cfg = Some images /\
  status_code (Server.buildResponse (world_with_script "" "") cfg request)
  = 405%Z.
Proof.
  cbv zeta. split; [reflexivity|].
  destruct (C8_longest_prefix_routing (world_with_script "" "")
              (mkServer 8080 "0.0.0.0" "webserv" 1048576
                 [Config.root_location;
                  mkLocation "/images" "./img" "index.html" false ["GET"]
                    StdMap.empty ""] [])
              (set_uri "/images/cat.png" (set_method POST new)))
    as (_ & _ & _ & H).
  apply (H (mkLocation "/images" "./img" "index.html" false ["GET"]
              StdMap.empty "")).
  - reflexivity.
  - cbn. intros [H1 | []]. discriminate H1.
Defined.

(** A location with an empty path is a prefix of every URI and, alone in
    the table, the longest match; it is not selected, and the answer is
    404. *)
Lemma C8_counterexample :
  let catch_all := mkLocation "" "./www" "index.html" false ["GET"]
                     StdMap.empty "" in
  let cfg := mkServer 8080 "0.0.0.0" "webserv" 1048576 [catch_all] [] in
  let request := set_uri "/index.html" (set_method GET new) in
  In catch_all (locations cfg) /\
  Config.is_prefix (loc_path catch_all) (uri request) /\
  (forall l, In l (locations cfg) ->
             Config.is_prefix (loc_path l) (uri request) ->
             String.length (loc_path l) <= String.length (loc_path catch_all)) /\
  Config.findLocation (uri request) cfg = None /\
  status_code (Server.buildResponse (world_with_script "" "") cfg request)
  = 404%Z.
Proof.
  cbv zeta. split; [now left|]. split; [now exists "/index.html"|].
  split; [|split; reflexivity].
  intros l [<- | []] _. apply Nat.le_refl.
Qed.

(** C10.  The methods check is a plain membership test of the method
    string in the location's list: a request whose method string is not in
    the list of the matched location gets the 405 response, so a location
    with an empty list refuses every method; with the built-in default
    configuration (GET, POST and DELETE on "/") every HEAD and every PUT
    request that matches the location, which is every one whose URI begins
    with "/", gets that 405 response, whatever the world holds: no handler
    is consulted. *)
Theorem C10_methods_checked_by_membership (w : World)
    (server_config : ServerConfig) (request : HttpRequest)
    (location : LocationConfig) :
  (Config.findLocation (uri request) server_config = Some location ->
   ~ In (getMethodString request) (loc_methods location) ->
     Server.buildResponse w server_config request
     = Response.methodNotAllowed "Method not allowed for this location") /\
  (Config.findLocation (uri request) server_config = Some location ->
   loc_methods location = [] ->
     Server.buildResponse w server_config request
     = Response.methodNotAllowed "Method not allowed for this location") /\
  (method request = HEAD \/ method request = PUT ->
   Config.findLocation (uri request) Config.default_config = Some location ->
     Server.buildResponse w Config.default_config request
     = Response.methodNotAllowed "Method not allowed for this location" /\
     status_code (Server.buildResponse w Config.default_config request)
     = 405%Z) /\
  (method request = HEAD \/ method request = PUT ->
   Config.is_prefix "/" (uri request) ->
     Server.buildResponse w Config.default_config request
     = Response.methodNotAllowed "Method not allowed for this location").
Proof.
  assert (H1 : forall cfg loc,
             Config.findLocation (uri request) cfg = Some loc ->
             ~ In (getMethodString request) (loc_methods loc) ->
             Server.buildResponse w cfg request
             = Response.methodNotAllowed "Method not allowed for this location").
  { intros cfg loc Hfind Hnot. unfold Server.buildResponse. rewrite Hfind.
    apply ConfigFacts.method_allowed_In in Hnot. now rewrite Hnot. }
  assert (H2 : method request = HEAD \/ method request = PUT ->
               ~ In (getMethodString request)
                   (loc_methods Config.root_location)).
  { unfold getMethodString. intros [-> | ->]; cbn; intuition discriminate. }
  split; [apply H1 | split; [|split]].
  - intros Hfind Hnil. apply (H1 _ _ Hfind). rewrite Hnil. intros [].
  - intros Hm Hfind.
    assert (Hloc : location = Config.root_location).
    { unfold Config.findLocation in Hfind. cbn [locations Config.default_config
        Config.findLocation_from] in Hfind.
      destruct (Str.find (uri request) (loc_path Config.root_location) 0)
        as [[|k]|]; cbn in Hfind; congruence. }
    subst location.
    rewrite (H1 _ _ Hfind (H2 Hm)). split; reflexivity.
  - intros Hm Hp. apply (H1 _ Config.root_location); [|exact (H2 Hm)].
    apply ConfigFacts.find_prefix in Hp.
    unfold Config.findLocation.
    cbn [locations Config.default_config Config.findLocation_from].
    change (loc_path Config.root_location) with "/". now rewrite Hp.
Qed.

Lemma C10_witness :
  let request := snd (parse ("HEAD /index.html HTTP/1.1" ++ Str.CRLFCRLF) new) in
  status_code (Server.buildResponse (world_with_script "./www/index.html" "")
                 Config.default_config request) = 405%Z.
Proof.
  cbv zeta.
  eapply (C10_methods_checked_by_membership _ Config.default_config).
  - left. reflexivity.
  - reflexivity.
Defined.

Lemma sanitizeFilename_examples :
  Upload.sanitizeFilename "../../etc/passwd" = "passwd" /\
  Upload.sanitizeFilename "my file (1).txt" = "my_file__1_.txt" /\
  Upload.sanitizeFilename "dir/.." = "uploaded_file" /\
  Upload.sanitizeFilename "" = "uploaded_file".
Proof. repeat split. Qed.


(* ===================================================================== *)
(** * Further properties of the request parser *)
(* ===================================================================== *)

Module InvariantFacts.
Import Str StrFacts ParserFacts.

Lemma tolower_idempotent (c : ascii) : tolower (tolower c) = tolower c.
Proof. destruct c as [[|] [|] [|] [|] [|] [|] [|] [|]]; reflexivity. Qed.

Lemma toLower_idempotent (s : string) : toLower (toLower s) = toLower s.
Proof.
  unfold toLower. induction s as [|c s IH]; cbn [map]; [reflexivity|].
  now rewrite tolower_idempotent, IH.
Qed.

Lemma insert_keys (P : string -> Prop) (k v : string) (m : StdMap.t) :
  P k -> Forall (fun kv => P (fst kv)) m ->
  Forall (fun kv => P (fst kv)) (StdMap.insert k v m).
Proof.
  intros Hk. induction m as [|[k' v'] m IH]; intros Hm; cbn [StdMap.insert].
  - constructor; [exact Hk | constructor].
  - inversion Hm as [|x l Hx Hl]; subst.
    destruct (String.compare k k'); constructor; auto.
Qed.

Lemma parseRequestLine_effect (line : string) (r : HttpRequest) :
  let r' := parseRequestLine line r in
  headers r' = headers r /\ body r' = body r /\
  content_length r' = content_length r /\
  ((state r' = ERROR /\
    (error_code r' = 400%Z \/ error_code r' = 405%Z \/ error_code r' = 505%Z))
   \/ (state r' = HEADERS /\ error_code r' = error_code r)).
Proof.
  cbv zeta. unfold parseRequestLine.
  destruct (extract (open_stream line) "") as [iss1 m].
  destruct (extract iss1 (uri r)) as [iss2 u].
  destruct (extract iss2 (http_version r)) as [iss3 v]; rsimpl.
  destruct (HttpMethod_eqb (stringToMethod m) UNKNOWN); [rsimpl; auto 8|].
  destruct (is_empty u || is_empty v); [rsimpl; auto 8|].
  destruct (negb (v =? "HTTP/1.1")%string && negb (v =? "HTTP/1.0")%string);
    [rsimpl; auto 8|].
  unfold parseQueryString; rsimpl.
  destruct (find_char u "?"); rsimpl; auto 8.
Qed.

Lemma parseHeader_effect (line : string) (r : HttpRequest) :
  let r' := parseHeader line r in
  body r' = body r /\ content_length r' = content_length r /\
  ((state r' = ERROR /\ error_code r' = 400%Z /\ headers r' = headers r)
   \/ (state r' = state r /\ error_code r' = error_code r /\
       exists k v, headers r' = StdMap.insert (toLower k) v (headers r))).
Proof.
  cbv zeta. unfold parseHeader.
  destruct (find_char line ":"); rsimpl; [|auto 8].
  split; [reflexivity|]. split; [reflexivity|]. right.
  split; [reflexivity|]. split; [reflexivity|]. eauto.
Qed.

Lemma endOfHeaders_effect (r : HttpRequest) :
  let r' := endOfHeaders r in
  headers r' = headers r /\ body r' = body r /\ error_code r' = error_code r /\
  (state r' = BODY \/ (state r' = COMPLETE /\ content_length r' = 0%N)).
Proof.
  cbv zeta. unfold endOfHeaders.
  assert (H1 : headers (readContentLength r) = headers r /\
               body (readContentLength r) = body r /\
               error_code (readContentLength r) = error_code r).
  { unfold readContentLength.
    destruct (negb (is_empty (getHeader r "Content-Length"))); rsimpl; auto. }
  generalize dependent (readContentLength r). intros r1 (Ha & Hb & Hc).
  assert (H2 : headers (readBoundary r1) = headers r1 /\
               body (readBoundary r1) = body r1 /\
               error_code (readBoundary r1) = error_code r1 /\
               content_length (readBoundary r1) = content_length r1).
  { unfold readBoundary.
    destruct (find (getHeader r1 "Content-Type") "multipart/form-data" 0);
      [destruct (find (getHeader r1 "Content-Type") "boundary=" 0)|];
      rsimpl; auto. }
  generalize dependent (readBoundary r1). intros r2 (Ha2 & Hb2 & Hc2 & Hd2).
  destruct (0 <? content_length r2)%N eqn:Hlen; cbn [orb]; rsimpl.
  - repeat split; try congruence. now left.
  - destruct (isChunked r2); rsimpl; repeat split; try congruence;
      [now left|]. right. split; [reflexivity|].
    apply N.ltb_ge in Hlen. lia.
Qed.

Lemma consistent_new : consistent new.
Proof.
  unfold consistent; cbn. repeat split; auto; try discriminate.
  intros H. now elim H.
Qed.

Lemma consistent_extend (e : string) (r : HttpRequest) :
  consistent r -> consistent (extend e r).
Proof.
  unfold consistent; rsimpl. rewrite length_append.
  intros (H1 & H2 & H3 & H4 & H5 & H6). repeat split; try tauto; lia.
Qed.

Lemma consistent_inv (r : HttpRequest) : consistent r -> inv r.
Proof. now intros [H _]. Qed.

Lemma consistent_intro (r : HttpRequest) :
  bytes_parsed r <= String.length (raw_data r) ->
  ((state r = ERROR /\
    (error_code r = 400 \/ error_code r = 405 \/ error_code r = 431 \/
     error_code r = 501 \/ error_code r = 505)%Z)
   \/ (state r <> ERROR /\ error_code r = 0%Z)) ->
  (state r <> COMPLETE -> body r = "") ->
  (state r = COMPLETE -> N.of_nat (String.length (body r)) = content_length r) ->
  Forall (fun kv => toLower (fst kv) = fst kv) (headers r) ->
  consistent r.
Proof.
  intros H1 H2 H3 H4 H5. unfold consistent.
  refine (conj H1 (conj (conj _ _) (conj _ (conj H3 (conj H4 H5))))).
  - intros Hs. destruct H2 as [[_ H] | [H _]]; [|contradiction].
    destruct H as [-> | [-> | [-> | [-> | ->]]]]; discriminate.
  - intros Hne. destruct H2 as [[H _] | [_ H]]; [exact H | contradiction].
  - cbn [In]. destruct H2 as [[_ H] | [_ H]]; intuition auto.
Qed.

(** One pass of the loop keeps the object consistent. *)
Lemma step_consistent (r : HttpRequest) :
  consistent r -> terminal r = false ->
  match step r with
  | Return b r' => b = false /\ consistent r' /\ state r' <> COMPLETE
  | Continue r' => consistent r'
  end.
Proof.
  intros Hc Ht. pose proof Hc as (Hinv & Herr & Hcodes & Hbody & Hlen & Hkeys).
  assert (Hnc : state r <> COMPLETE)
    by (unfold terminal in Ht; destruct (state r); discriminate).
  assert (Hne : state r <> ERROR)
    by (unfold terminal in Ht; destruct (state r); discriminate).
  assert (H0 : error_code r = 0%Z).
  { destruct (Z.eq_dec (error_code r) 0) as [E|E]; [exact E|].
    apply Herr in E. contradiction. }
  specialize (Hbody Hnc).
  pose proof (step_view r Ht) as V.
  destruct V as [Hh Hf Hl | Hh Hf Hl | k Hs Hf | k Hs Hf He | k Hs Hf He
                | Hs Hc' | Hs Hc' Hl | Hs Hc' Hl].
  - auto.
  - split; [reflexivity|]. split; [|rsimpl; discriminate].
    apply consistent_intro; rsimpl; auto 8; discriminate.
  - pose proof (parseRequestLine_effect (line_of r k)
                  (set_bytes_parsed (k + 2) r)) as (Ea & Eb & Ec & Ed).
    pose proof (parseRequestLine_frame (line_of r k)
                  (set_bytes_parsed (k + 2) r)) as (Fa & Fb & _).
    cbv zeta in *. rsimpl. apply find_bound in Hf. simpl in Hf.
    apply consistent_intro; rewrite ?Ea, ?Eb, ?Fa, ?Fb; auto; try lia.
    + destruct Ed as [(Es & Ee) | (Es & Ee)].
      * left. split; [exact Es|]. intuition auto.
      * right. split; [rewrite Es; discriminate | congruence].
    + intros Hs'. destruct Ed as [(Es & _) | (Es & _)]; congruence.
  - pose proof (parseHeader_effect (line_of r k)
                  (set_bytes_parsed (k + 2) r)) as (Eb & Ec & Ed).
    pose proof (parseHeader_frame (line_of r k)
                  (set_bytes_parsed (k + 2) r)) as (Fa & Fb & _).
    cbv zeta in *. rsimpl. apply find_bound in Hf. simpl in Hf.
    apply consistent_intro; rewrite ?Eb, ?Fa, ?Fb; auto; try lia.
    + destruct Ed as [(Es & Ee & Eh) | (Es & Ee & kk & vv & Eh)].
      * left. auto.
      * right. split; congruence.
    + intros Hs'. destruct Ed as [(Es & _) | (Es & _)]; congruence.
    + destruct Ed as [(Es & Ee & Eh) | (Es & Ee & kk & vv & Eh)]; rewrite Eh;
        [exact Hkeys|].
      apply (insert_keys (fun k => toLower k = k)); [|exact Hkeys].
      apply toLower_idempotent.
  - pose proof (endOfHeaders_effect (set_bytes_parsed (k + 2) r))
      as (Ea & Eb & Ee & Ed).
    pose proof (endOfHeaders_frame (set_bytes_parsed (k + 2) r))
      as (Fa & Fb & _).
    cbv zeta in *. rsimpl. apply find_bound in Hf. simpl in Hf.
    apply consistent_intro; rewrite ?Ea, ?Eb, ?Fa, ?Fb; auto; try lia.
    + right. split; [|congruence].
      destruct Ed as [Es | (Es & _)]; rewrite Es; discriminate.
    + intros Hs'. rewrite Hbody. destruct Ed as [Es | (Es & Ecl)];
        [congruence | now rewrite Ecl].
  - split; [reflexivity|]. split; [|rsimpl; discriminate].
    apply consistent_intro; rsimpl; auto 8; discriminate.
  - apply N.leb_le in Hl.
    apply consistent_intro; rsimpl; auto; try lia.
    + right. split; [discriminate | exact H0].
    + intros H. now elim H.
    + intros _. unfold substr. rewrite length_take, length_drop. lia.
  - auto.
Qed.

Lemma run_consistent (r : HttpRequest) :
  consistent r ->
  consistent (snd (run r)) /\
  fst (run r) = ParseState_eqb (state (snd (run r))) COMPLETE.
Proof.
  intros Hc. pose proof (consistent_inv r Hc) as Hinv. revert r Hinv Hc.
  apply (loop_ind (fun r => consistent r -> _)). intros r Hinv IH Hc.
  rewrite (run_unfold r Hinv).
  destruct (terminal r) eqn:Ht; [split; [exact Hc | reflexivity]|].
  pose proof (step_consistent r Hc Ht) as Hs.
  destruct (step r) as [b r'|r'] eqn:Hstep.
  - destruct Hs as (-> & Hc' & Hnc). cbn [fst snd]. split; [exact Hc'|].
    destruct (state r'); try reflexivity. now elim Hnc.
  - destruct (terminal r') eqn:Ht'.
    + rewrite (run_unfold r' (consistent_inv r' Hs)), Ht'. split; [exact Hs | reflexivity].
    + now apply IH.
Qed.

Lemma parse_consistent (data : string) (r : HttpRequest) :
  consistent r ->
  consistent (snd (parse data r)) /\
  fst (parse data r) = ParseState_eqb (state (snd (parse data r))) COMPLETE.
Proof.
  intros Hc. unfold parse. destruct (terminal r); cbn [fst snd].
  - split; [exact Hc | reflexivity].
  - apply run_consistent. now apply consistent_extend.
Qed.

Lemma feed_consistent (chunks : list string) : consistent (feed chunks new).
Proof.
  induction chunks as [|c cs IH] using rev_ind.
  - apply consistent_new.
  - rewrite feed_snoc. now apply parse_consistent.
Qed.

End InvariantFacts.

(** X1.  Whatever chunks a fresh request has been fed and whatever data
    comes next, the loop of [parse] returns (the fuel of the model is never
    used up) and leaves the cursor inside the buffer, so that
    [raw_data.size() - bytes_parsed] never wraps around. *)
Theorem parse_returns_with_cursor_in_buffer (chunks : list string)
    (data : string) :
  let r := extend data (feed chunks new) in
  parse_loop (S (String.length (raw_data r))) r <> None /\
  bytes_parsed (snd (parse data (feed chunks new)))
  <= String.length (raw_data (snd (parse data (feed chunks new)))).
Proof.
  cbv zeta. split.
  - apply ParserFacts.parse_loop_enough_fuel, ParserFacts.inv_extend,
      ParserFacts.feed_inv.
  - apply InvariantFacts.consistent_inv, InvariantFacts.parse_consistent,
      InvariantFacts.feed_consistent.
Qed.

(** X2.  On a request fed by earlier calls, [parse] returns true exactly
    when it leaves the state COMPLETE. *)
Theorem parse_true_iff_complete (chunks : list string) (data : string) :
  fst (parse data (feed chunks new)) = true
  <-> state (snd (parse data (feed chunks new))) = COMPLETE.
Proof.
  destruct (InvariantFacts.parse_consistent data _
              (InvariantFacts.feed_consistent chunks)) as [_ ->].
  destruct (state _); cbn; split; congruence.
Qed.

(** X3.  After any sequence of calls the state is ERROR exactly when the
    error code is not 0, and the error code is one of 0, 400, 405, 431,
    501 and 505. *)
Theorem error_state_iff_error_code (chunks : list string) :
  let r := feed chunks new in
  (state r = ERROR <-> error_code r <> 0%Z) /\
  In (error_code r) [0; 400; 405; 431; 501; 505]%Z.
Proof.
  cbv zeta.
  destruct (InvariantFacts.feed_consistent chunks) as (_ & H & Hc & _). auto.
Qed.

(** X4.  After any sequence of calls the body is empty unless the request
    is COMPLETE, and then its length is the declared content length. *)
Theorem body_has_declared_length (chunks : list string) :
  let r := feed chunks new in
  (state r <> COMPLETE -> body r = "") /\
  (state r = COMPLETE -> N.of_nat (String.length (body r)) = content_length r).
Proof.
  cbv zeta.
  destruct (InvariantFacts.feed_consistent chunks) as (_ & _ & _ & H & H' & _).
  auto.
Qed.


(** X5.  Once a call of [parse] on a request fed by earlier calls has ended
    with the request COMPLETE, or in ERROR with a code other than 431, the
    same call with further bytes behind the data ends in the same way:
    whatever follows the request in the buffer is not looked at. *)
Theorem parse_ignores_bytes_after_the_request (chunks : list string)
    (data extra : string) :
  terminal (feed chunks new) = false ->
  terminal (snd (parse data (feed chunks new))) = true ->
  error_code (snd (parse data (feed chunks new))) <> 431%Z ->
  parse (data ++ extra) (feed chunks new)
  = (fst (parse data (feed chunks new)),
     extend extra (snd (parse data (feed chunks new)))).
Proof.
  intros Ht Hdone Hcode. unfold parse in *. rewrite Ht in *.
  change (set_raw_data (raw_data (feed chunks new) ++ data) (feed chunks new))
    with (extend data (feed chunks new)) in *.
  change (set_raw_data (raw_data (feed chunks new) ++ data ++ extra)
            (feed chunks new))
    with (extend (data ++ extra) (feed chunks new)).
  rewrite <- ParserFacts.extend_extend.
  destruct (ParserFacts.run_resume extra (extend data (feed chunks new))
              (ParserFacts.inv_extend data _ (ParserFacts.feed_inv chunks)) Ht)
    as (_ & _ & H).
  exact (H Hdone Hcode).
Qed.

Lemma parse_ignores_bytes_after_the_request_witness :
  parse (("GET / HTTP/1.1" ++ Str.CRLFCRLF) ++ "GET /next HTTP/1.1") new
  = (true,
     extend "GET /next HTTP/1.1"
       (snd (parse ("GET / HTTP/1.1" ++ Str.CRLFCRLF) new))).
Proof.
  apply (parse_ignores_bytes_after_the_request []
           ("GET / HTTP/1.1" ++ Str.CRLFCRLF) "GET /next HTTP/1.1").
  - reflexivity.
  - reflexivity.
  - vm_compute. discriminate.
Defined.

(** ** Facts about the header map *)

Module MapFacts.

Lemma compare_refl (s : string) : String.compare s s = Eq.
Proof.
  pose proof (String.compare_antisym s s) as H.
  destruct (String.compare s s); [reflexivity | discriminate | discriminate].
Qed.

Lemma compare_Eq (a b : string) : String.compare a b = Eq <-> a = b.
Proof.
  split; [apply String.compare_eq_iff | intros ->; apply compare_refl].
Qed.

(** [m[k] = v] then [m.find(k)] *)
Lemma find_insert_eq (k v : string) (m : StdMap.t) :
  StdMap.find k (StdMap.insert k v m) = Some v.
Proof.
  induction m as [|[k' v'] m IH]; cbn [StdMap.insert StdMap.find].
  - now rewrite String.eqb_refl.
  - destruct (String.compare k k') eqn:E; cbn [StdMap.find].
    + now rewrite String.eqb_refl.
    + now rewrite String.eqb_refl.
    + destruct (String.eqb_spec k k') as [->|_]; [|exact IH].
      rewrite compare_refl in E. discriminate.
Qed.

(** [m[k] = v] then [m.find(k')] for another key *)
Lemma find_insert_ne (k k' v : string) (m : StdMap.t) :
  k' <> k -> StdMap.find k' (StdMap.insert k v m) = StdMap.find k' m.
Proof.
  intros Hne. induction m as [|[k0 v0] m IH]; cbn [StdMap.insert StdMap.find].
  - apply String.eqb_neq in Hne. now rewrite Hne.
  - destruct (String.compare k k0) eqn:E; cbn [StdMap.find].
    + apply compare_Eq in E. subst k0.
      apply String.eqb_neq in Hne. now rewrite Hne.
    + apply String.eqb_neq in Hne. now rewrite Hne.
    + now rewrite IH.
Qed.

End MapFacts.

(** X6.  A header line "name: value" whose name holds no colon makes
    [getHeader] answer the trimmed value for that name in any letter case,
    replacing whatever an earlier line stored under it, and leaves the
    answer for every other name, and the parser state, as they were. *)
Theorem header_line_then_getHeader (name value key : string) (r : HttpRequest) :
  occurs ":" name = false ->
  let r' := parseHeader (name ++ String ":" value) r in
  state r' = state r /\ error_code r' = error_code r /\
  (toLower key = toLower (trim name) -> getHeader r' key = trim value) /\
  (toLower key <> toLower (trim name) -> getHeader r' key = getHeader r key).
Proof.
  intros Hname r'. subst r'. unfold parseHeader.
  rewrite RequestLineFacts.find_char_0,
    (RequestLineFacts.find0_char_split _ name value Hname).
  unfold getHeader. ParserFacts.rsimpl.
  unfold Str.substr, Str.substr_from. cbn [Str.drop].
  rewrite StrFacts.take_length_append.
  rewrite <- StrFacts.drop_drop, StrFacts.drop_length_append. cbn [Str.drop].
  split; [reflexivity|]. split; [reflexivity|]. split.
  - intros ->. now rewrite MapFacts.find_insert_eq.
  - intros Hne. now rewrite MapFacts.find_insert_ne.
Qed.

Lemma header_line_then_getHeader_witness :
  getHeader (parseHeader "Content-Type:  text/plain " new) "CONTENT-TYPE"
  = "text/plain".
Proof.
  apply (header_line_then_getHeader "Content-Type" "  text/plain "
           "CONTENT-TYPE" new); reflexivity.
Defined.

(** X7.  On every request fed by calls of [parse], each header name in the
    map is in lower case, so that [getHeader], which folds its argument to
    lower case, can find every stored header. *)
Theorem header_names_are_lower_case (chunks : list string) (k v : string) :
  In (k, v) (headers (feed chunks new)) -> toLower k = k.
Proof.
  intros Hin.
  destruct (InvariantFacts.feed_consistent chunks) as (_ & _ & _ & _ & _ & H).
  rewrite Forall_forall in H. exact (H (k, v) Hin).
Qed.

Lemma header_names_are_lower_case_witness :
  toLower "host" = "host".
Proof.
  apply (header_names_are_lower_case
           ["GET / HTTP/1.1" ++ Str.CRLF ++ "Host: h" ++ Str.CRLF] "host" "h").
  left. reflexivity.
Defined.


(* ===================================================================== *)
(** * Further properties: trimming *)
(* ===================================================================== *)

Module TrimFacts.
Import Str StrFacts.

Lemma first_last_none (s : string) :
  find_first_not_of s ws = None <-> find_last_not_of s ws = None.
Proof.
  induction s as [|c s IH]; cbn [find_first_not_of find_last_not_of];
    [tauto|].
  destruct (mem c ws).
  - destruct (find_first_not_of s ws), (find_last_not_of s ws); cbn;
      split; try congruence; intros _.
    + destruct IH as [_ IH]. specialize (IH eq_refl). discriminate.
    + destruct IH as [IH _]. specialize (IH eq_refl). discriminate.
  - destruct (find_last_not_of s ws); split; discriminate.
Qed.

Lemma strip_right_last (s : string) :
  strip_right s
  = match find_last_not_of s ws with
    | Some j => take (S j) s
    | None => ""
    end.
Proof.
  induction s as [|c s IH]; cbn [strip_right find_last_not_of]; [reflexivity|].
  rewrite IH. destruct (find_last_not_of s ws) as [j|] eqn:E.
  - destruct s as [|a s]; [discriminate E | reflexivity].
  - destruct (mem c ws); reflexivity.
Qed.

Lemma trim_blank_head (c : ascii) (s : string) :
  mem c ws = true -> trim (String c s) = trim s.
Proof.
  intros Hc. unfold trim. cbn [find_first_not_of find_last_not_of].
  rewrite Hc. pose proof (first_last_none s) as Hn.
  destruct (find_first_not_of s ws) as [i|]; cbn [option_map].
  - destruct (find_last_not_of s ws) as [j|]; [|reflexivity].
    unfold substr. cbn [drop]. reflexivity.
  - reflexivity.
Qed.

(** [trim] drops the blanks at both ends and nothing else. *)
Lemma trim_strip (s : string) : trim s = strip_right (strip_left s).
Proof.
  induction s as [|c s IH]; [reflexivity|].
  cbn [strip_left]. destruct (mem c ws) eqn:Hc.
  - now rewrite trim_blank_head.
  - rewrite strip_right_last. unfold trim.
    cbn [find_first_not_of find_last_not_of]. rewrite Hc.
    destruct (find_last_not_of s ws) as [j|]; unfold substr; cbn [drop];
      [|reflexivity].
    replace (S j - 0 + 1) with (S (S j)) by lia. reflexivity.
Qed.

Lemma strip_left_split (s : string) :
  exists l, s = l ++ strip_left s /\ all_blank l = true.
Proof.
  induction s as [|c s (l & E & Hl)]; [now exists ""|].
  cbn [strip_left]. destruct (mem c ws) eqn:Hc.
  - exists (String c l). cbn [append all_blank]. now rewrite Hc, Hl, <- E.
  - now exists "".
Qed.

Lemma strip_right_split (s : string) :
  exists t, s = strip_right s ++ t /\ all_blank t = true.
Proof.
  induction s as [|c s (t & E & Ht)]; [now exists ""|].
  cbn [strip_right]. destruct (strip_right s) as [|a u] eqn:Hs.
  - destruct (mem c ws) eqn:Hc.
    + exists (String c t). cbn [append all_blank] in *. subst s.
      now rewrite Hc, Ht.
    + exists t. cbn [append] in *. now subst s.
  - exists t. cbn [append] in *. now rewrite <- E.
Qed.

Lemma strip_left_head (s : string) : begins_blank (strip_left s) = false.
Proof.
  induction s as [|c s IH]; [reflexivity|].
  cbn [strip_left]. destruct (mem c ws) eqn:Hc; [exact IH | exact Hc].
Qed.

Lemma strip_right_head (s : string) :
  begins_blank s = false -> begins_blank (strip_right s) = false.
Proof.
  destruct s as [|c s]; [reflexivity|]. cbn [begins_blank strip_right].
  intros Hc. destruct (strip_right s); [now rewrite Hc | exact Hc].
Qed.

Lemma strip_right_end (s : string) : ends_blank (strip_right s) = false.
Proof.
  unfold ends_blank. induction s as [|c s IH]; [reflexivity|].
  cbn [strip_right]. destruct (strip_right s) as [|a u] eqn:Hs.
  - destruct (mem c ws) eqn:Hc; cbn [last_char]; [reflexivity | exact Hc].
  - cbn [last_char] in *. exact IH.
Qed.

Lemma strip_left_fixed (s : string) :
  begins_blank s = false -> strip_left s = s.
Proof.
  destruct s as [|c s]; [reflexivity|]. cbn [begins_blank strip_left].
  now intros ->.
Qed.

Lemma strip_right_idempotent (s : string) :
  strip_right (strip_right s) = strip_right s.
Proof.
  induction s as [|c s IH]; [reflexivity|].
  cbn [strip_right]. destruct (strip_right s) as [|a u] eqn:Hs.
  - destruct (mem c ws) eqn:Hc; [reflexivity|].
    cbn [strip_right]. now rewrite Hc.
  - cbn [strip_right]. cbn [strip_right] in IH. rewrite IH. reflexivity.
Qed.

Lemma trim_idempotent (s : string) : trim (trim s) = trim s.
Proof.
  rewrite !trim_strip.
  rewrite (strip_left_fixed (strip_right (strip_left s))).
  - apply strip_right_idempotent.
  - apply strip_right_head, strip_left_head.
Qed.

(** *** [Config::_trim] *)

Lemma is_blank_mem (c : ascii) : Config.is_blank c = mem c ws.
Proof.
  unfold Config.is_blank, ws. cbn [mem].
  destruct (Ascii.eqb c " "), (Ascii.eqb c TAB), (Ascii.eqb c LF),
    (Ascii.eqb c CR); reflexivity.
Qed.

Lemma drop_trim_start (s : string) : drop (Config.trim_start s) s = strip_left s.
Proof.
  induction s as [|c s IH]; [reflexivity|].
  cbn [Config.trim_start strip_left]. rewrite is_blank_mem.
  destruct (mem c ws); [exact IH | reflexivity].
Qed.

Lemma trim_start_length (s : string) :
  Config.trim_start s <= String.length s.
Proof.
  induction s as [|c s IH]; cbn [Config.trim_start String.length]; [lia|].
  destruct (Config.is_blank c); lia.
Qed.

Lemma get_append_r (a b : string) (k : nat) :
  String.get (String.length a + k) (a ++ b) = String.get k b.
Proof. induction a as [|x a IH]; [reflexivity | exact IH]. Qed.

Lemma get_append_l (a b : string) (k : nat) :
  k < String.length a -> String.get k (a ++ b) = String.get k a.
Proof.
  revert k; induction a as [|x a IH]; intros k Hk; cbn in *; [lia|].
  destruct k; [reflexivity | apply IH; lia].
Qed.

Lemma get_last (a : string) (n : nat) :
  String.length a = S n -> String.get n a = last_char a.
Proof.
  revert n; induction a as [|x a IH]; intros n Hn; [discriminate|].
  cbn in Hn. destruct a as [|y a].
  - injection Hn as <-. reflexivity.
  - destruct n; [discriminate|]. cbn [String.get last_char].
    apply IH. cbn in *. lia.
Qed.

Lemma get_all_blank (t : string) (k : nat) :
  all_blank t = true -> k < String.length t ->
  exists c, String.get k t = Some c /\ mem c ws = true.
Proof.
  revert k; induction t as [|x t IH]; intros k Ht Hk; cbn in *; [lia|].
  apply andb_true_iff in Ht as [Hx Ht].
  destruct k; [now exists x | apply IH; [exact Ht | lia]].
Qed.

(** Stepping [end] down over trailing blanks stops behind the last
    character of the trimmed text. *)
Lemma trim_end_blanks (l m t : string) :
  all_blank t = true -> m <> "" -> ends_blank m = false ->
  Config.trim_end (l ++ m ++ t) (String.length l)
    (String.length l + String.length m + String.length t)
  = String.length l + String.length m.
Proof.
  intros Ht Hm He.
  assert (G : forall k, k <= String.length t ->
            Config.trim_end (l ++ m ++ t) (String.length l)
              (String.length l + String.length m + k)
            = String.length l + String.length m).
  { induction k as [|k IH]; intros Hk.
    - rewrite Nat.add_0_r.
      destruct (String.length m) as [|n] eqn:Hn; [now destruct m|].
      replace (String.length l + S n) with (S (String.length l + n)) by lia.
      cbn [Config.trim_end].
      rewrite get_append_r, get_append_l by lia.
      rewrite (get_last m n Hn). unfold ends_blank in He.
      destruct (last_char m) as [c|]; [|now rewrite andb_false_r].
      now rewrite is_blank_mem, He, andb_false_r.
    - replace (String.length l + String.length m + S k)
        with (S (String.length l + (String.length m + k))) by lia.
      cbn [Config.trim_end].
      rewrite !get_append_r.
      destruct (get_all_blank t k Ht) as (c & -> & Hc); [lia|].
      rewrite is_blank_mem, Hc, andb_true_r.
      destruct (Nat.ltb_spec (String.length l)
                  (S (String.length l + (String.length m + k)))); [|lia].
      rewrite Nat.add_assoc. apply IH. lia. }
  apply (G (String.length t)). lia.
Qed.

Lemma strip_left_all_blank (s : string) :
  strip_left s = "" -> Config.trim_start s = String.length s.
Proof.
  induction s as [|c s IH]; [reflexivity|].
  cbn [strip_left Config.trim_start String.length]. rewrite is_blank_mem.
  destruct (mem c ws); [intros H; now rewrite IH | discriminate].
Qed.

Lemma strip_right_nonempty (s : string) :
  s <> "" -> begins_blank s = false -> strip_right s <> "".
Proof.
  destruct s as [|c s]; [congruence|]. intros _. cbn [begins_blank strip_right].
  intros Hc. destruct (strip_right s); [rewrite Hc|]; discriminate.
Qed.

Lemma trim_end_at_start (s : string) (n : nat) :
  Config.trim_end s n n = n.
Proof.
  destruct n as [|n]; [reflexivity|]. cbn [Config.trim_end].
  now rewrite Nat.ltb_irrefl.
Qed.

Lemma trim_start_split (l rest : string) :
  all_blank l = true -> begins_blank rest = false ->
  Config.trim_start (l ++ rest) = String.length l.
Proof.
  intros Hl Hr.
  induction l as [|c l IH];
    cbn [append Config.trim_start all_blank String.length] in *.
  - destruct rest as [|x rest]; [reflexivity|].
    cbn [Config.trim_start begins_blank] in *.
    now rewrite is_blank_mem, Hr.
  - apply andb_true_iff in Hl as [Hc Hl].
    now rewrite is_blank_mem, Hc, (IH Hl).
Qed.

(** The two trimming routines of the code base agree. *)
Lemma Config_trim_strip (s : string) :
  Config._trim s = strip_right (strip_left s).
Proof.
  unfold Config._trim, substr. rewrite drop_trim_start.
  destruct (strip_left s) as [|a u] eqn:Hrest.
  - rewrite (strip_left_all_blank s Hrest), trim_end_at_start.
    rewrite Nat.sub_diag. reflexivity.
  - destruct (strip_left_split s) as (l & El & Hl).
    destruct (strip_right_split (strip_left s)) as (t & Et & Ht).
    pose proof (strip_left_head s) as Hhead.
    rewrite Hrest in *.
    set (m := strip_right (String a u)) in *.
    assert (Hm : m <> "")
      by (apply strip_right_nonempty; [discriminate | exact Hhead]).
    assert (Es : s = l ++ m ++ t) by (rewrite El at 1; now rewrite Et).
    assert (Hstart : Config.trim_start s = String.length l).
    { rewrite El. apply trim_start_split; [exact Hl | exact Hhead]. }
    rewrite Hstart. rewrite Es. rewrite !length_append, Nat.add_assoc.
    rewrite (trim_end_blanks l m t Ht Hm (strip_right_end _)).
    replace (String.length l + String.length m - String.length l)
      with (String.length m) by lia.
    rewrite Et. apply take_length_append.
Qed.

End TrimFacts.

(** X8.  [trim] removes the blanks (space, tab, CR, LF) at both ends and
    nothing else: the text is a run of blanks, the trimmed text and a run
    of blanks, and the trimmed text neither begins nor ends with a blank;
    trimming twice is trimming once. *)
Theorem trim_removes_surrounding_blanks (s : string) :
  (exists l t, s = l ++ trim s ++ t /\ all_blank l = true /\ all_blank t = true)
  /\ begins_blank (trim s) = false
  /\ ends_blank (trim s) = false
  /\ trim (trim s) = trim s.
Proof.
  split; [|split; [|split]].
  - rewrite TrimFacts.trim_strip.
    destruct (TrimFacts.strip_left_split s) as (l & El & Hl).
    destruct (TrimFacts.strip_right_split (strip_left s)) as (t & Et & Ht).
    exists l, t. split; [|auto]. rewrite El at 1. now rewrite Et at 1.
  - rewrite TrimFacts.trim_strip.
    apply TrimFacts.strip_right_head, TrimFacts.strip_left_head.
  - rewrite TrimFacts.trim_strip. apply TrimFacts.strip_right_end.
  - apply TrimFacts.trim_idempotent.
Qed.

(** X9.  [Config::_trim], written with two index loops, returns what the
    request parser's [trim] returns, for every text; and every token
    [Config::_split] returns is trimmed. *)
Theorem Config_trim_is_trim (str : string) (delimiter : ascii) :
  Config._trim str = trim str /\
  Forall (fun token => trim token = token) (Config._split str delimiter).
Proof.
  assert (H : forall s, Config._trim s = trim s)
    by (intros s; now rewrite TrimFacts.Config_trim_strip, TrimFacts.trim_strip).
  split; [apply H|].
  unfold Config._split. apply Forall_forall. intros token Hin.
  apply in_map_iff in Hin as (raw & <- & _).
  rewrite H. apply TrimFacts.trim_idempotent.
Qed.


(* ===================================================================== *)
(** * Further properties: numbers on the wire *)
(* ===================================================================== *)

Module DecimalFacts.
Import Str StrFacts.

Lemma digit_char (m : N) :
  (m < 10)%N ->
  isdigit (ascii_of_N (48 + m)) = true /\ digit_val (ascii_of_N (48 + m)) = m.
Proof.
  intros H.
  assert (E : (m = 0 \/ m = 1 \/ m = 2 \/ m = 3 \/ m = 4 \/ m = 5 \/ m = 6
               \/ m = 7 \/ m = 8 \/ m = 9)%N) by lia.
  repeat (destruct E as [-> | E]; [split; reflexivity|]).
  subst m. split; reflexivity.
Qed.

Lemma digit_not_sign (c : ascii) :
  isdigit c = true ->
  isspace c = false /\ Ascii.eqb c "-" = false /\ Ascii.eqb c "+" = false.
Proof.
  destruct c as [[|] [|] [|] [|] [|] [|] [|] [|]]; intros H;
    try discriminate H; repeat split.
Qed.

Lemma div10_bound (n : N) (f : nat) :
  (n < 2 ^ N.of_nat (S f))%N -> (10 <= n)%N ->
  exists f', f = S f' /\ (n / 10 < 2 ^ N.of_nat (S f'))%N.
Proof.
  intros Hn H10. destruct f as [|f'].
  - cbn in Hn. lia.
  - exists f'. split; [reflexivity|].
    apply N.Div0.div_lt_upper_bound.
    replace (N.of_nat (S (S f'))) with (N.succ (N.of_nat (S f'))) in Hn by lia.
    rewrite N.pow_succ_r' in Hn. lia.
Qed.

(** Reading back the digits [digits_fuel] writes gives the number. *)
Lemma read_digits_fuel (f : nat) :
  forall (n : N) (s : string),
    (n < 2 ^ N.of_nat (S f))%N ->
    Request.read_digits (digits_fuel (S f) n s) 0%N false
    = Request.read_digits s n true.
Proof.
  induction f as [f IH] using lt_wf_ind. intros n s Hn.
  cbn [digits_fuel]. cbv zeta.
  destruct (N.ltb_spec n 10) as [Hlt | Hge].
  - cbn [Request.read_digits].
    rewrite N.mod_small by exact Hlt.
    destruct (digit_char n Hlt) as [-> ->]. reflexivity.
  - destruct (div10_bound n f Hn Hge) as (f' & -> & Hdiv).
    rewrite (IH f' (Nat.lt_succ_diag_r f') (n / 10)%N _ Hdiv).
    cbn [Request.read_digits].
    assert (Hm : (n mod 10 < 10)%N) by (apply N.mod_lt; lia).
    destruct (digit_char _ Hm) as [-> ->].
    f_equal. pose proof (N.div_mod n 10). lia.
Qed.

Lemma digits_fuel_head (f : nat) :
  forall (n : N) (s : string),
    (n < 2 ^ N.of_nat (S f))%N ->
    (forall c t, s = String c t -> isdigit c = true) ->
    exists c t, digits_fuel (S f) n s = String c t /\ isdigit c = true.
Proof.
  induction f as [f IH] using lt_wf_ind. intros n s Hn Hs.
  cbn [digits_fuel]. cbv zeta.
  assert (Hm : (n mod 10 < 10)%N) by (apply N.mod_lt; lia).
  destruct (N.ltb_spec n 10) as [Hlt | Hge].
  - eexists _, _. split; [reflexivity|]. apply (digit_char _ Hm).
  - destruct (div10_bound n f Hn Hge) as (f' & -> & Hdiv).
    apply (IH f' (Nat.lt_succ_diag_r f') _ _ Hdiv).
    intros c t [= <- <-]. apply (digit_char _ Hm).
Qed.

Lemma of_N_fuel (n : N) : (n < 2 ^ N.of_nat (S (N.to_nat (N.log2 n))))%N.
Proof.
  replace (N.of_nat (S (N.to_nat (N.log2 n)))) with (N.succ (N.log2 n)) by lia.
  destruct (N.eq_dec n 0) as [-> | Hn]; [reflexivity|].
  apply N.log2_spec. lia.
Qed.

(** [iss >> content_length] on the decimal text of a number that fits
    [size_t] stores that number. *)
Lemma extract_size_t_of_N (n old : N) :
  (n <= Request.SIZE_MAX)%N -> Request.extract_size_t (of_N n) old = n.
Proof.
  intros Hn. unfold Request.extract_size_t, of_N.
  destruct (digits_fuel_head _ n "" (of_N_fuel n)) as (c & t & E & Hc);
    [discriminate|].
  pose proof (read_digits_fuel _ n "" (of_N_fuel n)) as Hr.
  rewrite E in *. destruct (digit_not_sign c Hc) as (Hsp & Hm & Hp).
  cbn [Request.skip_ws]. rewrite Hsp, Hm, Hp. cbn [orb].
  rewrite Hr. cbn [Request.read_digits negb].
  destruct (N.ltb_spec Request.SIZE_MAX n); [lia | reflexivity].
Qed.

Lemma of_N_nonempty (n : N) : is_empty (of_N n) = false.
Proof.
  unfold of_N.
  destruct (digits_fuel_head _ n "" (of_N_fuel n)) as (c & t & E & _);
    [discriminate|].
  now rewrite E.
Qed.

End DecimalFacts.

(** X10.  The Content-Length value [HttpResponse::setBody] writes for a
    body is read back by the request parser, at the end of a header block
    carrying that value, as the length of the body (for every length that
    fits [size_t]). *)
Theorem content_length_written_is_read_back (content : string)
    (resp : HttpResponse) (r : HttpRequest) :
  (N.of_nat (String.length content) <= SIZE_MAX)%N ->
  StdMap.find "Content-Length" (resp_headers (Response.setBody content resp))
  = Some (getHeader r "Content-Length") ->
  content_length (endOfHeaders r) = N.of_nat (String.length content).
Proof.
  intros Hlen Hv. unfold Response.setBody, Response.setHeader in Hv.
  cbn [resp_headers] in Hv. rewrite MapFacts.find_insert_eq in Hv.
  injection Hv as Hv.
  unfold endOfHeaders.
  assert (E : content_length (readContentLength r)
              = N.of_nat (String.length content)).
  { unfold readContentLength. rewrite <- Hv.
    rewrite DecimalFacts.of_N_nonempty. cbn [negb]. ParserFacts.rsimpl.
    now apply DecimalFacts.extract_size_t_of_N. }
  generalize dependent (readContentLength r). intros r1 E.
  assert (E2 : content_length (readBoundary r1) = content_length r1).
  { unfold readBoundary.
    destruct (Str.find _ "multipart/form-data" 0);
      [destruct (Str.find _ "boundary=" 0)|]; reflexivity. }
  destruct (_ || _); ParserFacts.rsimpl; congruence.
Qed.

Lemma content_length_written_is_read_back_witness :
  content_length
    (endOfHeaders (parseHeader "Content-Length: 11" (set_state HEADERS new)))
  = 11%N.
Proof.
  apply (content_length_written_is_read_back "hello world" (Response.new 200)
           (parseHeader "Content-Length: 11" (set_state HEADERS new))).
  - vm_compute. discriminate.
  - reflexivity.
Defined.


(* ===================================================================== *)
(** * Further properties: the responses of the router *)
(* ===================================================================== *)

Module RouterFacts.

Section Leaves.

Variable P : HttpResponse -> Prop.
Hypothesis P_ok : forall content content_type, P (Response.ok content content_type).
Hypothesis P_badRequest : forall m, P (Response.badRequest m).
Hypothesis P_notFound : forall w m, P (Response.notFound w m).
Hypothesis P_methodNotAllowed : forall m, P (Response.methodNotAllowed m).
Hypothesis P_internalServerError :
  forall w m, P (Response.internalServerError w m).
Hypothesis P_payloadTooLarge : forall m, P (Response.payloadTooLarge m).

Ltac leaf :=
  repeat match goal with
         | |- P (if ?c then _ else _) => destruct c
         | |- P (match ?x with _ => _ end) => destruct x
         end;
  auto.

Lemma handleRequest_leaf (w : World) (h : StaticFileHandler)
    (request : HttpRequest) : P (Static.handleRequest w h request).
Proof. unfold Static.handleRequest. cbv zeta. leaf. Qed.

Lemma handleUpload_leaf (w : World) (h : UploadHandler)
    (request : HttpRequest) : P (Upload.handleUpload w h request).
Proof. unfold Upload.handleUpload. cbv zeta. leaf. Qed.

Lemma executeCgi_leaf (w : World) (script_path interpreter : string)
    (request : HttpRequest) (location : LocationConfig) :
  P (Server.executeCgi w script_path interpreter request location).
Proof.
  unfold Server.executeCgi. cbv zeta.
  destruct (stat w script_path) as [[| |]|]; auto.
  destruct (negb (pipe_ok w)); auto.
  destruct (negb (fork_ok w)); auto.
  destruct (Str.is_empty _); auto.
  destruct (Server.parseCgiOutput _) as [[b t] c]. auto.
Qed.

Lemma buildResponse_leaf (w : World) (server_config : ServerConfig)
    (request : HttpRequest) :
  P (Server.buildResponse w server_config request).
Proof.
  unfold Server.buildResponse.
  destruct (Config.findLocation (uri request) server_config) as [location|];
    [|auto].
  cbv zeta. destruct (negb _); [auto|].
  pose proof (handleRequest_leaf w
                (mkStatic (loc_root location) (loc_autoindex location)
                   (loc_index location)) request) as Hs.
  assert (Hd : P (if HttpMethod_eqb (method request) GET
                     || HttpMethod_eqb (method request) DELETE
                  then Static.handleRequest w
                         (mkStatic (loc_root location) (loc_autoindex location)
                            (loc_index location)) request
                  else if HttpMethod_eqb (method request) HEAD
                  then Static.handleRequest w
                         (mkStatic (loc_root location) (loc_autoindex location)
                            (loc_index location)) request
                  else if HttpMethod_eqb (method request) POST
                  then Upload.handleUpload w
                         (mkUpload
                            (if Str.is_empty (loc_upload_path location)
                             then "./uploads" else loc_upload_path location)
                            (max_body_size server_config)) request
                  else if HttpMethod_eqb (method request) PUT
                  then Response.ok
                         "<html><body><h1>201 Created</h1><p>Resource created/updated via PUT</p></body></html>"
                         "text/html"
                  else Response.badRequest "Method not implemented")).
  { destruct (_ || _); [exact Hs|].
    destruct (HttpMethod_eqb (method request) HEAD); [exact Hs|].
    destruct (HttpMethod_eqb (method request) POST); [apply handleUpload_leaf|].
    destruct (HttpMethod_eqb (method request) PUT); auto. }
  destruct (negb (StdMap.is_empty _)); [|exact Hd].
  destruct (Str.find_last_of _ "."); [|exact Hd].
  destruct (StdMap.find _ _); [apply executeCgi_leaf | exact Hd].
Qed.

End Leaves.

Lemma well_formed_ok c t : Response.well_formed (Response.ok c t).
Proof. repeat split. discriminate. Qed.

Lemma well_formed_badRequest m : Response.well_formed (Response.badRequest m).
Proof. repeat split. discriminate. Qed.

Lemma well_formed_notFound w m : Response.well_formed (Response.notFound w m).
Proof. repeat split. discriminate. Qed.

Lemma well_formed_methodNotAllowed m :
  Response.well_formed (Response.methodNotAllowed m).
Proof. repeat split. discriminate. Qed.

Lemma well_formed_internalServerError w m :
  Response.well_formed (Response.internalServerError w m).
Proof. repeat split. discriminate. Qed.

Lemma well_formed_payloadTooLarge m :
  Response.well_formed (Response.payloadTooLarge m).
Proof. repeat split. discriminate. Qed.

Lemma well_formed_notImplemented m :
  Response.well_formed (Response.notImplemented m).
Proof. repeat split. discriminate. Qed.

End RouterFacts.

(** X11.  Every response the router returns, and every response the
    server makes for a parse error, carries the status message of its
    code, a Server header, a Content-Type header, and a Content-Length
    header that is the decimal length of its body. *)
Theorem responses_announce_their_body (w : World) (server_config : ServerConfig)
    (request : HttpRequest) (err : Z) :
  Response.well_formed (Server.buildResponse w server_config request) /\
  Response.well_formed (Server.parseErrorResponse err).
Proof.
  split.
  - apply RouterFacts.buildResponse_leaf.
    + apply RouterFacts.well_formed_ok.
    + apply RouterFacts.well_formed_badRequest.
    + apply RouterFacts.well_formed_notFound.
    + apply RouterFacts.well_formed_methodNotAllowed.
    + apply RouterFacts.well_formed_internalServerError.
    + apply RouterFacts.well_formed_payloadTooLarge.
  - unfold Server.parseErrorResponse.
    destruct (err =? 405)%Z; [apply RouterFacts.well_formed_methodNotAllowed|].
    destruct (err =? 505)%Z; [apply RouterFacts.well_formed_notImplemented|].
    apply RouterFacts.well_formed_badRequest.
Qed.

(** X12.  Whatever the request, the configuration and the world, the
    status of the router's response is one of 200, 400, 404, 405, 413 and
    500: it answers neither 201 (a PUT is answered 200) nor 204, 301, 302,
    431, 501 or 505. *)
Theorem router_status_codes (w : World) (server_config : ServerConfig)
    (request : HttpRequest) :
  In (status_code (Server.buildResponse w server_config request))
     [200; 400; 404; 405; 413; 500]%Z.
Proof.
  apply (RouterFacts.buildResponse_leaf
           (fun resp => In (status_code resp) [200; 400; 404; 405; 413; 500]%Z));
    intros; cbn; auto 10.
Qed.


(* ===================================================================== *)
(** * Further properties: the routing table *)
(* ===================================================================== *)

Module TieFacts.
Import Config.

(** The loop hands back either the match it started with, when no later
    location has a longer matching path, or the first location of the
    rest that has the longest matching path. *)
Lemma findLocation_from_first (uri : string) (locs : list LocationConfig) :
  forall (best : option LocationConfig) (len : nat) (r : LocationConfig),
    findLocation_from uri locs best len = Some r ->
    (best = Some r /\
     forall l, In l locs -> is_prefix (loc_path l) uri ->
               String.length (loc_path l) <= len)
    \/ (exists before after,
          locs = (before ++ r :: after)%list /\
          is_prefix (loc_path r) uri /\
          len < String.length (loc_path r) /\
          (forall l, In l before -> is_prefix (loc_path l) uri ->
                     String.length (loc_path l) < String.length (loc_path r)) /\
          (forall l, In l after -> is_prefix (loc_path l) uri ->
                     String.length (loc_path l) <= String.length (loc_path r))).
Proof.
  induction locs as [|loc locs IH]; intros best len r; cbn [findLocation_from].
  - intros ->. left. split; [reflexivity|]. intros l [].
  - assert (Hskip : ~ is_prefix (loc_path loc) uri \/
                    String.length (loc_path loc) <= len ->
            findLocation_from uri locs best len = Some r ->
            (best = Some r /\
             forall l, In l (loc :: locs) -> is_prefix (loc_path l) uri ->
                       String.length (loc_path l) <= len)
            \/ (exists before after,
                  (loc :: locs) = (before ++ r :: after)%list /\
                  is_prefix (loc_path r) uri /\
                  len < String.length (loc_path r) /\
                  (forall l, In l before -> is_prefix (loc_path l) uri ->
                     String.length (loc_path l) < String.length (loc_path r)) /\
                  (forall l, In l after -> is_prefix (loc_path l) uri ->
                     String.length (loc_path l) <= String.length (loc_path r)))).
    { intros Hno Hfind.
      destruct (IH best len r Hfind)
        as [(Hb & Hmax) | (before & after & E & Hp & Hlt & Hbef & Haft)].
      - left. split; [exact Hb|]. intros l [<- | Hl] Hpl; [|now apply Hmax].
        destruct Hno; [contradiction | assumption].
      - right. exists (loc :: before), after. rewrite E.
        split; [reflexivity|]. split; [exact Hp|]. split; [exact Hlt|].
        split; [|exact Haft].
        intros l [<- | Hl] Hpl; [|now apply Hbef].
        destruct Hno; [contradiction | lia]. }
    pose proof (ConfigFacts.find_prefix uri (loc_path loc)) as Hfp.
    destruct (Str.find uri (loc_path loc) 0) as [[|k]|].
    + destruct (Nat.ltb_spec len (String.length (loc_path loc))) as [Hlt|Hge].
      * intros Hfind. right.
        assert (Hp : is_prefix (loc_path loc) uri) by now apply Hfp.
        destruct (IH _ _ r Hfind)
          as [(Hb & Hmax) | (before & after & E & Hpr & Hlt' & Hbef & Haft)].
        -- injection Hb as <-. exists [], locs.
           repeat split; auto. intros l [].
        -- exists (loc :: before), after. rewrite E.
           split; [reflexivity|]. split; [exact Hpr|]. split; [lia|].
           split; [|exact Haft].
           intros l [<- | Hl] Hpl; [lia | now apply Hbef].
      * apply Hskip. now right.
    + apply Hskip. left. intros Hp. apply Hfp in Hp. discriminate.
    + apply Hskip. left. intros Hp. apply Hfp in Hp. discriminate.
Qed.

End TieFacts.

(** X13.  When several locations match the URI with paths of the same,
    greatest length, [findLocation] selects the one that comes first in
    the table: the selected location matches, every matching location
    before it has a strictly shorter path, every matching location after
    it a path that is not longer. *)
Theorem findLocation_first_of_the_longest (uri : string)
    (server : ServerConfig) (location : LocationConfig) :
  Config.findLocation uri server = Some location ->
  exists before after,
    locations server = (before ++ location :: after)%list /\
    Config.is_prefix (loc_path location) uri /\
    (forall l, In l before -> Config.is_prefix (loc_path l) uri ->
       String.length (loc_path l) < String.length (loc_path location)) /\
    (forall l, In l after -> Config.is_prefix (loc_path l) uri ->
       String.length (loc_path l) <= String.length (loc_path location)).
Proof.
  intros Hfind.
  destruct (TieFacts.findLocation_from_first uri _ None 0 location Hfind)
    as [([=] & _) | (before & after & E & Hp & _ & Hbef & Haft)].
  exists before, after. auto.
Qed.

Lemma findLocation_first_of_the_longest_witness :
  let a := mkLocation "/api" "./a" "index.html" false ["GET"] StdMap.empty "" in
  let b := mkLocation "/api" "./b" "index.html" false ["GET"] StdMap.empty "" in
  exists before after,
    [Config.root_location; a; b] = (before ++ a :: after)%list /\
    Config.is_prefix (loc_path a) "/api/x" /\
    (forall l, In l before -> Config.is_prefix (loc_path l) "/api/x" ->
       String.length (loc_path l) < String.length (loc_path a)) /\
    (forall l, In l after -> Config.is_prefix (loc_path l) "/api/x" ->
       String.length (loc_path l) <= String.length (loc_path a)).
Proof.
  cbv zeta.
  apply (findLocation_first_of_the_longest "/api/x"
           (mkServer 8080 "0.0.0.0" "webserv" 1048576
              [Config.root_location;
               mkLocation "/api" "./a" "index.html" false ["GET"] StdMap.empty "";
               mkLocation "/api" "./b" "index.html" false ["GET"] StdMap.empty ""]
              [])).
  reflexivity.
Defined.


(* ===================================================================== *)
(** * Further properties: the static resolver *)
(* ===================================================================== *)

Module StaticFacts.
Import Str StrFacts.

Lemma to_slash_dot (c : ascii) : Ascii.eqb "." (Static.to_slash c) = Ascii.eqb "." c.
Proof. destruct c as [[|] [|] [|] [|] [|] [|] [|] [|]]; reflexivity. Qed.

Lemma to_slash_not_backslash (c : ascii) :
  Ascii.eqb (Static.to_slash c) BACKSLASH = false.
Proof. destruct c as [[|] [|] [|] [|] [|] [|] [|] [|]]; reflexivity. Qed.

Lemma starts_with_dotdot_map (s : string) :
  starts_with ".." (map Static.to_slash s) = starts_with ".." s.
Proof.
  destruct s as [|a [|b s]]; cbn [map starts_with];
    rewrite ?to_slash_dot; reflexivity.
Qed.

Lemma find0_dotdot_map (s : string) :
  find0 ".." (map Static.to_slash s) = find0 ".." s.
Proof.
  induction s as [|c s IH]; [reflexivity|].
  change (map Static.to_slash (String c s)) with (String (Static.to_slash c) (map Static.to_slash s)).
  cbn [find0].
  change (String (Static.to_slash c) (map Static.to_slash s)) with (map Static.to_slash (String c s)).
  now rewrite starts_with_dotdot_map, IH.
Qed.

Lemma find0_tail (pat : string) (c : ascii) (s : string) :
  find0 pat (String c s) = None -> find0 pat s = None.
Proof.
  cbn [find0]. destruct (starts_with pat (String c s)); [discriminate|].
  now destruct (find0 pat s).
Qed.

Lemma occurs_map_backslash (s : string) :
  Request.occurs BACKSLASH (map Static.to_slash s) = false.
Proof.
  induction s as [|c s IH]; [reflexivity|].
  cbn [map Request.occurs]. now rewrite to_slash_not_backslash, IH.
Qed.

Lemma find_0 (s pat : string) : find s pat 0 = find0 pat s.
Proof. unfold find. cbn [Nat.leb drop]. now destruct (find0 pat s). Qed.

(** *** File name extensions *)

Lemma tolower_dot (c : ascii) : mem (tolower c) "." = mem c ".".
Proof. destruct c as [[|] [|] [|] [|] [|] [|] [|] [|]]; reflexivity. Qed.

Lemma find_last_of_map (f : ascii -> ascii) (set s : string) :
  (forall c, mem (f c) set = mem c set) ->
  find_last_of (map f s) set = find_last_of s set.
Proof.
  intros Hf. induction s as [|c s IH]; [reflexivity|].
  cbn [map find_last_of]. now rewrite IH, Hf.
Qed.

Lemma drop_map (f : ascii -> ascii) (n : nat) (s : string) :
  drop n (map f s) = map f (drop n s).
Proof.
  revert s; induction n as [|n IH]; intros s; [reflexivity|].
  destruct s as [|c s]; [reflexivity | apply IH].
Qed.

(** *** The last component of a path *)

Lemma find_last_of_none (c : ascii) (s : string) :
  Request.occurs c s = false -> find_last_of s (String c "") = None.
Proof.
  induction s as [|x s IH]; [reflexivity|].
  cbn [Request.occurs find_last_of mem]. intros H.
  apply orb_false_iff in H as [Hx Hs]. now rewrite (IH Hs), Hx.
Qed.

Lemma find_last_of_split (c : ascii) (a b : string) :
  Request.occurs c b = false ->
  find_last_of (a ++ String c b) (String c "") = Some (String.length a).
Proof.
  intros Hb. induction a as [|x a IH].
  - cbn [append find_last_of mem String.length].
    now rewrite (find_last_of_none c b Hb), Ascii.eqb_refl.
  - cbn [append find_last_of String.length]. now rewrite IH.
Qed.

(** *** Text inside text *)




(** *** The end of a path *)

Lemma last_char_snoc (r : string) (c : ascii) :
  last_char (r ++ String c "") = Some c.
Proof.
  induction r as [|x r IH]; [reflexivity|].
  cbn [append]. cbn [last_char]. rewrite IH.
  destruct (r ++ String c "") eqn:E; [|reflexivity].
  destruct r; discriminate E.
Qed.

Lemma last_char_split (s : string) (c : ascii) :
  last_char s = Some c -> exists r, s = r ++ String c "".
Proof.
  induction s as [|x s IH]; [discriminate|].
  cbn [last_char]. destruct s as [|y s].
  - intros [= <-]. now exists "".
  - intros H. destruct (IH H) as [r ->]. now exists (String x r).
Qed.

Lemma last_char_none (s : string) : last_char s = None -> s = "".
Proof.
  induction s as [|x s IH]; [reflexivity|].
  cbn [last_char]. destruct s as [|y s]; [discriminate|].
  intros H. specialize (IH H). discriminate IH.
Qed.

Lemma is_separator_spec (c : ascii) :
  Static.is_separator c = true <-> c = "/"%char \/ c = BACKSLASH.
Proof.
  unfold Static.is_separator. rewrite orb_true_iff, !Ascii.eqb_eq. tauto.
Qed.

Lemma ends_in_separator_last (s : string) :
  Static.ends_in_separator s <->
  exists c, last_char s = Some c /\ Static.is_separator c = true.
Proof.
  split.
  - intros [[r ->] | [r ->]]; eexists; (split; [apply last_char_snoc|]);
      reflexivity.
  - intros (c & Hl & Hc). apply last_char_split in Hl as [r ->].
    apply is_separator_spec in Hc as [-> | ->]; [left | right]; now exists r.
Qed.

(** The root as [combinePaths] completes it. *)
Lemma completed_base (root : string) :
  let base := match last_char root with
              | Some c => if Static.is_separator c then root else root ++ "/"
              | None => root
              end in
  (root = "" \/ Static.ends_in_separator root -> base = root) /\
  (root <> "" -> ~ Static.ends_in_separator root -> base = root ++ "/").
Proof.
  cbv zeta. pose proof (ends_in_separator_last root) as He.
  destruct (last_char root) as [c|] eqn:El.
  - destruct (Static.is_separator c) eqn:Ec.
    + split; [reflexivity|]. intros _ Hn. elim Hn. apply He. now exists c.
    + split; [|reflexivity]. intros [-> | Hs]; [discriminate El|].
      apply He in Hs as (c' & [= <-] & Hc'). congruence.
  - apply last_char_none in El. split; [reflexivity | congruence].
Qed.

End StaticFacts.

(** X14.  For a URI that passes [isPathSafe], the path [combinePaths]
    builds is the root, completed by a '/' exactly when it is not empty
    and does not end with '/' or a backslash, followed by a relative part:
    the URI without one leading separator and with every backslash turned
    into '/', which holds no ".." and no backslash. *)
Theorem safe_uri_is_resolved_below_the_root (root uri : string) :
  Static.isPathSafe uri = true ->
  exists base rel,
    Static.combinePaths root uri = base ++ rel /\
    (root = "" \/ Static.ends_in_separator root -> base = root) /\
    (root <> "" -> ~ Static.ends_in_separator root -> base = root ++ "/") /\
    (Str.map Static.to_slash uri = String "/" rel \/
     (Str.map Static.to_slash uri = rel /\ Str.starts_with "/" rel = false)) /\
    ~ Static.contains ".." rel /\
    occurs Str.BACKSLASH rel = false.
Proof.
  unfold Static.isPathSafe. rewrite StaticFacts.find_0. intros Hsafe.
  assert (Hnone : Str.find0 ".." uri = None)
    by (destruct (Str.find0 ".." uri); [discriminate | reflexivity]).
  clear Hsafe. unfold Static.combinePaths.
  change (fun c => if Static.is_separator c then "/"%char else c)
    with Static.to_slash.
  set (rel0 := match uri with
               | "" => uri
               | String c rel' => if Static.is_separator c then rel' else uri
               end).
  assert (Hrel0 : Str.find0 ".." rel0 = None).
  { subst rel0. destruct uri as [|c u]; [exact Hnone|].
    destruct (Static.is_separator c); [|exact Hnone].
    exact (StaticFacts.find0_tail _ _ _ Hnone). }
  destruct (StaticFacts.completed_base root) as [Hb1 Hb2].
  eexists _, _. split; [reflexivity|].
  split; [exact Hb1|]. split; [exact Hb2|]. split; [|split].
  - subst rel0. destruct uri as [|c u]; [right; split; reflexivity|].
    destruct (Static.is_separator c) eqn:Ec.
    + left. cbn [Str.map]. unfold Static.to_slash at 1. now rewrite Ec.
    + right. split; [reflexivity|].
      cbn [Str.map Str.starts_with]. unfold Static.to_slash at 1. rewrite Ec.
      unfold Static.is_separator in Ec. apply orb_false_iff in Ec as [Ec _].
      now rewrite Ascii.eqb_sym, Ec.
  - intros Hc. apply FindFacts.find_contains in Hc. apply Hc.
    rewrite StaticFacts.find_0.
    now rewrite StaticFacts.find0_dotdot_map.
  - apply StaticFacts.occurs_map_backslash.
Qed.

Lemma safe_uri_is_resolved_below_the_root_witness :
  exists base rel,
    Static.combinePaths "./www" "/img\logo.png" = base ++ rel /\
    ("./www" = "" \/ Static.ends_in_separator "./www" -> base = "./www") /\
    ("./www" <> "" -> ~ Static.ends_in_separator "./www" ->
     base = "./www" ++ "/") /\
    (Str.map Static.to_slash "/img\logo.png" = String "/" rel \/
     (Str.map Static.to_slash "/img\logo.png" = rel /\
      Str.starts_with "/" rel = false)) /\
    ~ Static.contains ".." rel /\
    occurs Str.BACKSLASH rel = false.
Proof.
  apply (safe_uri_is_resolved_below_the_root "./www" "/img\logo.png").
  reflexivity.
Defined.

(** X15.  The MIME type does not depend on the letter case of the path:
    a path and its lower-case form get the same type. *)
Theorem getMimeType_ignores_letter_case (path : string) :
  Static.getMimeType (toLower path) = Static.getMimeType path.
Proof.
  unfold Static.getMimeType, toLower.
  rewrite (StaticFacts.find_last_of_map Str.tolower "." path
             StaticFacts.tolower_dot).
  destruct (Str.find_last_of path ".") as [dot_pos|]; [|reflexivity].
  unfold Str.substr_from. rewrite StaticFacts.drop_map.
  fold (toLower (Str.drop dot_pos path)).
  fold (toLower (toLower (Str.drop dot_pos path))).
  now rewrite InvariantFacts.toLower_idempotent.
Qed.

(** X16.  A DELETE whose resolved path ends in a component named like the
    configured index file, "index.html" or "index.htm" is answered 400,
    404 or 405, and the answer is the same whether removing the file
    would succeed or not. *)
Theorem delete_spares_index_files (w : World) (h : StaticFileHandler)
    (request : HttpRequest) (dir name : string) (remove' : string -> bool) :
  method request = DELETE ->
  Static.combinePaths (root_directory h) (uri request) = dir ++ String "/" name ->
  occurs "/" name = false ->
  name = default_file h \/ name = "index.html" \/ name = "index.htm" ->
  In (status_code (Static.handleRequest w h request)) [400; 404; 405]%Z /\
  Static.handleRequest
    (mkWorld (stat w) (read_file w) (read_dir w) remove' (write_ok w)
       (pipe_ok w) (fork_ok w) (cgi_output w)) h request
  = Static.handleRequest w h request.
Proof.
  intros Hm Hpath Hname Hidx. unfold Static.handleRequest. cbv zeta.
  rewrite Hm, Hpath. cbn [HttpMethod_eqb].
  rewrite (StaticFacts.find_last_of_split "/" dir name Hname).
  unfold Str.substr_from.
  rewrite <- StrFacts.drop_drop, StrFacts.drop_length_append. cbn [Str.drop].
  assert (E : (name =? default_file h)%string || (name =? "index.html")%string
              || (name =? "index.htm")%string = true).
  { destruct Hidx as [-> | [-> | ->]];
      rewrite ?String.eqb_refl, ?orb_true_r; reflexivity. }
  rewrite E. unfold Static.fileExists. cbn [stat].
  destruct (negb (Static.isPathSafe (uri request)));
    [split; [left|]; reflexivity|].
  destruct (stat w (dir ++ String "/" name)); cbn [negb].
  - destruct ((uri request =? "/")%string || Str.is_empty (uri request));
      (split; [right; right; left|]; reflexivity).
  - split; [right; left|]; reflexivity.
Qed.

Lemma delete_spares_index_files_witness :
  In (status_code
        (Static.handleRequest (world_with_script "./www/index.html" "")
           (mkStatic "./www" false "index.html")
           (set_uri "/index.html" (set_method DELETE new))))
     [400; 404; 405]%Z.
Proof.
  apply (delete_spares_index_files (world_with_script "./www/index.html" "")
           (mkStatic "./www" false "index.html")
           (set_uri "/index.html" (set_method DELETE new))
           "./www" "index.html" (fun _ => true)).
  - reflexivity.
  - reflexivity.
  - reflexivity.
  - left. reflexivity.
Defined.





(* ===================================================================== *)
(** * Further properties: uploads *)
(* ===================================================================== *)

Module SanitizeFacts.
Import Str StrFacts Upload.

Lemma keep_safe (c : ascii) : safe_char (keep c) = true.
Proof. destruct c as [[|] [|] [|] [|] [|] [|] [|] [|]]; reflexivity. Qed.

Lemma safe_not_separator (c : ascii) :
  safe_char c = true -> mem c separators = false.
Proof. destruct c as [[|] [|] [|] [|] [|] [|] [|] [|]]; vm_compute; congruence. Qed.

Lemma all_safe_map (s : string) : all_safe (map keep s) = true.
Proof.
  induction s as [|c s IH]; [reflexivity|].
  cbn [map all_safe]. now rewrite keep_safe, IH.
Qed.

Lemma map_keep_safe (s : string) : all_safe s = true -> map keep s = s.
Proof.
  induction s as [|c s IH]; [reflexivity|].
  cbn [all_safe map]. intros H. apply andb_true_iff in H as [Hc Hs].
  rewrite (IH Hs). unfold keep. now rewrite Hc.
Qed.

Lemma safe_no_separator (s : string) :
  all_safe s = true -> find_last_of s separators = None.
Proof.
  induction s as [|c s IH]; [reflexivity|].
  cbn [all_safe find_last_of]. intros H. apply andb_true_iff in H as [Hc Hs].
  now rewrite (IH Hs), (safe_not_separator c Hc).
Qed.

(** A name that is already safe is kept as it is. *)
Lemma sanitizeFilename_fixed (s : string) :
  all_safe s = true ->
  is_empty s || (s =? ".")%string || (s =? "..")%string = false ->
  sanitizeFilename s = s.
Proof.
  intros Hs Hne. unfold sanitizeFilename. cbv zeta.
  rewrite (safe_no_separator s Hs).
  change (fun c => if safe_char c then c else "_"%char) with keep.
  now rewrite (map_keep_safe s Hs), Hne.
Qed.

Lemma sanitizeFilename_safe (filename : string) :
  all_safe (sanitizeFilename filename) = true.
Proof.
  unfold sanitizeFilename. cbv zeta.
  change (fun c => if safe_char c then c else "_"%char) with keep.
  destruct (_ || _); [reflexivity | apply all_safe_map].
Qed.

End SanitizeFacts.

(** X18.  The name [sanitizeFilename] returns is made of letters, digits,
    '.', '_' and '-' only, and sanitizing it again changes nothing. *)
Theorem sanitizeFilename_is_idempotent (filename : string) :
  Upload.all_safe (Upload.sanitizeFilename filename) = true /\
  Upload.sanitizeFilename (Upload.sanitizeFilename filename)
  = Upload.sanitizeFilename filename.
Proof.
  unfold Upload.sanitizeFilename at 1 3 4. cbv zeta.
  change (fun c => if Upload.safe_char c then c else "_"%char)
    with Upload.keep.
  set (safe_name := match Str.find_last_of filename Upload.separators with
                    | Some last_slash => Str.substr_from filename (last_slash + 1)
                    | None => filename
                    end).
  destruct (Str.is_empty (Str.map Upload.keep safe_name)
            || (Str.map Upload.keep safe_name =? ".")%string
            || (Str.map Upload.keep safe_name =? "..")%string) eqn:E.
  - split; reflexivity.
  - split; [apply SanitizeFacts.all_safe_map|].
    apply SanitizeFacts.sanitizeFilename_fixed;
      [apply SanitizeFacts.all_safe_map | exact E].
Qed.


Module UploadWriteFacts.
Import Str StrFacts Upload.

Lemma fold_left_ext_in {A B : Type} (f g : A -> B -> A) (l : list B) (a : A) :
  (forall a x, In x l -> f a x = g a x) -> fold_left f l a = fold_left g l a.
Proof.
  revert a. induction l as [|x l IH]; intros a H; [reflexivity|].
  cbn [fold_left]. rewrite (H a x (or_introl eq_refl)).
  apply IH. intros a' y Hy. apply H. now right.
Qed.

(** The directory as [saveFile] completes it. *)
Lemma completed_directory (dir : string) :
  let base := match last_char dir with
              | Some c => if Ascii.eqb c "/" then dir else dir ++ "/"
              | None => dir
              end in
  (dir = "" \/ ends_with_char "/" dir -> base = dir) /\
  (dir <> "" -> ~ ends_with_char "/" dir -> base = dir ++ "/").
Proof.
  cbv zeta. destruct (last_char dir) as [c|] eqn:El.
  - destruct (Ascii.eqb_spec c "/") as [-> | Hne].
    + split; [reflexivity|]. intros _ Hn. elim Hn.
      now apply StaticFacts.last_char_split.
    + split; [|reflexivity]. intros [-> | [r ->]]; [discriminate El|].
      rewrite StaticFacts.last_char_snoc in El. congruence.
  - apply StaticFacts.last_char_none in El. split; [reflexivity | congruence].
Qed.

End UploadWriteFacts.

(** X19.  The upload handler opens for writing only the files of its
    upload directory named by the sanitized names of the files of the
    request: its answer stays the same when the outcome of opening any
    other path changes.  The directory is completed by a '/' exactly when
    it is not empty and does not end with one. *)
Theorem upload_writes_only_sanitized_names (w : World) (h : UploadHandler)
    (request : HttpRequest) (write' : string -> bool) :
  (forall base file,
      In file (Upload.parseMultipartFormData (body request) (boundary request)) ->
      (upload_directory h = "" \/ Str.ends_with_char "/" (upload_directory h) ->
       base = upload_directory h) ->
      (upload_directory h <> "" ->
       ~ Str.ends_with_char "/" (upload_directory h) ->
       base = upload_directory h ++ "/") ->
      write' (base ++ Upload.sanitizeFilename (filename file))
      = write_ok w (base ++ Upload.sanitizeFilename (filename file))) ->
  Upload.handleUpload
    (mkWorld (stat w) (read_file w) (read_dir w) (remove_ok w) write'
       (pipe_ok w) (fork_ok w) (cgi_output w)) h request
  = Upload.handleUpload w h request.
Proof.
  intros Hw. unfold Upload.handleUpload. cbv zeta.
  set (w' := mkWorld _ _ _ _ _ _ _ _).
  set (files := Upload.parseMultipartFormData (body request) (boundary request))
    in *.
  rewrite (UploadWriteFacts.fold_left_ext_in
             (fun saved file =>
                if Upload.saveFile w' h (Upload.sanitizeFilename (filename file))
                     (content file)
                then List.app saved [Upload.sanitizeFilename (filename file)]
                else saved)
             (fun saved file =>
                if Upload.saveFile w h (Upload.sanitizeFilename (filename file))
                     (content file)
                then List.app saved [Upload.sanitizeFilename (filename file)]
                else saved) files).
  - reflexivity.
  - intros saved file Hin.
    replace (Upload.saveFile w' h (Upload.sanitizeFilename (filename file))
               (content file))
      with (Upload.saveFile w h (Upload.sanitizeFilename (filename file))
              (content file)); [reflexivity|].
    unfold Upload.saveFile. cbv zeta.
    change (write_ok w') with write'. symmetry.
    destruct (UploadWriteFacts.completed_directory (upload_directory h))
      as [H1 H2].
    now apply Hw.
Qed.

Lemma upload_writes_only_sanitized_names_witness :
  Upload.handleUpload
    (mkWorld (stat world_open_to_writes) (read_file world_open_to_writes)
       (read_dir world_open_to_writes) (remove_ok world_open_to_writes)
       (fun path => String.eqb path "./uploads/a_b.txt")
       (pipe_ok world_open_to_writes) (fork_ok world_open_to_writes)
       (cgi_output world_open_to_writes))
    (mkUpload "./uploads" 1048576)
    (feed
       ["POST /up HTTP/1.1" ++ Str.CRLF
        ++ "Content-Type: multipart/form-data; boundary=XX" ++ Str.CRLF
        ++ "Content-Length: 92" ++ Str.CRLFCRLF;
        "--XX" ++ Str.CRLF
        ++ "Content-Disposition: form-data; name=" ++ Str.DQ ++ "f" ++ Str.DQ
        ++ "; filename=" ++ Str.DQ ++ "../tmp/a b.txt" ++ Str.DQ ++ Str.CRLFCRLF
        ++ "hello" ++ Str.CRLF ++ "--XX--" ++ Str.CRLF] new)
  = Upload.handleUpload world_open_to_writes
      (mkUpload "./uploads" 1048576)
      (feed
         ["POST /up HTTP/1.1" ++ Str.CRLF
          ++ "Content-Type: multipart/form-data; boundary=XX" ++ Str.CRLF
          ++ "Content-Length: 92" ++ Str.CRLFCRLF;
          "--XX" ++ Str.CRLF
          ++ "Content-Disposition: form-data; name=" ++ Str.DQ ++ "f" ++ Str.DQ
          ++ "; filename=" ++ Str.DQ ++ "../tmp/a b.txt" ++ Str.DQ ++ Str.CRLFCRLF
          ++ "hello" ++ Str.CRLF ++ "--XX--" ++ Str.CRLF] new) /\
  status_code
    (Upload.handleUpload world_open_to_writes
       (mkUpload "./uploads" 1048576)
       (feed
          ["POST /up HTTP/1.1" ++ Str.CRLF
           ++ "Content-Type: multipart/form-data; boundary=XX" ++ Str.CRLF
           ++ "Content-Length: 92" ++ Str.CRLFCRLF;
           "--XX" ++ Str.CRLF
           ++ "Content-Disposition: form-data; name=" ++ Str.DQ ++ "f" ++ Str.DQ
           ++ "; filename=" ++ Str.DQ ++ "../tmp/a b.txt" ++ Str.DQ ++ Str.CRLFCRLF
           ++ "hello" ++ Str.CRLF ++ "--XX--" ++ Str.CRLF] new)) = 200%Z.
Proof.
  split; [|vm_compute; reflexivity].
  apply (upload_writes_only_sanitized_names world_open_to_writes
           (mkUpload "./uploads" 1048576)).
  intros base file Hin _ Hbase.
  rewrite Hbase.
  - vm_compute in Hin. destruct Hin as [<- | []]. vm_compute. reflexivity.
  - discriminate.
  - intros [r E]. apply (f_equal Str.last_char) in E.
    cbn [upload_directory] in E.
    rewrite StaticFacts.last_char_snoc in E. discriminate E.
Defined.


Module MultipartFacts.
Import Str StrFacts Upload.

Lemma readPartHeaders_content (headers_section : string) (file : UploadedFile) :
  content (readPartHeaders headers_section file) = content file /\
  size (readPartHeaders headers_section file) = size file.
Proof.
  unfold readPartHeaders. cbv zeta.
  repeat match goal with
         | |- context [match ?x with _ => _ end] => destruct x
         end; cbn [content size]; auto.
Qed.

Lemma substr_contained (s : string) (pos len : nat) :
  Static.contains (substr s pos len) s.
Proof.
  exists (take pos s), (drop len (drop pos s)). unfold substr.
  now rewrite !take_drop.
Qed.

Lemma substr_nonempty (s : string) (pos len : nat) :
  0 < len -> pos < String.length s -> substr s pos len <> "".
Proof.
  intros Hl Hp E. apply (f_equal String.length) in E.
  unfold substr in E. rewrite length_take, length_drop in E. cbn in E. lia.
Qed.

Lemma parseParts_Forall (P : UploadedFile -> Prop) (body delimiter : string) :
  (forall headers_section pos len,
      0 < len -> pos < String.length body ->
      let content := substr body pos len in
      let file := readPartHeaders headers_section
                    (mkFile "" "application/octet-stream" content
                       (String.length content)) in
      filename file <> "" -> P file) ->
  forall fuel pos files,
    Forall P files -> Forall P (parseParts fuel body delimiter pos files).
Proof.
  intros HP. induction fuel as [|fuel IH]; intros pos files Hfiles;
    cbn [parseParts]; [exact Hfiles|].
  destruct (negb (pos <? String.length body)); [exact Hfiles|].
  destruct (find body delimiter pos) as [boundary_pos|]; [|exact Hfiles].
  cbv zeta.
  destruct ((boundary_pos + String.length delimiter + 2 <=? String.length body)
            && (substr body (boundary_pos + String.length delimiter) 2 =? "--")%string);
    [exact Hfiles|].
  match goal with
  | |- context [find body CRLFCRLF ?p] =>
      destruct (find body CRLFCRLF p) as [headers_end|]; [|exact Hfiles]
  end.
  destruct (find body delimiter (headers_end + 4)) as [next_boundary|] eqn:En;
    [|exact Hfiles].
  destruct (Nat.leb_spec (next_boundary - 2) (headers_end + 4)) as [|Hlt];
    [exact Hfiles|].
  apply IH.
  match goal with
  | |- context [is_empty (filename ?f)] =>
      destruct (is_empty (filename f)) eqn:Ef; cbn [negb]; [exact Hfiles|]
  end.
  apply Forall_app. split; [exact Hfiles|]. constructor; [|constructor].
  apply find_bound in En as [_ Hb].
  apply HP; [lia | lia | now apply StrFacts.is_empty_false].
Qed.

End MultipartFacts.

(** X20.  Every file [parseMultipartFormData] reports has a file name that
    is not empty and a content that is not empty, its size is the length
    of its content, and its content is a piece of the body. *)
Theorem parsed_files_are_named_and_not_empty (body boundary : string) :
  Forall (fun file =>
            filename file <> "" /\ content file <> "" /\
            size file = String.length (content file) /\
            Static.contains (content file) body)
    (Upload.parseMultipartFormData body boundary).
Proof.
  unfold Upload.parseMultipartFormData.
  apply MultipartFacts.parseParts_Forall; [|constructor].
  intros headers_section pos len Hlen Hpos. cbv zeta. intros Hname.
  destruct (MultipartFacts.readPartHeaders_content headers_section
              (mkFile "" "application/octet-stream" (Str.substr body pos len)
                 (String.length (Str.substr body pos len)))) as [Hc Hs].
  cbn [content size] in Hc, Hs. rewrite Hc, Hs.
  split; [exact Hname|]. split.
  - now apply MultipartFacts.substr_nonempty.
  - split; [reflexivity | apply MultipartFacts.substr_contained].
Qed.


(* ===================================================================== *)
(** * Further properties: the connection of a client *)
(* ===================================================================== *)

Module ConnectionFacts.
Import Str StrFacts Server.

(** What holds of a connection between two events. *)
Lemma idle_intro (c : Connection) :
  consistent (conn_request c) ->
  terminal (conn_request c) = false ->
  pollout c = negb (is_empty (output_buffer c)) ->
  consistent (conn_request c) /\ terminal (conn_request c) = false /\
  pollout c = negb (is_empty (output_buffer c)).
Proof. auto. Qed.

Lemma append_build_nonempty (out : string) (resp : HttpResponse) :
  is_empty (out ++ Response.build resp) = false.
Proof. destruct out; reflexivity. Qed.

Lemma answered (out : string) (resp : HttpResponse) (c : Connection) :
  let c' := resetRequest (sendToClient (Response.build resp) c) in
  consistent (conn_request c') /\ terminal (conn_request c') = false /\
  pollout c' = negb (is_empty (output_buffer c')).
Proof.
  cbv zeta. unfold resetRequest, sendToClient.
  cbn [conn_request output_buffer pollout].
  rewrite append_build_nonempty.
  split; [apply InvariantFacts.consistent_new | split; reflexivity].
Qed.

Lemma handleClientData_idle (w : World) (server_config : ServerConfig)
    (buffer : string) (c : Connection) :
  consistent (conn_request c) ->
  pollout c = negb (is_empty (output_buffer c)) ->
  let c' := handleClientData w server_config buffer c in
  consistent (conn_request c') /\ terminal (conn_request c') = false /\
  pollout c' = negb (is_empty (output_buffer c')).
Proof.
  intros Hc Hp. cbv zeta. unfold handleClientData.
  destruct (InvariantFacts.parse_consistent buffer _ Hc) as [Hc' Hb].
  destruct (parse buffer (conn_request c)) as [complete request].
  cbn [fst snd] in Hc', Hb.
  destruct complete; [apply (answered (output_buffer c))|].
  destruct (ParseState_eqb (state request) ERROR) eqn:He;
    [apply (answered (output_buffer c))|].
  cbn [conn_request output_buffer pollout].
  split; [exact Hc'|]. split; [|exact Hp].
  unfold terminal. now rewrite <- Hb, He.
Qed.

Lemma flushClientBuffer_idle (sent : Z) (c c' : Connection) :
  consistent (conn_request c) -> terminal (conn_request c) = false ->
  pollout c = negb (is_empty (output_buffer c)) ->
  flushClientBuffer sent c = Some c' ->
  consistent (conn_request c') /\ terminal (conn_request c') = false /\
  pollout c' = negb (is_empty (output_buffer c')).
Proof.
  intros Hc Ht Hp. unfold flushClientBuffer. cbv zeta.
  destruct (is_empty (output_buffer c)) eqn:Ee;
    [intros [= <-]; rewrite Ee; auto|].
  destruct (0 <? sent)%Z; [|discriminate]. intros [= <-].
  cbn [conn_request output_buffer pollout].
  split; [exact Hc|]. split; [exact Ht|].
  destruct (is_empty (drop (Z.to_nat sent) (output_buffer c)));
    [reflexivity | exact Hp].
Qed.

Lemma serve_idle (w : World) (server_config : ServerConfig)
    (events : list Event) (c c' : Connection) :
  consistent (conn_request c) -> terminal (conn_request c) = false ->
  pollout c = negb (is_empty (output_buffer c)) ->
  serve w server_config events c = Some c' ->
  consistent (conn_request c') /\ terminal (conn_request c') = false /\
  pollout c' = negb (is_empty (output_buffer c')).
Proof.
  revert c. induction events as [|e events IH]; intros c Hc Ht Hp;
    cbn [serve]; [intros [= <-]; auto|].
  destruct (on_event w server_config e c) as [c1|] eqn:E; [|discriminate].
  intros Hs.
  assert (H1 : consistent (conn_request c1) /\
               terminal (conn_request c1) = false /\
               pollout c1 = negb (is_empty (output_buffer c1))).
  { destruct e as [received | sent]; cbn [on_event] in E; revert E.
    - destruct (is_empty received); [discriminate|]. intros [= <-].
      now apply handleClientData_idle.
    - destruct (pollout c && negb (is_empty (output_buffer c)));
        [now apply (flushClientBuffer_idle sent c) | intros [= <-]; auto]. }
  destruct H1 as (Hc1 & Ht1 & Hp1). now apply (IH c1).
Qed.

Lemma serve_accepted (w : World) (server_config : ServerConfig)
    (events : list Event) (c : Connection) :
  serve w server_config events accepted = Some c ->
  consistent (conn_request c) /\ terminal (conn_request c) = false /\
  pollout c = negb (is_empty (output_buffer c)).
Proof.
  apply serve_idle; [apply InvariantFacts.consistent_new | reflexivity..].
Qed.

(** The router does not look at the buffer of the request. *)
Lemma buildResponse_extend (w : World) (server_config : ServerConfig)
    (e : string) (r : HttpRequest) :
  buildResponse w server_config (extend e r) = buildResponse w server_config r.
Proof. destruct r. reflexivity. Qed.

End ConnectionFacts.

(** X21.  Between two events of a client that is still connected, its
    request is neither COMPLETE nor in ERROR (every request that ends is
    answered and replaced at once), its cursor is inside its buffer, and
    POLLOUT is asked for exactly when output is pending. *)
Theorem connection_between_events (w : World) (server_config : ServerConfig)
    (events : list Server.Event) (c : Connection) :
  Server.serve w server_config events Server.accepted = Some c ->
  terminal (conn_request c) = false /\
  bytes_parsed (conn_request c) <= String.length (raw_data (conn_request c)) /\
  pollout c = negb (Str.is_empty (output_buffer c)).
Proof.
  intros Hs.
  destruct (ConnectionFacts.serve_accepted w server_config events c Hs)
    as (Hc & Ht & Hp).
  split; [exact Ht|]. split; [|exact Hp].
  exact (InvariantFacts.consistent_inv _ Hc).
Qed.

Lemma connection_between_events_witness :
  exists c,
    Server.serve (world_with_script "" "") Config.default_config
      [Server.Readable "GET / HT"; Server.Readable "TP/9.9";
       Server.Readable (Str.CRLF ++ "x"); Server.Writable 40;
       Server.Writable 4000] Server.accepted = Some c /\
    terminal (conn_request c) = false /\
    bytes_parsed (conn_request c) <= String.length (raw_data (conn_request c)) /\
    pollout c = negb (Str.is_empty (output_buffer c)).
Proof.
  eexists. split; [vm_compute; reflexivity|].
  apply (connection_between_events (world_with_script "" "")
           Config.default_config
           [Server.Readable "GET / HT"; Server.Readable "TP/9.9";
            Server.Readable (Str.CRLF ++ "x"); Server.Writable 40;
            Server.Writable 4000]).
  vm_compute. reflexivity.
Defined.

(** X22.  Bytes that arrive in the same read behind the end of a request
    (COMPLETE, or in ERROR with a code other than 431) are dropped: the
    connection is left as if they had not been received. *)
Theorem bytes_behind_a_request_are_dropped (w : World)
    (server_config : ServerConfig) (events : list Server.Event)
    (c : Connection) (buffer extra : string) :
  Server.serve w server_config events Server.accepted = Some c ->
  terminal (snd (parse buffer (conn_request c))) = true ->
  error_code (snd (parse buffer (conn_request c))) <> 431%Z ->
  Server.handleClientData w server_config (buffer ++ extra) c
  = Server.handleClientData w server_config buffer c.
Proof.
  intros Hs Hdone Hcode.
  destruct (ConnectionFacts.serve_accepted w server_config events c Hs)
    as (Hc & Ht & _).
  destruct (InvariantFacts.parse_consistent buffer _ Hc) as [_ Hb].
  assert (E : parse (buffer ++ extra) (conn_request c)
              = (fst (parse buffer (conn_request c)),
                 extend extra (snd (parse buffer (conn_request c))))).
  { unfold parse in *. rewrite Ht in *.
    change (set_raw_data (raw_data (conn_request c) ++ buffer) (conn_request c))
      with (extend buffer (conn_request c)) in *.
    change (set_raw_data (raw_data (conn_request c) ++ buffer ++ extra)
              (conn_request c))
      with (extend (buffer ++ extra) (conn_request c)).
    rewrite <- ParserFacts.extend_extend.
    destruct (ParserFacts.run_resume extra (extend buffer (conn_request c))
                (ParserFacts.inv_extend buffer _
                   (InvariantFacts.consistent_inv _ Hc)) Ht)
      as (_ & _ & H).
    exact (H Hdone Hcode). }
  unfold Server.handleClientData. rewrite E.
  destruct (parse buffer (conn_request c)) as [complete request].
  cbn [fst snd] in *.
  destruct complete.
  - now rewrite ConnectionFacts.buildResponse_extend.
  - change (state (extend extra request)) with (state request).
    change (error_code (extend extra request)) with (error_code request).
    destruct (ParseState_eqb (state request) ERROR) eqn:He; [reflexivity|].
    unfold terminal in Hdone. rewrite <- Hb, He in Hdone. discriminate.
Qed.

Lemma bytes_behind_a_request_are_dropped_witness :
  Server.handleClientData (world_with_script "" "") Config.default_config
    (("GET / HTTP/1.1" ++ Str.CRLFCRLF) ++ "GET /next HTTP/1.1" ++ Str.CRLFCRLF)
    Server.accepted
  = Server.handleClientData (world_with_script "" "") Config.default_config
      ("GET / HTTP/1.1" ++ Str.CRLFCRLF) Server.accepted.
Proof.
  apply (bytes_behind_a_request_are_dropped (world_with_script "" "")
           Config.default_config [] Server.accepted
           ("GET / HTTP/1.1" ++ Str.CRLFCRLF)
           ("GET /next HTTP/1.1" ++ Str.CRLFCRLF)).
  - reflexivity.
  - reflexivity.
  - vm_compute. discriminate.
Defined.


(* ===================================================================== *)
(** * Further properties: what the request line leaves to the router *)
(* ===================================================================== *)

Module TargetFacts.
Import Str StrFacts ParserFacts.

(** A property of requests that the empty request has and that receiving
    bytes and one pass of the loop keep holds after every sequence of
    calls. *)
Lemma feed_invariant (P : HttpRequest -> Prop) :
  P new ->
  (forall e r, P r -> P (extend e r)) ->
  (forall r, inv r -> terminal r = false -> P r ->
     match step r with Return _ r' => P r' | Continue r' => P r' end) ->
  forall chunks, P (feed chunks new).
Proof.
  intros Hnew Hext Hstep.
  assert (Hrun : forall r, inv r -> P r -> P (snd (run r))).
  { apply (loop_ind (fun r => P r -> P (snd (run r)))). intros r Hinv IH Hp.
    rewrite (run_unfold r Hinv).
    destruct (terminal r) eqn:Ht; [exact Hp|].
    pose proof (Hstep r Hinv Ht Hp) as Hs.
    destruct (step r) as [b r'|r'] eqn:E; [exact Hs|].
    destruct (terminal r') eqn:Ht'; [|now apply IH].
    destruct (step_continue r r' Ht Hinv E) as (_ & Hinv' & _).
    now rewrite (run_unfold r' Hinv'), Ht'. }
  intros chunks. induction chunks as [|c cs IH] using rev_ind; [exact Hnew|].
  rewrite feed_snoc. unfold parse.
  destruct (terminal (feed cs new)); cbn [snd]; [exact IH|].
  apply Hrun; [apply inv_extend, feed_inv | now apply Hext].
Qed.

Lemma find0_char_take (c : ascii) (u : string) (pos : nat) :
  find0 (String c "") u = Some pos -> occurs c (take pos u) = false.
Proof.
  revert pos; induction u as [|x u IH]; intros pos; cbn [find0 starts_with].
  - discriminate.
  - destruct (Ascii.eqb c x) eqn:E; cbn [andb].
    + intros [= <-]. reflexivity.
    + destruct (find0 (String c "") u) as [k|]; [|discriminate].
      intros [= <-]. cbn [take occurs].
      rewrite Ascii.eqb_sym, E. now apply IH.
Qed.

Lemma find0_char_absent (c : ascii) (u : string) :
  find0 (String c "") u = None -> occurs c u = false.
Proof.
  induction u as [|x u IH]; cbn [find0 starts_with]; [reflexivity|].
  destruct (Ascii.eqb c x) eqn:E; cbn [andb]; [discriminate|].
  destruct (find0 (String c "") u) as [k|]; [discriminate|]. intros _.
  cbn [occurs]. rewrite Ascii.eqb_sym, E. now apply IH.
Qed.

Lemma parseRequestLine_kept (line : string) (r : HttpRequest) :
  request_line_kept (parseRequestLine line r).
Proof.
  unfold request_line_kept, parseRequestLine.
  destruct (extract (open_stream line) "") as [iss1 m].
  destruct (extract iss1 (uri r)) as [iss2 u].
  destruct (extract iss2 (http_version r)) as [iss3 v]; rsimpl.
  destruct (HttpMethod_eqb (stringToMethod m) UNKNOWN) eqn:Em;
    [rsimpl; intros [H | [H | H]]; discriminate|].
  destruct (is_empty u || is_empty v);
    [rsimpl; intros [H | [H | H]]; discriminate|].
  destruct (negb (v =? "HTTP/1.1")%string && negb (v =? "HTTP/1.0")%string)
    eqn:Ev; [rsimpl; intros [H | [H | H]]; discriminate|].
  intros _. unfold parseQueryString; rsimpl.
  rewrite RequestLineFacts.find_char_0.
  assert (Hm : stringToMethod m <> UNKNOWN)
    by (intros E; rewrite E in Em; discriminate).
  assert (Hv : v = "HTTP/1.1" \/ v = "HTTP/1.0").
  { destruct (String.eqb_spec v "HTTP/1.1") as [->|]; [now left|].
    destruct (String.eqb_spec v "HTTP/1.0") as [->|]; [now right|].
    discriminate. }
  destruct (find0 "?" u) as [pos|] eqn:Eq; rsimpl.
  - split; [exact Hm|]. split; [|exact Hv].
    unfold substr. cbn [drop]. now apply find0_char_take.
  - split; [exact Hm|]. split; [|exact Hv]. now apply find0_char_absent.
Qed.

Lemma parseHeader_target (line : string) (r : HttpRequest) :
  let r' := parseHeader line r in
  method r' = method r /\ uri r' = uri r /\ http_version r' = http_version r /\
  (state r' = state r \/ state r' = ERROR).
Proof.
  cbv zeta. unfold parseHeader.
  destruct (find_char line ":"); rsimpl; auto.
Qed.

Lemma endOfHeaders_target (r : HttpRequest) :
  let r' := endOfHeaders r in
  method r' = method r /\ uri r' = uri r /\ http_version r' = http_version r.
Proof.
  cbv zeta. unfold endOfHeaders, readBoundary, readContentLength.
  repeat match goal with
         | |- context [match ?x with _ => _ end] => destruct x
         | |- context [if ?x then _ else _] => destruct x
         end; rsimpl; auto.
Qed.

Lemma step_kept (r : HttpRequest) :
  terminal r = false -> request_line_kept r ->
  match step r with
  | Return _ r' => request_line_kept r'
  | Continue r' => request_line_kept r'
  end.
Proof.
  intros Ht Hk. pose proof (step_view r Ht) as V.
  destruct V as [Hh Hf Hl | Hh Hf Hl | k Hs Hf | k Hs Hf He | k Hs Hf He
                | Hs Hc' | Hs Hc' Hl | Hs Hc' Hl].
  - exact Hk.
  - unfold request_line_kept; rsimpl. intros [H | [H | H]]; discriminate.
  - apply parseRequestLine_kept.
  - pose proof (parseHeader_target (line_of r k) (set_bytes_parsed (k + 2) r))
      as (Em & Eu & Ev & Es).
    cbv zeta in *. rsimpl. unfold request_line_kept in *.
    rewrite Em, Eu, Ev. intros _. apply Hk. now left.
  - pose proof (endOfHeaders_target (set_bytes_parsed (k + 2) r))
      as (Em & Eu & Ev).
    cbv zeta in *. rsimpl. unfold request_line_kept in *.
    rewrite Em, Eu, Ev. intros _. apply Hk. now left.
  - unfold request_line_kept; rsimpl. intros [H | [H | H]]; discriminate.
  - unfold request_line_kept in *; rsimpl. intros _. apply Hk. auto.
  - exact Hk.
Qed.

Lemma feed_kept (chunks : list string) : request_line_kept (feed chunks new).
Proof.
  apply (feed_invariant request_line_kept).
  - intros [H | [H | H]]; discriminate.
  - intros e r Hk. exact Hk.
  - intros r _ Ht Hk. now apply step_kept.
Qed.

End TargetFacts.

(** X23.  A request that has got past its request line, and so every
    COMPLETE request, has a known method, a version that is HTTP/1.0 or
    HTTP/1.1, and a URI that holds no '?': the query has been cut off. *)
Theorem request_past_its_line (chunks : list string) :
  state (feed chunks new) = HEADERS \/ state (feed chunks new) = BODY \/
  state (feed chunks new) = COMPLETE ->
  method (feed chunks new) <> UNKNOWN /\
  occurs "?" (uri (feed chunks new)) = false /\
  (http_version (feed chunks new) = "HTTP/1.1" \/
   http_version (feed chunks new) = "HTTP/1.0").
Proof. exact (TargetFacts.feed_kept chunks). Qed.

Lemma request_past_its_line_witness :
  method (feed ["GET /a?b=1 HT"; "TP/1.0" ++ Str.CRLF] new) <> UNKNOWN /\
  occurs "?" (uri (feed ["GET /a?b=1 HT"; "TP/1.0" ++ Str.CRLF] new)) = false /\
  (http_version (feed ["GET /a?b=1 HT"; "TP/1.0" ++ Str.CRLF] new) = "HTTP/1.1" \/
   http_version (feed ["GET /a?b=1 HT"; "TP/1.0" ++ Str.CRLF] new) = "HTTP/1.0").
Proof.
  apply (request_past_its_line ["GET /a?b=1 HT"; "TP/1.0" ++ Str.CRLF]).
  left. reflexivity.
Defined.

(** X24.  For a COMPLETE request the gateway starts the script with an
    empty QUERY_STRING, whatever the request target was: it looks for the
    query in the URI, from which the parser has already cut it.  The
    answer does not depend on what the script would print under any other
    environment. *)
Theorem cgi_query_string_is_empty (w : World) (chunks : list string)
    (script_path interpreter : string) (location : LocationConfig)
    (cgi' : string -> string -> list string -> string -> string) :
  state (feed chunks new) = COMPLETE ->
  (forall i s env input,
      In "QUERY_STRING=" env -> cgi' i s env input = cgi_output w i s env input) ->
  Server.executeCgi
    (mkWorld (stat w) (read_file w) (read_dir w) (remove_ok w) (write_ok w)
       (pipe_ok w) (fork_ok w) cgi')
    script_path interpreter (feed chunks new) location
  = Server.executeCgi w script_path interpreter (feed chunks new) location.
Proof.
  intros Hs Hcgi.
  destruct (TargetFacts.feed_kept chunks) as (_ & Hq & _); [auto|].
  apply RequestLineFacts.find0_char_none in Hq.
  rewrite <- RequestLineFacts.find_char_0 in Hq.
  generalize dependent (feed chunks new). intros r _ Hq.
  unfold Server.executeCgi. cbv zeta. cbn [stat pipe_ok fork_ok cgi_output].
  rewrite Hq.
  destruct (stat w script_path) as [[| |]|]; try reflexivity.
  rewrite Hcgi; [reflexivity|].
  cbn [List.app In]. auto 8.
Qed.


Lemma cgi_query_string_is_empty_witness :
  Server.executeCgi
    (mkWorld (stat (world_with_script "./www/q.py" "found"))
       (read_file (world_with_script "./www/q.py" "found"))
       (read_dir (world_with_script "./www/q.py" "found"))
       (remove_ok (world_with_script "./www/q.py" "found"))
       (write_ok (world_with_script "./www/q.py" "found"))
       (pipe_ok (world_with_script "./www/q.py" "found"))
       (fork_ok (world_with_script "./www/q.py" "found"))
       (fun _ _ env _ =>
          if existsb (String.eqb "QUERY_STRING=") env then "found" else "lost"))
    "./www/q.py" "/usr/bin/python3"
    (feed ["GET /q.py?name=x HTTP/1.1" ++ Str.CRLFCRLF] new)
    Config.root_location
  = Server.executeCgi (world_with_script "./www/q.py" "found")
      "./www/q.py" "/usr/bin/python3"
      (feed ["GET /q.py?name=x HTTP/1.1" ++ Str.CRLFCRLF] new)
      Config.root_location.
Proof.
  apply (cgi_query_string_is_empty (world_with_script "./www/q.py" "found")
           ["GET /q.py?name=x HTTP/1.1" ++ Str.CRLFCRLF]).
  - reflexivity.
  - intros i s env input Hin. cbn [cgi_output world_with_script].
    replace (existsb (String.eqb "QUERY_STRING=") env) with true; [reflexivity|].
    symmetry. apply existsb_exists. exists "QUERY_STRING=".
    split; [exact Hin | reflexivity].
Defined.


(* ===================================================================== *)
(** * Further properties: the output of a CGI script *)
(* ===================================================================== *)

Module CgiFacts.
Import Str StrFacts Server.

Lemma occurs_append (c : ascii) (a b : string) :
  occurs c (a ++ b) = occurs c a || occurs c b.
Proof.
  induction a as [|x a IH]; [reflexivity|].
  cbn [append occurs]. now rewrite IH, orb_assoc.
Qed.

Lemma occurs_toLower (c : ascii) (s : string) :
  occurs c s = true -> occurs (tolower c) (toLower s) = true.
Proof.
  unfold toLower. induction s as [|x s IH]; [discriminate|].
  cbn [occurs map]. intros H. apply orb_true_iff in H as [H | H].
  - apply Ascii.eqb_eq in H. subst x. now rewrite Ascii.eqb_refl.
  - rewrite (IH H). apply orb_true_r.
Qed.

(** A header name that reads "content-type" holds no colon, CR or LF. *)
Lemma content_type_name (name : string) (c : ascii) :
  toLower name = "content-type" ->
  c = ":"%char \/ c = CR \/ c = LF -> occurs c name = false.
Proof.
  intros Hn Hc. destruct (occurs c name) eqn:E; [|reflexivity].
  apply occurs_toLower in E. rewrite Hn in E.
  destruct Hc as [-> | [-> | ->]]; discriminate E.
Qed.

Lemma find0_at_first (c : ascii) (p a b : string) :
  occurs c a = false ->
  find0 (String c p) (a ++ String c p ++ b) = Some (String.length a).
Proof.
  intros Ha. induction a as [|x a IH].
  - cbn [append String.length find0 starts_with].
    rewrite Ascii.eqb_refl. cbn [andb].
    assert (E : starts_with p (p ++ b) = true)
      by (apply starts_with_iff; now exists b).
    now rewrite E.
  - cbn [occurs] in Ha. apply orb_false_iff in Ha as [Hx Ha].
    change (String x a ++ String c p ++ b)
      with (String x (a ++ String c p ++ b)).
    cbn [find0 starts_with String.length].
    rewrite Ascii.eqb_sym, Hx. cbn [andb]. now rewrite (IH Ha).
Qed.

Lemma getlines_one (s cur : string) :
  occurs LF s = false ->
  getlines s cur = if is_empty (cur ++ s) then [] else [cur ++ s].
Proof.
  revert cur; induction s as [|c s IH]; intros cur H; cbn [getlines].
  - now rewrite append_nil_r.
  - cbn [occurs] in H. apply orb_false_iff in H as [Hc Hs].
    rewrite Hc, (IH _ Hs), append_assoc. reflexivity.
Qed.

Lemma last_char_append (a : string) (c : ascii) (t : string) :
  last_char (a ++ String c t) = last_char (String c t).
Proof.
  induction a as [|x a IH]; [reflexivity|].
  cbn [append]. rewrite <- IH. cbn [last_char].
  destruct (a ++ String c t) eqn:E; [|reflexivity].
  destruct a; discriminate E.
Qed.

Lemma last_char_absent (c : ascii) (s : string) :
  occurs c s = false ->
  match last_char s with Some x => Ascii.eqb x c = false | None => True end.
Proof.
  induction s as [|x s IH]; [exact (fun _ => I)|].
  cbn [occurs]. intros H. apply orb_false_iff in H as [Hx Hs].
  cbn [last_char]. destruct s as [|y s]; [exact Hx | exact (IH Hs)].
Qed.

Lemma cgiHeaderLine_content_type (name type : string) (acc : string * Z) :
  toLower name = "content-type" ->
  occurs CR type = false ->
  find_first_not_of type (String " " (String TAB "")) = Some 0 ->
  cgiHeaderLine (name ++ ": " ++ type) acc = (type, snd acc).
Proof.
  intros Hn Hcr Hfirst. destruct acc as [content_type response_code].
  destruct type as [|c t]; [discriminate|].
  unfold cgiHeaderLine.
  assert (Hlast : last_char (name ++ ": " ++ String c t)
                  = last_char (String c t)).
  { rewrite <- (append_assoc name ": " (String c t)).
    apply last_char_append. }
  rewrite Hlast. pose proof (last_char_absent CR _ Hcr) as Hl.
  destruct (last_char (String c t)) as [x|]; [rewrite Hl|].
  all: assert (Hne : is_empty (name ++ ": " ++ String c t) = false)
         by (destruct name; reflexivity).
  all: rewrite Hne, RequestLineFacts.find_char_0.
  all: change (name ++ ": " ++ String c t)
         with (name ++ String ":" (String " " (String c t))).
  all: rewrite (RequestLineFacts.find0_char_split ":" name _
                  (content_type_name name ":" Hn (or_introl eq_refl))).
  all: unfold substr, substr_from; cbn [drop].
  all: rewrite take_length_append, <- (drop_drop 1 (String.length name)),
         drop_length_append.
  all: cbn [drop find_first_not_of mem].
  all: cbn [find_first_not_of mem] in Hfirst.
  all: rewrite Ascii.eqb_refl; cbn [orb].
  all: destruct (Ascii.eqb c " " || (Ascii.eqb c TAB || false));
         [destruct (find_first_not_of t _); discriminate Hfirst|].
  all: cbn [option_map drop].
  all: change (map tolower name) with (toLower name); rewrite Hn.
  all: reflexivity.
Qed.

Lemma parseCgiOutput_content_type (name type content : string) :
  toLower name = "content-type" ->
  occurs CR type = false -> occurs LF type = false ->
  find_first_not_of type (String " " (String TAB "")) = Some 0 ->
  parseCgiOutput (name ++ ": " ++ type ++ CRLFCRLF ++ content)
  = (content, type, 200%Z).
Proof.
  intros Hn Hcr Hlf Hfirst.
  assert (Ha : forall c, c = CR \/ c = LF ->
                 occurs c type = false -> occurs c (name ++ ": " ++ type) = false).
  { intros c Hc Ht. rewrite !occurs_append, Ht.
    rewrite (content_type_name name c Hn (or_intror Hc)).
    destruct Hc as [-> | ->]; reflexivity. }
  replace (name ++ ": " ++ type ++ CRLFCRLF ++ content)
    with ((name ++ ": " ++ type) ++ CRLFCRLF ++ content)
    by (now rewrite !append_assoc).
  set (a := name ++ ": " ++ type) in *.
  unfold parseCgiOutput. rewrite StaticFacts.find_0.
  change CRLFCRLF with (String CR (String LF CRLF)).
  rewrite (find0_at_first CR _ a content (Ha CR (or_introl eq_refl) Hcr)).
  cbv zeta. unfold substr, substr_from. cbn [drop].
  rewrite take_length_append, <- (drop_drop 4 (String.length a)),
    drop_length_append.
  cbn [drop append].
  rewrite (getlines_one a "" (Ha LF (or_intror eq_refl) Hlf)).
  cbn [append].
  assert (Hne : is_empty a = false) by (subst a; destruct name; reflexivity).
  rewrite Hne. cbn [fold_left]. subst a.
  now rewrite (cgiHeaderLine_content_type name type _ Hn Hcr Hfirst).
Qed.

End CgiFacts.

(** X25.  When the script prints one header line "Content-Type: type" (the
    name in any letter case, the type without CR or LF and starting with
    neither space nor tab), an empty line and a content, the gateway
    answers 200 with that content under that type. *)
Theorem cgi_content_type_is_passed_on (w : World)
    (script_path interpreter : string) (request : HttpRequest)
    (location : LocationConfig) (name type content : string) :
  stat w script_path = Some RegularFile ->
  pipe_ok w = true -> fork_ok w = true ->
  (forall env input,
      cgi_output w interpreter script_path env input
      = name ++ ": " ++ type ++ Str.CRLFCRLF ++ content) ->
  toLower name = "content-type" ->
  occurs Str.CR type = false -> occurs Str.LF type = false ->
  Str.find_first_not_of type (String " " (String Str.TAB "")) = Some 0 ->
  Server.executeCgi w script_path interpreter request location
  = Response.ok content type.
Proof.
  intros Hstat Hpipe Hfork Hout Hn Hcr Hlf Hfirst.
  unfold Server.executeCgi. cbv zeta.
  rewrite Hstat, Hpipe, Hfork, Hout. cbn [negb].
  rewrite (CgiFacts.parseCgiOutput_content_type name type content
             Hn Hcr Hlf Hfirst).
  destruct name; reflexivity.
Qed.

Lemma cgi_content_type_is_passed_on_witness :
  Server.executeCgi
    (world_with_script "./www/a.py"
       ("CONTENT-type" ++ ": " ++ "text/plain; charset=utf-8"
        ++ Str.CRLFCRLF ++ "hello"))
    "./www/a.py" "/usr/bin/python3" (set_method GET new) Config.root_location
  = Response.ok "hello" "text/plain; charset=utf-8".
Proof.
  apply (cgi_content_type_is_passed_on
           (world_with_script "./www/a.py"
              ("CONTENT-type" ++ ": " ++ "text/plain; charset=utf-8"
               ++ Str.CRLFCRLF ++ "hello"))
           "./www/a.py" "/usr/bin/python3" (set_method GET new)
           Config.root_location "CONTENT-type" "text/plain; charset=utf-8"
           "hello"); reflexivity.
Defined.


(* ===================================================================== *)
(** * Further properties: routing under the built-in configuration *)
(* ===================================================================== *)

Module DefaultRouteFacts.
Import Str StrFacts Server.

Lemma findLocation_default (target : string) :
  Config.findLocation target Config.default_config
  = if starts_with "/" target then Some Config.root_location else None.
Proof.
  unfold Config.findLocation.
  cbn [locations Config.default_config Config.findLocation_from loc_path
       Config.root_location].
  rewrite StaticFacts.find_0.
  destruct (starts_with "/" target) eqn:E.
  - apply FindFacts.find0_zero in E. rewrite E. reflexivity.
  - destruct (find0 "/" target) as [[|k]|] eqn:F; try reflexivity.
    apply FindFacts.find0_zero in F. congruence.
Qed.

End DefaultRouteFacts.

(** X26.  Under the configuration [Config::parse] builds, a request whose
    URI does not begin with '/' is answered 404; any other GET or DELETE
    goes to the static handler on ./www, any other POST to the upload
    handler on ./uploads with the limit of 1 MiB, and any other request
    (PUT and HEAD among them) is answered 405; no script is run. *)
Theorem routing_under_the_default_configuration (w : World)
    (request : HttpRequest) :
  (Str.starts_with "/" (uri request) = false ->
     Server.buildResponse w Config.default_config request
     = Response.notFound w "Location not configured") /\
  (Str.starts_with "/" (uri request) = true ->
     (method request = GET \/ method request = DELETE ->
        Server.buildResponse w Config.default_config request
        = Static.handleRequest w (mkStatic "./www" false "index.html") request) /\
     (method request = POST ->
        Server.buildResponse w Config.default_config request
        = Upload.handleUpload w (mkUpload "./uploads" 1048576) request) /\
     (method request = PUT \/ method request = HEAD \/ method request = UNKNOWN ->
        Server.buildResponse w Config.default_config request
        = Response.methodNotAllowed "Method not allowed for this location")).
Proof.
  unfold Server.buildResponse.
  rewrite DefaultRouteFacts.findLocation_default.
  split; intros E; rewrite E; [reflexivity|].
  unfold getMethodString.
  split; [|split].
  - intros [-> | ->]; reflexivity.
  - intros ->; reflexivity.
  - intros [-> | [-> | ->]]; reflexivity.
Qed.


(* ===================================================================== *)
(** * Further properties: the boundary of an upload *)
(* ===================================================================== *)

Module BoundaryFacts.
Import Str StrFacts ParserFacts.

Lemma parseRequestLine_boundary (line : string) (r : HttpRequest) :
  boundary (parseRequestLine line r) = boundary r.
Proof.
  unfold parseRequestLine.
  destruct (extract (open_stream line) "") as [iss1 m].
  destruct (extract iss1 (uri r)) as [iss2 u].
  destruct (extract iss2 (http_version r)) as [iss3 v]; rsimpl.
  destruct (HttpMethod_eqb (stringToMethod m) UNKNOWN); [reflexivity|].
  destruct (is_empty u || is_empty v); [reflexivity|].
  destruct (negb (v =? "HTTP/1.1")%string && negb (v =? "HTTP/1.0")%string);
    [reflexivity|].
  unfold parseQueryString; rsimpl. now destruct (find_char u "?").
Qed.

Lemma parseHeader_boundary (line : string) (r : HttpRequest) :
  boundary (parseHeader line r) = boundary r.
Proof. unfold parseHeader. now destruct (find_char line ":"). Qed.

Lemma endOfHeaders_boundary (r : HttpRequest) :
  boundary r = "" ->
  let r' := endOfHeaders r in
  ~ in_head r' /\
  (boundary r' <> "" ->
   find (getHeader r' "Content-Type") "multipart/form-data" 0 <> None /\
   find (getHeader r' "Content-Type") "boundary=" 0 <> None).
Proof.
  intros Hb. cbv zeta. unfold endOfHeaders.
  set (r1 := readContentLength r).
  assert (H1 : headers r1 = headers r /\ boundary r1 = "").
  { subst r1. unfold readContentLength.
    destruct (negb (is_empty (getHeader r "Content-Length"))); rsimpl; auto. }
  clearbody r1. destruct H1 as [Hh1 Hb1].
  assert (H2 : boundary (readBoundary r1) <> "" ->
               find (getHeader r1 "Content-Type") "multipart/form-data" 0 <> None /\
               find (getHeader r1 "Content-Type") "boundary=" 0 <> None).
  { unfold readBoundary.
    destruct (find (getHeader r1 "Content-Type") "multipart/form-data" 0);
      [|intros H; now elim H].
    destruct (find (getHeader r1 "Content-Type") "boundary=" 0);
      [|intros H; now elim H].
    intros _. split; discriminate. }
  assert (H3 : getHeader (readBoundary r1) "Content-Type"
               = getHeader r1 "Content-Type").
  { unfold readBoundary.
    destruct (find (getHeader r1 "Content-Type") "multipart/form-data" 0);
      [|reflexivity].
    now destruct (find (getHeader r1 "Content-Type") "boundary=" 0). }
  generalize dependent (readBoundary r1). intros r2 H2 H3.
  unfold in_head.
  destruct ((0 <? content_length r2)%N || isChunked r2); rsimpl;
    (split; [intros [H | H]; discriminate|]);
    change (getHeader (set_state ?s r2) "Content-Type")
      with (getHeader r2 "Content-Type"); rewrite H3; exact H2.
Qed.

Lemma step_boundary (r : HttpRequest) :
  terminal r = false -> boundary_from_header r ->
  match step r with
  | Return _ r' => boundary_from_header r'
  | Continue r' => boundary_from_header r'
  end.
Proof.
  intros Ht [Hhead Hb]. pose proof (step_view r Ht) as V.
  destruct V as [Hh Hf Hl | Hh Hf Hl | k Hs Hf | k Hs Hf He | k Hs Hf He
                | Hs Hc' | Hs Hc' Hl | Hs Hc' Hl].
  - now split.
  - split; [intros [H | H]; discriminate H | exact Hb].
  - assert (E : boundary (parseRequestLine (line_of r k)
                            (set_bytes_parsed (k + 2) r)) = "")
      by (rewrite parseRequestLine_boundary; apply Hhead; now left).
    split; [intros _; exact E | intros H; now elim H].
  - assert (E : boundary (parseHeader (line_of r k)
                            (set_bytes_parsed (k + 2) r)) = "")
      by (rewrite parseHeader_boundary; apply Hhead; now right).
    split; [intros _; exact E | intros H; now elim H].
  - destruct (endOfHeaders_boundary (set_bytes_parsed (k + 2) r)) as [Hn Hb'];
      [apply Hhead; now right|].
    split; [intros H; now elim Hn | exact Hb'].
  - split; [intros [H | H]; discriminate H | exact Hb].
  - split; [intros [H | H]; discriminate H | exact Hb].
  - now split.
Qed.

Lemma feed_boundary (chunks : list string) :
  boundary_from_header (feed chunks new).
Proof.
  apply (TargetFacts.feed_invariant boundary_from_header).
  - split; [reflexivity | intros H; now elim H].
  - intros e r H. exact H.
  - intros r _ Ht H. now apply step_boundary.
Qed.

End BoundaryFacts.

(** X27.  The upload handler answers 200 to a request that came through
    the parser only if the request is a POST whose Content-Type header
    names multipart/form-data and a boundary. *)
Theorem upload_needs_a_multipart_post (w : World) (h : UploadHandler)
    (chunks : list string) :
  status_code (Upload.handleUpload w h (feed chunks new)) = 200%Z ->
  method (feed chunks new) = POST /\
  Static.contains "multipart/form-data"
    (getHeader (feed chunks new) "Content-Type") /\
  Static.contains "boundary=" (getHeader (feed chunks new) "Content-Type").
Proof.
  destruct (BoundaryFacts.feed_boundary chunks) as [_ Hb].
  generalize dependent (feed chunks new). intros r Hb.
  unfold Upload.handleUpload. cbv zeta.
  destruct (method r); cbn [HttpMethod_eqb negb]; try discriminate.
  destruct (max_upload_size h <? content_length r)%N; [discriminate|].
  destruct (Str.is_empty (boundary r)) eqn:Ee; [discriminate|].
  intros _. split; [reflexivity|].
  destruct Hb as [H1 H2]; [intros E; rewrite E in Ee; discriminate|].
  split; apply FindFacts.find_contains; assumption.
Qed.


Lemma upload_needs_a_multipart_post_witness :
  method
    (feed
       ["POST /up HTTP/1.1" ++ Str.CRLF
        ++ "Content-Type: multipart/form-data; boundary=XX" ++ Str.CRLF
        ++ "Content-Length: 83" ++ Str.CRLFCRLF;
        "--XX" ++ Str.CRLF
        ++ "Content-Disposition: form-data; name=" ++ Str.DQ ++ "f" ++ Str.DQ
        ++ "; filename=" ++ Str.DQ ++ "a.txt" ++ Str.DQ ++ Str.CRLFCRLF
        ++ "hello" ++ Str.CRLF ++ "--XX--" ++ Str.CRLF] new) = POST /\
  Static.contains "multipart/form-data"
    (getHeader
       (feed
          ["POST /up HTTP/1.1" ++ Str.CRLF
           ++ "Content-Type: multipart/form-data; boundary=XX" ++ Str.CRLF
           ++ "Content-Length: 83" ++ Str.CRLFCRLF;
           "--XX" ++ Str.CRLF
           ++ "Content-Disposition: form-data; name=" ++ Str.DQ ++ "f" ++ Str.DQ
           ++ "; filename=" ++ Str.DQ ++ "a.txt" ++ Str.DQ ++ Str.CRLFCRLF
           ++ "hello" ++ Str.CRLF ++ "--XX--" ++ Str.CRLF] new)
       "Content-Type") /\
  Static.contains "boundary="
    (getHeader
       (feed
          ["POST /up HTTP/1.1" ++ Str.CRLF
           ++ "Content-Type: multipart/form-data; boundary=XX" ++ Str.CRLF
           ++ "Content-Length: 83" ++ Str.CRLFCRLF;
           "--XX" ++ Str.CRLF
           ++ "Content-Disposition: form-data; name=" ++ Str.DQ ++ "f" ++ Str.DQ
           ++ "; filename=" ++ Str.DQ ++ "a.txt" ++ Str.DQ ++ Str.CRLFCRLF
           ++ "hello" ++ Str.CRLF ++ "--XX--" ++ Str.CRLF] new)
       "Content-Type").
Proof.
  apply (upload_needs_a_multipart_post world_open_to_writes
           (mkUpload "./uploads" 1048576)).
  vm_compute. reflexivity.
Defined.


(* ===================================================================== *)
(** * Further properties: chunked requests *)
(* ===================================================================== *)

Module ChunkedFacts.
Import Str StrFacts ParserFacts.

Lemma endOfHeaders_chunked (r : HttpRequest) :
  complete_not_chunked (endOfHeaders r).
Proof.
  unfold complete_not_chunked, endOfHeaders.
  destruct ((0 <? content_length (readBoundary (readContentLength r)))%N)
    eqn:El; cbn [orb]; [rsimpl; discriminate|].
  destruct (isChunked (readBoundary (readContentLength r))) eqn:Ec;
    [rsimpl; discriminate|].
  intros _. exact Ec.
Qed.

Lemma step_chunked (r : HttpRequest) :
  terminal r = false ->
  match step r with
  | Return _ r' => complete_not_chunked r'
  | Continue r' => complete_not_chunked r'
  end.
Proof.
  intros Ht. pose proof (step_view r Ht) as V.
  assert (Hnc : state r <> COMPLETE)
    by (unfold terminal in Ht; destruct (state r); discriminate).
  destruct V as [Hh Hf Hl | Hh Hf Hl | k Hs Hf | k Hs Hf He | k Hs Hf He
                | Hs Hc' | Hs Hc' Hl | Hs Hc' Hl];
    unfold complete_not_chunked.
  - intros H. now elim Hnc.
  - rsimpl. discriminate.
  - pose proof (InvariantFacts.parseRequestLine_effect (line_of r k)
                  (set_bytes_parsed (k + 2) r)) as (_ & _ & _ & Ed).
    cbv zeta in Ed. intros H.
    destruct Ed as [(Es & _) | (Es & _)]; congruence.
  - pose proof (InvariantFacts.parseHeader_effect (line_of r k)
                  (set_bytes_parsed (k + 2) r)) as (_ & _ & Ed).
    cbv zeta in Ed. rsimpl. intros H.
    destruct Ed as [(Es & _) | (Es & _)]; congruence.
  - apply endOfHeaders_chunked.
  - rsimpl. discriminate.
  - intros _. exact Hc'.
  - intros H. now elim Hnc.
Qed.

Lemma feed_chunked (chunks : list string) :
  complete_not_chunked (feed chunks new).
Proof.
  apply (TargetFacts.feed_invariant complete_not_chunked).
  - discriminate.
  - intros e r H Hs. rewrite isChunked_extend. now apply H.
  - intros r _ Ht _. now apply step_chunked.
Qed.

End ChunkedFacts.

(** X28.  No request with a Transfer-Encoding header that names "chunked"
    (in any letter case) ever becomes COMPLETE: whatever is fed, such a
    request is never handed to the router. *)
Theorem chunked_request_never_completes (chunks : list string) :
  state (feed chunks new) = COMPLETE -> isChunked (feed chunks new) = false.
Proof. exact (ChunkedFacts.feed_chunked chunks). Qed.

Lemma chunked_request_never_completes_witness :
  isChunked
    (feed ["GET / HTTP/1.1" ++ Str.CRLF; "Transfer-Encoding: identity";
           Str.CRLFCRLF] new) = false.
Proof.
  apply (chunked_request_never_completes
           ["GET / HTTP/1.1" ++ Str.CRLF; "Transfer-Encoding: identity";
            Str.CRLFCRLF]).
  reflexivity.
Defined.


(* ===================================================================== *)
(** * Further properties: where the body comes from *)
(* ===================================================================== *)

Module BodyFacts.
Import Str StrFacts ParserFacts.

Lemma take_add (n m : nat) (s : string) :
  take (n + m) s = take n s ++ take m (drop n s).
Proof.
  revert s; induction n as [|n IH]; intros s; [reflexivity|].
  destruct s as [|c s]; cbn [Nat.add take drop append].
  - now destruct m.
  - now rewrite IH.
Qed.

Lemma run_raw (r : HttpRequest) :
  inv r -> raw_data (snd (run r)) = raw_data r.
Proof.
  revert r. apply loop_ind. intros r Hinv IH.
  rewrite (run_unfold r Hinv).
  destruct (terminal r) eqn:Ht; [reflexivity|].
  destruct (step r) as [b r'|r'] eqn:Hstep.
  - destruct (step_return r r' b Ht Hstep) as [_ [-> | [(-> & _) | (-> & _)]]];
      reflexivity.
  - destruct (step_continue r r' Ht Hinv Hstep) as (Hraw & Hinv' & _).
    destruct (terminal r') eqn:Ht'.
    + now rewrite (run_unfold r' Hinv'), Ht'.
    + now rewrite (IH r' eq_refl eq_refl Ht').
Qed.

(** The buffer holds the bytes received, up to the call that ended the
    request. *)
Lemma feed_raw (chunks : list string) :
  exists rest,
    concat_chunks chunks = raw_data (feed chunks new) ++ rest /\
    (terminal (feed chunks new) = false -> rest = "").
Proof.
  induction chunks as [|c cs IH] using rev_ind.
  - exists "". split; reflexivity.
  - destruct IH as (rest & E & Hrest).
    rewrite feed_snoc, concat_chunks_snoc. unfold parse.
    destruct (terminal (feed cs new)) eqn:Ht; cbn [snd].
    + exists (rest ++ c). rewrite E, append_assoc, Ht. split; [reflexivity|].
      discriminate.
    + exists "". split; [|reflexivity].
      change (set_raw_data (raw_data (feed cs new) ++ c) (feed cs new))
        with (extend c (feed cs new)).
      rewrite (run_raw _ (inv_extend c _ (feed_inv cs))), append_nil_r.
      rewrite E, (Hrest eq_refl), append_nil_r. reflexivity.
Qed.

Lemma step_body (r : HttpRequest) :
  inv r -> terminal r = false -> body_in_buffer r ->
  match step r with
  | Return _ r' => body_in_buffer r'
  | Continue r' => body_in_buffer r'
  end.
Proof.
  intros Hinv Ht [Hc _].
  pose proof (InvariantFacts.step_consistent r Hc Ht) as Hs.
  pose proof (step_view r Ht) as V.
  assert (Hnc : state r <> COMPLETE)
    by (unfold terminal in Ht; destruct (state r); discriminate).
  assert (Hbody : body r = "") by (apply Hc; exact Hnc).
  destruct V as [Hh Hf Hl | Hh Hf Hl | k Hst Hf | k Hst Hf He | k Hst Hf He
                | Hst Hc' | Hst Hc' Hl | Hst Hc' Hl].
  - destruct Hs as (_ & Hc1 & Hn1). split; [exact Hc1 | intros H; now elim Hn1].
  - destruct Hs as (_ & Hc1 & Hn1). split; [exact Hc1 | intros H; now elim Hn1].
  - split; [exact Hs|].
    pose proof (InvariantFacts.parseRequestLine_effect (line_of r k)
                  (set_bytes_parsed (k + 2) r)) as (_ & _ & _ & Ed).
    cbv zeta in Ed. intros H.
    destruct Ed as [(Es & _) | (Es & _)]; congruence.
  - split; [exact Hs|].
    pose proof (InvariantFacts.parseHeader_effect (line_of r k)
                  (set_bytes_parsed (k + 2) r)) as (_ & _ & Ed).
    cbv zeta in Ed. rsimpl. intros H.
    destruct Ed as [(Es & _) | (Es & _)]; congruence.
  - split; [exact Hs|].
    pose proof (InvariantFacts.endOfHeaders_effect (set_bytes_parsed (k + 2) r))
      as (_ & Eb & _).
    cbv zeta in Eb. rsimpl. intros _. rewrite Eb, Hbody.
    eexists. now rewrite append_nil_r.
  - destruct Hs as (_ & Hc1 & Hn1). split; [exact Hc1 | intros H; now elim Hn1].
  - split; [exact Hs|]. rsimpl. intros _.
    exists (take (bytes_parsed r) (raw_data r)). apply take_add.
  - destruct Hs as (_ & Hc1 & Hn1). split; [exact Hc1 | intros H; now elim Hn1].
Qed.

Lemma feed_body (chunks : list string) : body_in_buffer (feed chunks new).
Proof.
  apply (TargetFacts.feed_invariant body_in_buffer).
  - split; [apply InvariantFacts.consistent_new | discriminate].
  - intros e r [Hc Hb]. split; [now apply InvariantFacts.consistent_extend|].
    rsimpl. intros Hs. destruct (Hb Hs) as [head E]. exists head.
    rewrite take_append; [exact E | apply Hc].
  - intros r Hinv Ht H. now apply step_body.
Qed.

End BodyFacts.

(** X29.  The body of a COMPLETE request is the last bytes of the part of
    the buffer that has been read, and the buffer is a beginning of the
    bytes received: the body is a piece of what the client sent, taken
    where the header block ends. *)
Theorem body_is_read_from_the_stream (chunks : list string) :
  state (feed chunks new) = COMPLETE ->
  exists head rest,
    Str.take (bytes_parsed (feed chunks new)) (raw_data (feed chunks new))
    = head ++ body (feed chunks new) /\
    concat_chunks chunks = raw_data (feed chunks new) ++ rest.
Proof.
  intros Hs.
  destruct (BodyFacts.feed_body chunks) as [_ Hb].
  destruct (Hb Hs) as [head E].
  destruct (BodyFacts.feed_raw chunks) as (rest & Er & _).
  now exists head, rest.
Qed.

Lemma body_is_read_from_the_stream_witness :
  exists head rest,
    Str.take
      (bytes_parsed
         (feed ["POST /f HTTP/1.1" ++ Str.CRLF ++ "Content-Length: 3"
                ++ Str.CRLFCRLF ++ "ab"; "cde"] new))
      (raw_data
         (feed ["POST /f HTTP/1.1" ++ Str.CRLF ++ "Content-Length: 3"
                ++ Str.CRLFCRLF ++ "ab"; "cde"] new))
    = head ++ body
                (feed ["POST /f HTTP/1.1" ++ Str.CRLF ++ "Content-Length: 3"
                       ++ Str.CRLFCRLF ++ "ab"; "cde"] new) /\
    concat_chunks ["POST /f HTTP/1.1" ++ Str.CRLF ++ "Content-Length: 3"
                   ++ Str.CRLFCRLF ++ "ab"; "cde"]
    = raw_data
        (feed ["POST /f HTTP/1.1" ++ Str.CRLF ++ "Content-Length: 3"
               ++ Str.CRLFCRLF ++ "ab"; "cde"] new) ++ rest.
Proof.
  apply (body_is_read_from_the_stream
           ["POST /f HTTP/1.1" ++ Str.CRLF ++ "Content-Length: 3"
            ++ Str.CRLFCRLF ++ "ab"; "cde"]).
  reflexivity.
Defined.


(* ===================================================================== *)
(** * Further properties: the text of a response *)
(* ===================================================================== *)

Module WireFacts.
Import Str StrFacts.

Lemma find_In (k v : string) (m : StdMap.t) :
  StdMap.find k m = Some v -> In (k, v) m.
Proof.
  induction m as [|[k' v'] m IH]; cbn [StdMap.find]; [discriminate|].
  destruct (String.eqb_spec k k') as [<- | Hne].
  - intros [= <-]. now left.
  - intros H. right. now apply IH.
Qed.

(** The header lines of a map: nothing, or a text that ends with CRLF. *)
Lemma header_lines_end (m : StdMap.t) :
  let text := fold_right
                (fun kv acc => fst kv ++ ": " ++ snd kv ++ CRLF ++ acc) "" m in
  text = "" \/ exists t, text = t ++ CRLF.
Proof.
  cbv zeta. induction m as [|e m IH]; [now left|].
  right. cbn [fold_right]. destruct IH as [-> | [t ->]].
  - exists (fst e ++ ": " ++ snd e). now rewrite append_nil_r, !append_assoc.
  - exists (fst e ++ ": " ++ snd e ++ CRLF ++ t). now rewrite !append_assoc.
Qed.

Lemma header_lines_app (m1 m2 : StdMap.t) :
  fold_right (fun kv acc => fst kv ++ ": " ++ snd kv ++ CRLF ++ acc) ""
    (m1 ++ m2)%list
  = fold_right (fun kv acc => fst kv ++ ": " ++ snd kv ++ CRLF ++ acc) "" m1
    ++ fold_right (fun kv acc => fst kv ++ ": " ++ snd kv ++ CRLF ++ acc) "" m2.
Proof.
  induction m1 as [|e m1 IH]; [reflexivity|].
  cbn [List.app fold_right]. now rewrite IH, !append_assoc.
Qed.

(** What [build] writes for a response whose headers announce its body. *)
Lemma build_framed (resp : HttpResponse) :
  Response.well_formed resp -> Response.framed (Response.build resp) resp.
Proof.
  intros (Hmsg & _ & Hlen & _). split.
  - apply find_In in Hlen. apply in_split in Hlen as (m1 & m2 & E).
    exists (fold_right
              (fun kv acc => fst kv ++ ": " ++ snd kv ++ CRLF ++ acc) "" m1),
      (fold_right
         (fun kv acc => fst kv ++ ": " ++ snd kv ++ CRLF ++ acc) "" m2).
    split; [|split; apply header_lines_end].
    unfold Response.build. rewrite Hmsg, E, header_lines_app.
    cbn [fold_right fst snd]. rewrite !append_assoc. reflexivity.
  - unfold Response.build.
    destruct (header_lines_end (resp_headers resp)) as [-> | [t ->]].
    + exists ("HTTP/1.1 " ++ of_Z (status_code resp) ++ " "
              ++ status_message resp).
      rewrite !append_assoc. reflexivity.
    + exists ("HTTP/1.1 " ++ of_Z (status_code resp) ++ " "
              ++ status_message resp ++ CRLF ++ t).
      rewrite !append_assoc. reflexivity.
Qed.

End WireFacts.

(** X30.  The text the server queues for a routed request, and for a parse
    error, is the status line "HTTP/1.1 code message", header lines that
    each end with CRLF, among them the line "Content-Length: n" where n
    is the length of the body, then an empty line, then the body. *)
Theorem queued_response_is_framed (w : World) (server_config : ServerConfig)
    (request : HttpRequest) (err : Z) :
  Response.framed
    (Response.build (Server.buildResponse w server_config request))
    (Server.buildResponse w server_config request) /\
  Response.framed
    (Response.build (Server.parseErrorResponse err))
    (Server.parseErrorResponse err).
Proof.
  split; apply WireFacts.build_framed.
  - apply RouterFacts.buildResponse_leaf.
    + apply RouterFacts.well_formed_ok.
    + apply RouterFacts.well_formed_badRequest.
    + apply RouterFacts.well_formed_notFound.
    + apply RouterFacts.well_formed_methodNotAllowed.
    + apply RouterFacts.well_formed_internalServerError.
    + apply RouterFacts.well_formed_payloadTooLarge.
  - unfold Server.parseErrorResponse.
    destruct (err =? 405)%Z; [apply RouterFacts.well_formed_methodNotAllowed|].
    destruct (err =? 505)%Z; [apply RouterFacts.well_formed_notImplemented|].
    apply RouterFacts.well_formed_badRequest.
Qed.
